(** * Reepos backend: the repository ingestion cascade

    A shallow embedding of [RepositoryService.createRepository]
    (services/repository.service.js) and of the JavaScript string and array
    primitives it uses, followed by the properties of the write cascade:
    pre-checks, commit/branch joins, file/language resolution and the
    reconciliation of files deleted before the import. *)

From Stdlib Require Import List String Ascii ZArith Lia Bool Arith Permutation.
Import ListNotations.
Open Scope string_scope.
Open Scope list_scope.

(** ** JavaScript primitives used by the service *)

Module Js.

(** [s.lastIndexOf(c)] for a one-character needle: the index of the last
    occurrence, or -1. [i] is the index of the first character of [s]. *)
Fixpoint lastIndexOf_from (i : Z) (s : string) (c : ascii) : Z :=
  match s with
  | EmptyString => (-1)%Z
  | String a s' =>
      let r := lastIndexOf_from (i + 1) s' c in
      if (0 <=? r)%Z then r else if Ascii.eqb a c then i else (-1)%Z
  end.

Definition lastIndexOf (s : string) (c : ascii) : Z := lastIndexOf_from 0 s c.

Fixpoint drop (n : nat) (s : string) : string :=
  match n, s with
  | O, _ => s
  | S _, EmptyString => EmptyString
  | S n', String _ s' => drop n' s'
  end.

(** [s.slice(start)]: a negative start counts from the end, and the start
    is clamped to the string. *)
Definition slice (s : string) (start : Z) : string :=
  let len := Z.of_nat (String.length s) in
  let from := if (start <? 0)%Z then Z.max (len + start) 0 else Z.min start len in
  drop (Z.to_nat from) s.

(** [arr.includes(x)] on an array of strings. *)
Definition includes (arr : list string) (x : string) : bool :=
  existsb (String.eqb x) arr.

(** [arr.some(p)]. *)
Definition some {A} (p : A -> bool) (arr : list A) : bool := existsb p arr.

(** [cond] as used in [if (cond)] for a nullable string. *)
Definition truthy (v : option string) : bool :=
  match v with
  | None => false
  | Some s => negb (s =? "")
  end.

(** Whether a string contains a character. *)
Fixpoint has_char (c : ascii) (s : string) : bool :=
  match s with
  | EmptyString => false
  | String a s' => Ascii.eqb a c || has_char c s'
  end.

End Js.

(** ** Extraction result ([repoInfo(name)]) *)

Record ExCommit := {
  xc_title : string;
  xc_content : string;
  xc_hash : string;
  xc_author : string;
  xc_created_at : string;
  xc_branches : list string
}.

(** A size is a byte count for a live file and the string ["N/A"] for a
    file that only exists in the history. *)
Inductive JsSize := SizeNum (n : N) | SizeStr (s : string).

Record ExFile := { xf_name : string; xf_size : N; xf_path : string }.
Record ExBranch := { xb_name : string; xb_type : string }.
Record ExModification := { xm_type : string; xm_commit : string; xm_file : string }.

Record Extraction := {
  commits : list ExCommit;
  files : list ExFile;
  branches : list ExBranch;
  contributors : list string;
  modifications : list ExModification
}.

(** ** Persisted rows *)

Record RepositoryRow := {
  rp_id : nat; rp_name : string; rp_description : string; rp_user_owner : option nat
}.
Record Repository_LanguageRow := { rl_id : nat; rl_repo : nat; rl_language : string }.
Record ContributorRow := { ct_id : nat; ct_name : string; ct_repo : nat }.
Record BranchRow := { br_id : nat; br_name : string; br_type : string; br_repo : nat }.
Record CommitRow := {
  cm_id : nat; cm_title : string; cm_content : string; cm_hash : string;
  cm_author : nat; cm_created_at : string; cm_repo : nat
}.
Record Commit_BranchRow := { cb_id : nat; cb_commit : nat; cb_branch : nat }.
Record FileRow := {
  fl_id : nat; fl_name : string; fl_size : JsSize; fl_path : string;
  fl_repo : nat; fl_language : option nat
}.
Record ModificationRow := { md_id : nat; md_type : string; md_commit : nat; md_file : nat }.

Inductive Row :=
| RRepository (r : RepositoryRow)
| RRepository_Language (r : Repository_LanguageRow)
| RContributor (r : ContributorRow)
| RBranch (r : BranchRow)
| RCommit (r : CommitRow)
| RCommit_Branch (r : Commit_BranchRow)
| RFile (r : FileRow)
| RModification (r : ModificationRow).

Definition row_id (r : Row) : nat :=
  match r with
  | RRepository r => rp_id r
  | RRepository_Language r => rl_id r
  | RContributor r => ct_id r
  | RBranch r => br_id r
  | RCommit r => cm_id r
  | RCommit_Branch r => cb_id r
  | RFile r => fl_id r
  | RModification r => md_id r
  end.

(** ** The store

    Modelled from the spec: the models (models/*.model.js) are not part of
    the sources at hand. The store is the sequence of rows inserted so far,
    in insertion order; identifiers are opaque and store-assigned, here the
    next value of a counter. A table is the projection of the sequence on
    one kind of row. *)
Record Store := { rows : list Row; next_id : nat }.

Definition repositories_in (l : list Row) : list RepositoryRow :=
  flat_map (fun r => match r with RRepository x => [x] | _ => [] end) l.
Definition contributors_in (l : list Row) : list ContributorRow :=
  flat_map (fun r => match r with RContributor x => [x] | _ => [] end) l.
Definition branches_in (l : list Row) : list BranchRow :=
  flat_map (fun r => match r with RBranch x => [x] | _ => [] end) l.
Definition commits_in (l : list Row) : list CommitRow :=
  flat_map (fun r => match r with RCommit x => [x] | _ => [] end) l.
Definition commit_branches_in (l : list Row) : list Commit_BranchRow :=
  flat_map (fun r => match r with RCommit_Branch x => [x] | _ => [] end) l.
Definition files_in (l : list Row) : list FileRow :=
  flat_map (fun r => match r with RFile x => [x] | _ => [] end) l.
Definition modifications_in (l : list Row) : list ModificationRow :=
  flat_map (fun r => match r with RModification x => [x] | _ => [] end) l.

(** The rows written since the store was [s0]. *)
Definition persisted (s0 s : Store) : list Row := skipn (List.length (rows s0)) (rows s).

(** ** Service results *)

Inductive ErrorType := BAD_REQUEST | FORBIDDEN | NOT_FOUND.

Record ServiceResult := {
  success : bool;
  error : option (string * ErrorType);
  data : option unit
}.

(** Modelled from the spec: lib/serviceError.js is not part of the sources;
    the shape is the one the user service writes out by hand. *)
Definition ServiceError (message : string) (type : ErrorType) : ServiceResult :=
  {| success := false; error := Some (message, type); data := None |}.

Definition ok_result : ServiceResult :=
  {| success := true; error := None; data := None |}.

(** ** Validation *)

Record Validation := { v_error : option string; v_data : option nat }.

(** Modelled from the spec: lib/validationHandler.js is not part of the
    sources. It reports the first failing check in the order given, and
    otherwise the actor identity resolved from the token. *)
Fixpoint validationHandler (checks : list Validation) : Validation :=
  match checks with
  | [] => {| v_error := None; v_data := None |}
  | v :: rest =>
      if Js.truthy (v_error v) then {| v_error := v_error v; v_data := None |}
      else
        let r := validationHandler rest in
        if Js.truthy (v_error r) then r
        else {| v_error := None;
                v_data := match v_data v with Some d => Some d | None => v_data r end |}
  end.

(** ** Effects: store state and thrown faults *)

Inductive Fault :=
| TypeError (reading : string)   (* property read on [undefined] *)
| StoreError (r : Row).          (* the store rejected the insertion of [r] *)

Inductive Res (A : Type) :=
| Done (a : A) (s : Store)
| Threw (e : Fault) (s : Store).
Arguments Done {A} a s.
Arguments Threw {A} e s.

Definition M (A : Type) := Store -> Res A.

(** The store a computation leaves, whatever its outcome. *)
Definition store_of {A} (r : Res A) : Store :=
  match r with Done _ s => s | Threw _ s => s end.

Definition ret {A} (a : A) : M A := fun s => Done a s.
Definition throw {A} (e : Fault) : M A := fun s => Threw e s.
Definition bind {A B} (m : M A) (k : A -> M B) : M B :=
  fun s => match m s with
           | Done a s' => k a s'
           | Threw e s' => Threw e s'
           end.

Declare Scope js_scope.
Delimit Scope js_scope with js.
Notation "x <- m ;; k" := (bind m (fun x => k))
  (at level 100, m at next level, right associativity) : js_scope.
Notation "' p <- m ;; k" := (bind m (fun x => match x with p => k end))
  (at level 100, p pattern, m at next level, right associativity) : js_scope.
Notation "m ;;; k" := (bind m (fun _ => k))
  (at level 100, right associativity) : js_scope.
Open Scope js_scope.

(** [for (const x of l) body], with the variables the body updates as [acc]. *)
Fixpoint for_of {X A} (l : list X) (body : X -> A -> M A) (acc : A) : M A :=
  match l with
  | [] => ret acc
  | x :: l' => acc' <- body x acc ;; for_of l' body acc'
  end.

(** [v.id] where [v] is the result of [Array.prototype.find]. *)
Definition dot_id {T} (get : T -> nat) (v : option T) : M nat :=
  match v with
  | Some x => ret (get x)
  | None => throw (TypeError "id")
  end.

(** ** Environment of one call

    What [createRepository] calls and the sources at hand do not contain
    (the validators, the upstream check, the language registry, the metadata
    extraction) is a parameter of the call, as is the store's decision to
    refuse a row. *)

Record Env := {
  validateRepoName : string -> Validation;
  validateToken : string -> Validation;
  validateDescription : string -> Validation;
  validateLanguages : list string -> Validation;
  checkIfExistsInBackend : string -> bool;
  Language_checkIfExists : string -> bool;
  Language_getByExt : string -> option nat;
  repoInfo : string -> Extraction;
  (** whether the store refuses to insert a row in a given state *)
  rejects : Store -> Row -> bool
}.

(** ** Model operations

    Modelled from the spec: the [save] operations of the models are not part
    of the sources. Each one inserts one row, returns the stored row with its
    store-assigned [id], and throws when the store refuses the row. *)

Definition insert {T} (E : Env) (inj : T -> Row) (mk : nat -> T) : M T :=
  fun s =>
    let r := mk (next_id s) in
    if rejects E s (inj r) then Threw (StoreError (inj r)) s
    else Done r {| rows := rows s ++ [inj r]; next_id := S (next_id s) |}.

Definition Repository_save (E : Env) (name description : string)
    (user_owner : option nat) : M RepositoryRow :=
  insert E RRepository (fun id =>
    {| rp_id := id; rp_name := name; rp_description := description;
       rp_user_owner := user_owner |}).

Definition Repository_Language_save (E : Env) (repo : nat) (language : string)
    : M Repository_LanguageRow :=
  insert E RRepository_Language (fun id =>
    {| rl_id := id; rl_repo := repo; rl_language := language |}).

Definition Contributor_save (E : Env) (name : string) (repo : nat) : M ContributorRow :=
  insert E RContributor (fun id => {| ct_id := id; ct_name := name; ct_repo := repo |}).

Definition Branch_save (E : Env) (name type : string) (repo : nat) : M BranchRow :=
  insert E RBranch (fun id =>
    {| br_id := id; br_name := name; br_type := type; br_repo := repo |}).

Definition Commit_save (E : Env) (title content hash : string) (author : nat)
    (created_at : string) (repo : nat) : M CommitRow :=
  insert E RCommit (fun id =>
    {| cm_id := id; cm_title := title; cm_content := content; cm_hash := hash;
       cm_author := author; cm_created_at := created_at; cm_repo := repo |}).

Definition Commit_Branch_save (E : Env) (commit branch : nat) : M Commit_BranchRow :=
  insert E RCommit_Branch (fun id =>
    {| cb_id := id; cb_commit := commit; cb_branch := branch |}).

Definition File_save (E : Env) (name : string) (size : JsSize) (path : string)
    (repo : nat) (language : option nat) : M FileRow :=
  insert E RFile (fun id =>
    {| fl_id := id; fl_name := name; fl_size := size; fl_path := path;
       fl_repo := repo; fl_language := language |}).

Definition Modification_save (E : Env) (type : string) (commit file : nat)
    : M ModificationRow :=
  insert E RModification (fun id =>
    {| md_id := id; md_type := type; md_commit := commit; md_file := file |}).

(** Modelled from the spec: [Repository.checkIfUserHasRepo] is not part of
    the sources; a repository name is unique per owning user. *)
Definition checkIfUserHasRepo (s : Store) (name : string) (user : option nat) : bool :=
  existsb (fun r => (rp_name r =? name) &&
                    match rp_user_owner r, user with
                    | Some a, Some b => Nat.eqb a b
                    | None, None => true
                    | _, _ => false
                    end)
          (repositories_in (rows s)).

(** ** [RepositoryService.createRepository] *)

Record RepoData := {
  rd_name : string;
  rd_description : string;
  rd_languages : list string
}.

(** The sentinel size of a file that was deleted before the import. *)
Definition size_sentinel : JsSize := SizeStr "N/A".

(** [file.name.slice(file.name.lastIndexOf(".") + 1)] *)
Definition extension_of (name : string) : string :=
  Js.slice name (Js.lastIndexOf name "." + 1).

(** [modification.file.slice(modification.file.lastIndexOf("/") + 1)] *)
Definition file_name_of (path : string) : string :=
  Js.slice path (Js.lastIndexOf path "/" + 1).

Section Cascade.
Variable E : Env.
Variables (name description : string) (languages : list string).
Variable user : option nat.
Variable x : Extraction.

(** Relate one language with the repository. *)
Definition save_language (repoSaved : RepositoryRow) (language : string) (_ : unit)
    : M unit :=
  Repository_Language_save E (rp_id repoSaved) language ;;; ret tt.

(** Save one contributor of the repository. *)
Definition save_contributor (repoSaved : RepositoryRow) (contributor : string)
    (contributorsSaved : list ContributorRow) : M (list ContributorRow) :=
  c <- Contributor_save E contributor (rp_id repoSaved) ;;
  ret (contributorsSaved ++ [c]).

(** Save one branch of the repository. *)
Definition save_branch (repoSaved : RepositoryRow) (branch : ExBranch)
    (branchesSaved : list BranchRow) : M (list BranchRow) :=
  b <- Branch_save E (xb_name branch) (xb_type branch) (rp_id repoSaved) ;;
  ret (branchesSaved ++ [b]).

(** Relate a saved commit with one saved branch. *)
Definition save_commit_branch (commitSaved : CommitRow) (branchSaved : BranchRow)
    (_ : unit) : M unit :=
  Commit_Branch_save E (cm_id commitSaved) (br_id branchSaved) ;;; ret tt.

(** Save one commit of the repository and relate it with its branches. *)
Definition save_commit (repoSaved : RepositoryRow)
    (contributorsSaved : list ContributorRow) (branchesSaved : list BranchRow)
    (commit : ExCommit) (commitsSaved : list CommitRow) : M (list CommitRow) :=
  contributor <-
    dot_id ct_id (find (fun c => ct_name c =? xc_author commit) contributorsSaved) ;;
  commitSaved <-
    Commit_save E (xc_title commit) (xc_content commit) (xc_hash commit)
      contributor (xc_created_at commit) (rp_id repoSaved) ;;
  let commitsSaved := commitsSaved ++ [commitSaved] in
  let commitBranchesSaved :=
    filter (fun b => Js.includes (xc_branches commit) (br_name b)) branchesSaved in
  for_of commitBranchesSaved (save_commit_branch commitSaved) tt ;;;
  ret commitsSaved.

(** Save one modification of a saved file. *)
Definition save_modification (commitsSaved : list CommitRow) (fileSaved : FileRow)
    (fileModification : ExModification) (modificationsSaved : list ModificationRow)
    : M (list ModificationRow) :=
  commit <-
    dot_id cm_id (find (fun c => cm_hash c =? xm_commit fileModification) commitsSaved) ;;
  m <- Modification_save E (xm_type fileModification) commit (fl_id fileSaved) ;;
  ret (modificationsSaved ++ [m]).

(** Save one file of the repository with its modifications. *)
Definition save_file (repoSaved : RepositoryRow) (commitsSaved : list CommitRow)
    (file : ExFile) (saved : list FileRow * list ModificationRow)
    : M (list FileRow * list ModificationRow) :=
  let '(filesSaved, modificationsSaved) := saved in
  let ext := extension_of (xf_name file) in
  let language_id := Language_getByExt E ext in
  fileSaved <-
    File_save E (xf_name file) (SizeNum (xf_size file)) (xf_path file)
      (rp_id repoSaved) language_id ;;
  let filesSaved := filesSaved ++ [fileSaved] in
  let fileModifications :=
    filter (fun m => xm_file m =? xf_path file) (modifications x) in
  modificationsSaved <-
    for_of fileModifications (save_modification commitsSaved fileSaved)
      modificationsSaved ;;
  ret (filesSaved, modificationsSaved).

(** The modifications whose path is not the path of a saved file. *)
Definition deletedFilesModifications (filesSaved : list FileRow) : list ExModification :=
  filter (fun m => negb (Js.some (fun f => fl_path f =? xm_file m) filesSaved))
         (modifications x).

(** Save a file deleted previously, for one of its modifications. *)
Definition save_deleted_file (repoSaved : RepositoryRow)
    (commitsSaved : list CommitRow) (modification : ExModification)
    (modificationsSaved : list ModificationRow) : M (list ModificationRow) :=
  commit <-
    dot_id cm_id (find (fun c => cm_hash c =? xm_commit modification) commitsSaved) ;;
  let file_name := file_name_of (xm_file modification) in
  fileSaved <-
    File_save E file_name size_sentinel (xm_file modification)
      (rp_id repoSaved) None ;;
  m <- Modification_save E (xm_type modification) commit (fl_id fileSaved) ;;
  ret (modificationsSaved ++ [m]).

(** The writes of [createRepository], from [Repository.save] on. *)
Definition cascade : M ServiceResult :=
  repoSaved <- Repository_save E name description user ;;
  for_of languages (save_language repoSaved) tt ;;;
  contributorsSaved <- for_of (contributors x) (save_contributor repoSaved) [] ;;
  branchesSaved <- for_of (branches x) (save_branch repoSaved) [] ;;
  commitsSaved <-
    for_of (commits x) (save_commit repoSaved contributorsSaved branchesSaved) [] ;;
  ' (filesSaved, modificationsSaved) <-
    for_of (files x) (save_file repoSaved commitsSaved) ([], []) ;;
  for_of (deletedFilesModifications filesSaved)
    (save_deleted_file repoSaved commitsSaved) modificationsSaved ;;;
  ret ok_result.
End Cascade.

Definition validate (E : Env) (repoData : RepoData) (token : string) : Validation :=
  validationHandler
    [ validateRepoName E (rd_name repoData);
      validateToken E token;
      validateDescription E (rd_description repoData);
      validateLanguages E (rd_languages repoData) ].

Definition language_missing_message (lang : string) : string :=
  ("Lenguaje " ++ lang ++ " no existe en la base de datos!")%string.

Definition createRepository (E : Env) (repoData : RepoData) (token : string)
    : M ServiceResult :=
  fun s =>
    let name := rd_name repoData in
    let description := rd_description repoData in
    let languages := rd_languages repoData in
    let validation := validate E repoData token in
    if Js.truthy (v_error validation) then
      Done (ServiceError (match v_error validation with Some e => e | None => "" end)
                         BAD_REQUEST) s
    else if negb (checkIfExistsInBackend E name) then
      Done (ServiceError "Repositorio no existe en el servidor!" NOT_FOUND) s
    else if checkIfUserHasRepo s name (v_data validation) then
      Done (ServiceError "Usuario ya tiene el repositorio!" BAD_REQUEST) s
    else
      match find (fun lang => negb (Language_checkIfExists E lang)) languages with
      | Some lang => Done (ServiceError (language_missing_message lang) NOT_FOUND) s
      | None => cascade E name description languages (v_data validation)
                        (repoInfo E name) s
      end.

(** ** Concrete scenarios *)

Module Demo.

Definition valid (d : option nat) : Validation := {| v_error := None; v_data := d |}.

Definition registry (ext : string) : option nat :=
  if ext =? "js" then Some 1 else if ext =? "py" then Some 2
  else if ext =? "Makefile" then Some 3 else None.

Definition mkCommit (hash author : string) (brs : list string) : ExCommit :=
  {| xc_title := "t"; xc_content := "c"; xc_hash := hash; xc_author := author;
     xc_created_at := "2024-01-01"; xc_branches := brs |}.

(** Two commits by alice on two local branches; one live file, and one
    path, old/util.py, that was added and then deleted before the import. *)
Definition extraction : Extraction :=
  {| commits := [ mkCommit "h1" "alice" ["main"]; mkCommit "h2" "alice" ["main"; "gone"] ];
     files := [ {| xf_name := "app.js"; xf_size := 10%N; xf_path := "src/app.js" |};
                {| xf_name := "Makefile"; xf_size := 7%N; xf_path := "Makefile" |} ];
     branches := [ {| xb_name := "main"; xb_type := "local" |};
                   {| xb_name := "feature"; xb_type := "local" |} ];
     contributors := [ "alice" ];
     modifications :=
       [ {| xm_type := "A"; xm_commit := "h1"; xm_file := "src/app.js" |};
         {| xm_type := "A"; xm_commit := "h1"; xm_file := "old/util.py" |};
         {| xm_type := "M"; xm_commit := "h2"; xm_file := "src/app.js" |};
         {| xm_type := "D"; xm_commit := "h2"; xm_file := "old/util.py" |} ] |}.

(** The same history with a commit whose author is not a contributor. *)
Definition extraction_unknown_author : Extraction :=
  {| commits := [ mkCommit "h1" "alice" ["main"]; mkCommit "h2" "Alice" ["main"] ];
     files := files extraction;
     branches := branches extraction;
     contributors := contributors extraction;
     modifications := modifications extraction |}.

Definition env_with (info : Extraction) (rej : Store -> Row -> bool) : Env :=
  {| validateRepoName := fun _ => valid None;
     validateToken := fun _ => valid (Some 7);
     validateDescription := fun _ => valid None;
     validateLanguages := fun _ => valid None;
     checkIfExistsInBackend := fun n => n =? "demo";
     Language_checkIfExists := fun l => (l =? "js") || (l =? "py");
     Language_getByExt := registry;
     repoInfo := fun _ => info;
     rejects := rej |}.

Definition env : Env := env_with extraction (fun _ _ => false).
Definition env_unknown_author : Env :=
  env_with extraction_unknown_author (fun _ _ => false).
(** A store that refuses every branch. *)
Definition env_rejecting_branches : Env :=
  env_with extraction (fun _ r => match r with RBranch _ => true | _ => false end).

Definition empty : Store := {| rows := []; next_id := 0 |}.

Definition repoData : RepoData :=
  {| rd_name := "demo"; rd_description := "a demo"; rd_languages := ["js"; "py"] |}.
Definition repoData_cobol : RepoData :=
  {| rd_name := "demo"; rd_description := "a demo"; rd_languages := ["js"; "cobol"] |}.

(** A store in which user 7 already owns "demo". *)
Definition owned : Store :=
  {| rows := [ RRepository {| rp_id := 0; rp_name := "demo"; rp_description := "old";
                              rp_user_owner := Some 7 |} ];
     next_id := 1 |}.

(** The same history with a modification by a commit that was not
    extracted. *)
Definition extraction_unknown_hash : Extraction :=
  {| commits := commits extraction;
     files := files extraction;
     branches := branches extraction;
     contributors := contributors extraction;
     modifications :=
       [ {| xm_type := "A"; xm_commit := "h1"; xm_file := "src/app.js" |};
         {| xm_type := "M"; xm_commit := "h9"; xm_file := "src/app.js" |} ] |}.

Definition env_unknown_hash : Env :=
  env_with extraction_unknown_hash (fun _ _ => false).

(** The demo history with its live file listed twice. *)
Definition extraction_duplicate_path : Extraction :=
  {| commits := commits extraction;
     files := [ {| xf_name := "app.js"; xf_size := 10%N; xf_path := "src/app.js" |};
                {| xf_name := "app.js"; xf_size := 10%N; xf_path := "src/app.js" |} ];
     branches := branches extraction;
     contributors := contributors extraction;
     modifications := modifications extraction |}.

Definition env_duplicate_path : Env :=
  env_with extraction_duplicate_path (fun _ _ => false).
End Demo.

(** ** The rows of a completed cascade

    A completed cascade has written, in this order, the repository, its
    language rows, the contributors, the branches, each commit followed by
    its branch rows, each live file followed by its modifications, and one
    file and one modification per modification of a deleted path. *)

Record Trace := {
  t_repo : RepositoryRow;
  t_languages : list Repository_LanguageRow;
  t_contributors : list ContributorRow;
  t_branches : list BranchRow;
  t_commits : list (CommitRow * list Commit_BranchRow);
  t_files : list (FileRow * list ModificationRow);
  t_deleted : list (FileRow * ModificationRow)
}.

Definition commit_rows (p : CommitRow * list Commit_BranchRow) : list Row :=
  RCommit (fst p) :: map RCommit_Branch (snd p).
Definition file_rows (p : FileRow * list ModificationRow) : list Row :=
  RFile (fst p) :: map RModification (snd p).
Definition deleted_rows (p : FileRow * ModificationRow) : list Row :=
  [RFile (fst p); RModification (snd p)].

Definition trace_rows (t : Trace) : list Row :=
  [RRepository (t_repo t)]
  ++ map RRepository_Language (t_languages t)
  ++ map RContributor (t_contributors t)
  ++ map RBranch (t_branches t)
  ++ flat_map commit_rows (t_commits t)
  ++ flat_map file_rows (t_files t)
  ++ flat_map deleted_rows (t_deleted t).

Section TraceSpec.
Variable E : Env.
Variables (name description : string) (languages : list string).
Variable user : option nat.
Variable x : Extraction.
Variable rid : nat.

Definition language_rel (l : string) (r : Repository_LanguageRow) : Prop :=
  rl_language r = l /\ rl_repo r = rid.

Definition contributor_rel (n : string) (r : ContributorRow) : Prop :=
  ct_name r = n /\ ct_repo r = rid.

Definition branch_rel (b : ExBranch) (r : BranchRow) : Prop :=
  br_name r = xb_name b /\ br_type r = xb_type b /\ br_repo r = rid.

Definition commit_branch_rel (cid : nat) (b : BranchRow) (r : Commit_BranchRow) : Prop :=
  cb_commit r = cid /\ cb_branch r = br_id b.

Definition commit_rel (cs : list ContributorRow) (bs : list BranchRow)
    (c : ExCommit) (p : CommitRow * list Commit_BranchRow) : Prop :=
  cm_title (fst p) = xc_title c /\ cm_content (fst p) = xc_content c /\
  cm_hash (fst p) = xc_hash c /\ cm_created_at (fst p) = xc_created_at c /\
  cm_repo (fst p) = rid /\
  (exists a, find (fun k => ct_name k =? xc_author c) cs = Some a /\
             cm_author (fst p) = ct_id a) /\
  Forall2 (commit_branch_rel (cm_id (fst p)))
          (filter (fun b => Js.includes (xc_branches c) (br_name b)) bs) (snd p).

Definition modification_rel (cms : list CommitRow) (fid : nat)
    (m : ExModification) (r : ModificationRow) : Prop :=
  md_type r = xm_type m /\ md_file r = fid /\
  exists c, find (fun c => cm_hash c =? xm_commit m) cms = Some c /\
            md_commit r = cm_id c.

Definition file_rel (cms : list CommitRow) (f : ExFile)
    (p : FileRow * list ModificationRow) : Prop :=
  fl_name (fst p) = xf_name f /\ fl_size (fst p) = SizeNum (xf_size f) /\
  fl_path (fst p) = xf_path f /\ fl_repo (fst p) = rid /\
  fl_language (fst p) = Language_getByExt E (extension_of (xf_name f)) /\
  Forall2 (modification_rel cms (fl_id (fst p)))
          (filter (fun m => xm_file m =? xf_path f) (modifications x)) (snd p).

Definition deleted_rel (cms : list CommitRow) (m : ExModification)
    (p : FileRow * ModificationRow) : Prop :=
  fl_name (fst p) = file_name_of (xm_file m) /\ fl_size (fst p) = size_sentinel /\
  fl_path (fst p) = xm_file m /\ fl_repo (fst p) = rid /\
  fl_language (fst p) = None /\
  modification_rel cms (fl_id (fst p)) m (snd p).

Definition trace_ok (t : Trace) : Prop :=
  t_repo t = {| rp_id := rid; rp_name := name; rp_description := description;
                rp_user_owner := user |} /\
  Forall2 language_rel languages (t_languages t) /\
  Forall2 contributor_rel (contributors x) (t_contributors t) /\
  Forall2 branch_rel (branches x) (t_branches t) /\
  Forall2 (commit_rel (t_contributors t) (t_branches t)) (commits x) (t_commits t) /\
  Forall2 (file_rel (map fst (t_commits t))) (files x) (t_files t) /\
  Forall2 (deleted_rel (map fst (t_commits t)))
          (deletedFilesModifications x (map fst (t_files t))) (t_deleted t).
End TraceSpec.

(** [wrote s s' d]: from [s] to [s'] exactly the rows [d] were appended,
    with consecutive identifiers. *)
Definition wrote (s s' : Store) (d : list Row) : Prop :=
  rows s' = rows s ++ d /\
  next_id s' = next_id s + List.length d /\
  map row_id d = seq (next_id s) (List.length d).

(** The pre-checks of [createRepository] all pass in store [s]. *)
Definition prechecks_pass (E : Env) (repoData : RepoData) (token : string)
    (s : Store) : Prop :=
  Js.truthy (v_error (validate E repoData token)) = false /\
  checkIfExistsInBackend E (rd_name repoData) = true /\
  checkIfUserHasRepo s (rd_name repoData) (v_data (validate E repoData token)) = false /\
  Forall (fun lang => Language_checkIfExists E lang = true) (rd_languages repoData).

(** ** Notions used by the statements *)

(** [n] is the name of a persisted branch that a persisted Commit_Branch row
    relates with the commit [r]. *)
Definition commit_branch_name (P : list Row) (r : CommitRow) (n : string) : Prop :=
  exists cb b,
    In cb (commit_branches_in P) /\ cb_commit cb = cm_id r /\
    In b (branches_in P) /\ br_id b = cb_branch cb /\ br_name b = n.

(** The Commit_Branch rows among [P] for the Commit row [r] of the extracted
    commit [c]: each references a Branch row among [P] whose name the commit
    declares, each such Branch row has its Commit_Branch row, and so the
    names related with [r] are the declared names that are names of Branch
    rows among [P]. *)
Definition commit_branches_match (P : list Row) (c : ExCommit) (r : CommitRow) : Prop :=
  cm_hash r = xc_hash c /\
  (forall cb, In cb (commit_branches_in P) -> cb_commit cb = cm_id r ->
     exists b, In b (branches_in P) /\ br_id b = cb_branch cb /\
               In (br_name b) (xc_branches c)) /\
  (forall b, In b (branches_in P) -> In (br_name b) (xc_branches c) ->
     exists cb, In cb (commit_branches_in P) /\ cb_commit cb = cm_id r /\
                cb_branch cb = br_id b) /\
  (forall n, commit_branch_name P r n <->
             In n (xc_branches c) /\ In n (map br_name (branches_in P))).

(** The extracted modifications whose path is the path of no extracted file. *)
Definition orphaned_modifications (x : Extraction) : list ExModification :=
  filter (fun m => negb (existsb (fun f => xf_path f =? xm_file m) (files x)))
         (modifications x).

(** [name] is the segment of [path] after its last ['/'], the whole path
    when it has none. *)
Definition final_segment (path name : string) : Prop :=
  Js.has_char "/" name = false /\
  exists pre, path = (pre ++ name)%string /\
              (pre = "" \/ exists q, pre = (q ++ "/")%string).

(** The Modification row [m] references a File row and a Commit row among
    [P], both of the repository [rid]. *)
Definition references_rows_of (P : list Row) (rid : nat) (m : ModificationRow) : Prop :=
  (exists f, In f (files_in P) /\ fl_id f = md_file m /\ fl_repo f = rid) /\
  (exists c, In c (commits_in P) /\ cm_id c = md_commit m /\ cm_repo c = rid).

(** Some Modification row among [P] records [xm] on a File row among [P] of
    the path of [xm] and of the repository [rid]. *)
Definition recorded_on_its_path (P : list Row) (rid : nat) (xm : ExModification)
    : Prop :=
  exists m f, In m (modifications_in P) /\ md_type m = xm_type xm /\
              In f (files_in P) /\ fl_id f = md_file m /\
              fl_path f = xm_file xm /\ fl_repo f = rid.

(** The File row of an extracted file. *)
Definition live_file_row (xf : ExFile) (f : FileRow) : Prop :=
  fl_path f = xf_path xf /\ fl_size f = SizeNum (xf_size xf).

(** The placeholder File row of a modification of a deleted path. *)
Definition placeholder_for (xm : ExModification) (f : FileRow) : Prop :=
  fl_size f = size_sentinel /\
  fl_path f = xm_file xm /\
  fl_name f = file_name_of (xm_file xm) /\
  final_segment (fl_path f) (fl_name f) /\
  fl_language f = None.

(** The File row of an extracted file whose name has no ['.'] carries the
    registry's answer for the whole name. *)
Definition whole_name_language (E : Env) (xf : ExFile) (f : FileRow) : Prop :=
  fl_name f = xf_name xf /\ fl_path f = xf_path xf /\
  (Js.has_char "." (xf_name xf) = false ->
   extension_of (xf_name xf) = xf_name xf /\
   fl_language f = Language_getByExt E (xf_name xf) /\
   (fl_language f <> None <-> Language_getByExt E (xf_name xf) <> None)).

(** The File row [f] is the one a modification [xm] is saved against: the
    row of the extracted file of its path when there is one, a placeholder
    otherwise. *)
Definition modification_target (x : Extraction) (xm : ExModification) (f : FileRow)
    : Prop :=
  fl_path f = xm_file xm /\
  if existsb (fun xf => xf_path xf =? xm_file xm) (files x)
  then exists xf, In xf (files x) /\ xf_path xf = xm_file xm /\
                  fl_name f = xf_name xf /\ fl_size f = SizeNum (xf_size xf)
  else fl_size f = size_sentinel /\ fl_language f = None.

(** The Modification row [m], among the rows [P], records the extracted
    modification [xm]. *)
Definition records_modification (x : Extraction) (P : list Row)
    (xm : ExModification) (m : ModificationRow) : Prop :=
  md_type m = xm_type xm /\
  (exists c, In c (commits_in P) /\ cm_id c = md_commit m /\
             cm_hash c = xm_commit xm) /\
  (exists f, In f (files_in P) /\ fl_id f = md_file m /\
             modification_target x xm f).

(** Every Commit row among [P] has, as author, the identifier of a
    Contributor row among [P]. *)
Definition commits_have_authors (P : list Row) : Prop :=
  forall r, In r (commits_in P) ->
            exists c, In c (contributors_in P) /\ ct_id c = cm_author r.

(** The Repository row that [createRepository] saves first. *)
Definition repository_row (E : Env) (repoData : RepoData) (token : string)
    (s : Store) : RepositoryRow :=
  {| rp_id := next_id s; rp_name := rd_name repoData;
     rp_description := rd_description repoData;
     rp_user_owner := v_data (validate E repoData token) |}.

(** A row that is not a Commit row. *)
Definition not_commit (r : Row) : Prop :=
  match r with RCommit _ => False | _ => True end.

(** A Commit row whose author is one of the contributors [cs]. *)
Definition authored_by (cs : list ContributorRow) (r : Row) : Prop :=
  match r with
  | RCommit c => exists a, In a cs /\ ct_id a = cm_author c
  | _ => True
  end.

(** ** Outcomes of the concrete scenarios *)

Module Outcome.
Import Demo.

(** The store after the import of the demo repository. *)
Definition final : Store :=
  Eval vm_compute in store_of (createRepository env repoData "tok" empty).

(** The store left by the import that meets the unknown author. *)
Definition after_unknown_author : Store :=
  Eval vm_compute in
    store_of (createRepository env_unknown_author repoData "tok" empty).

(** The store left by the import whose branches are refused. *)
Definition after_rejected_branch : Store :=
  Eval vm_compute in
    store_of (createRepository env_rejecting_branches repoData "tok" empty).


(** The store after the import of the history with a duplicated path. *)
Definition final_duplicate_path : Store :=
  Eval vm_compute in
    store_of (createRepository env_duplicate_path repoData "tok" empty).
End Outcome.

(** ** Outcome-independent properties of a computation *)

(** From [s] to [s'] rows were only appended, each of them in [G]. *)
Definition adds (G : Row -> Prop) (s s' : Store) : Prop :=
  exists d, rows s' = rows s ++ d /\ Forall G d.

(** Whether [m] completes or throws, it only appends rows in [G], and the
    faults it throws are in [F]. *)
Definition always (G : Row -> Prop) (F : Fault -> Prop) {A} (m : M A) : Prop :=
  forall s, match m s with
            | Done _ s' => adds G s s'
            | Threw e s' => adds G s s' /\ F e
            end.

(** The same environment with a store that refuses nothing. *)
Definition never_rejecting (E : Env) : Env :=
  {| validateRepoName := validateRepoName E;
     validateToken := validateToken E;
     validateDescription := validateDescription E;
     validateLanguages := validateLanguages E;
     checkIfExistsInBackend := checkIfExistsInBackend E;
     Language_checkIfExists := Language_checkIfExists E;
     Language_getByExt := Language_getByExt E;
     repoInfo := repoInfo E;
     rejects := fun _ _ => false |}.

(** The store [s] once the row [r] is appended to it. *)
Definition pushed (s : Store) (r : Row) : Store :=
  {| rows := rows s ++ [r]; next_id := S (next_id s) |}.

(** The store [s] once the rows [d] are appended to it, one by one. *)
Fixpoint extended (s : Store) (d : list Row) : Store :=
  match d with
  | [] => s
  | r :: d' => extended (pushed s r) d'
  end.

(** From [s] on, the store of [E] accepts each row of [d] in turn. *)
Fixpoint accepts (E : Env) (s : Store) (d : list Row) : bool :=
  match d with
  | [] => true
  | r :: d' => negb (rejects E s r) && accepts E (pushed s r) d'
  end.

(** [m] runs as [m0] does until the store of [E] refuses a row. [m0]
    appends some rows [d] to the store; when the store of [E] accepts them
    all, [m] ends as [m0] does, and when it refuses one of them after having
    accepted those before it, [m] throws the store's error for that row and
    leaves exactly the rows before it. *)
Definition runs_until_refused (E : Env) {A} (m m0 : M A) : Prop :=
  forall s, exists d,
    store_of (m0 s) = extended s d /\
    (accepts E s d = true -> m s = m0 s) /\
    (forall pre r post,
       d = pre ++ r :: post ->
       accepts E s pre = true ->
       rejects E (extended s pre) r = true ->
       m s = Threw (StoreError r) (extended s pre)).

(** ** The history before a commit of unknown author *)

(** The longest prefix of [l] whose elements all satisfy [p]. *)
Fixpoint take_while {A} (p : A -> bool) (l : list A) : list A :=
  match l with
  | [] => []
  | a :: l' => if p a then a :: take_while p l' else []
  end.

(** The author of [c] is, character for character, an extracted
    contributor. *)
Definition author_known (x : Extraction) (c : ExCommit) : bool :=
  existsb (fun n => n =? xc_author c) (contributors x).

(** What the cascade gets to see of [x] before it meets a commit of unknown
    author: the contributors, the branches and the commits before that one,
    and no file or modification. *)
Definition before_unknown_author (x : Extraction) : Extraction :=
  {| commits := take_while (author_known x) (commits x);
     files := [];
     branches := branches x;
     contributors := contributors x;
     modifications := [] |}.

(** The same environment with another extraction. *)
Definition with_extraction (E : Env) (x : Extraction) : Env :=
  {| validateRepoName := validateRepoName E;
     validateToken := validateToken E;
     validateDescription := validateDescription E;
     validateLanguages := validateLanguages E;
     checkIfExistsInBackend := checkIfExistsInBackend E;
     Language_checkIfExists := Language_checkIfExists E;
     Language_getByExt := Language_getByExt E;
     repoInfo := fun _ => x;
     rejects := rejects E |}.

(** ** Notions used by the further properties of [createRepository] *)

Definition repository_languages_in (l : list Row) : list Repository_LanguageRow :=
  flat_map (fun r => match r with RRepository_Language x => [x] | _ => [] end) l.

(** Every commit's author is, character for character, an extracted
    contributor. *)
Definition authors_resolve (x : Extraction) : Prop :=
  forall c, In c (commits x) -> In (xc_author c) (contributors x).

(** Every modification's commit hash is the hash of an extracted commit. *)
Definition hashes_resolve (x : Extraction) : Prop :=
  forall m, In m (modifications x) ->
            exists c, In c (commits x) /\ xc_hash c = xm_commit m.

(** The Commit row [r], among the rows [P] of the repository [rid], is the
    row of the extracted commit [c]: its fields are copied and its author is
    the first Contributor row among [P] that bears the author's name. *)
Definition commit_row_of (P : list Row) (rid : nat) (c : ExCommit) (r : CommitRow)
    : Prop :=
  cm_title r = xc_title c /\ cm_content r = xc_content c /\
  cm_hash r = xc_hash c /\ cm_created_at r = xc_created_at c /\
  cm_repo r = rid /\
  exists a, find (fun k => ct_name k =? xc_author c) (contributors_in P) = Some a /\
            cm_author r = ct_id a.

(** The File row [f] of the extracted file [xf]: its fields are copied and
    its Language is the registry's answer for the extension. *)
Definition file_row_of (E : Env) (rid : nat) (xf : ExFile) (f : FileRow) : Prop :=
  fl_name f = xf_name xf /\ fl_size f = SizeNum (xf_size xf) /\
  fl_path f = xf_path xf /\ fl_repo f = rid /\
  fl_language f = Language_getByExt E (extension_of (xf_name xf)).

(** The extracted modifications in the order in which the cascade saves
    them: those of the first extracted file, those of the second, and so on,
    then those of no extracted file. A modification is listed once per
    extracted file of its path. *)
Definition saved_modifications (x : Extraction) : list ExModification :=
  flat_map (fun xf => filter (fun m => xm_file m =? xf_path xf) (modifications x))
           (files x)
  ++ orphaned_modifications x.

(** A File row or a Modification row. *)
Definition file_or_modification (r : Row) : Prop :=
  match r with RFile _ | RModification _ => True | _ => False end.

(** The Modification rows among [P] that reference the File row [f], in the
    order of [P]. *)
Definition modifications_of (P : list Row) (f : FileRow) : list ModificationRow :=
  filter (fun m => Nat.eqb (md_file m) (fl_id f)) (modifications_in P).

(** The Modification row [m] records the extracted modification [xm]
    against the File row [f]: it has its type, references [f], and
    references the Commit row among [P] of its commit hash. *)
Definition recorded_against (P : list Row) (f : FileRow) (xm : ExModification)
    (m : ModificationRow) : Prop :=
  md_type m = xm_type xm /\
  md_file m = fl_id f /\
  exists c, In c (commits_in P) /\ cm_id c = md_commit m /\ cm_hash c = xm_commit xm.

(** The File row [f] is the row of the extracted file [xf], and the
    Modification rows among [P] that reference it are, in order, one per
    extracted modification of the path of [xf]. *)
Definition carries_its_modifications (x : Extraction) (P : list Row) (xf : ExFile)
    (f : FileRow) : Prop :=
  fl_name f = xf_name xf /\ fl_path f = xf_path xf /\
  Forall2 (recorded_against P f)
          (filter (fun m => xm_file m =? xf_path xf) (modifications x))
          (modifications_of P f).

(** The File row [f] is the placeholder of the modification [xm] of a
    deleted path, and the one Modification row among [P] that references it
    records [xm]. *)
Definition carries_one_modification (P : list Row) (xm : ExModification)
    (f : FileRow) : Prop :=
  fl_path f = xm_file xm /\ fl_size f = size_sentinel /\
  Forall2 (recorded_against P f) [xm] (modifications_of P f).

(** * The other operations of the services

    [UserService] (services/user.service.js) and the operations of
    [RepositoryService] besides [createRepository] check their input and
    then ask a model for one change. The models are not part of the sources
    at hand: what they answer is a parameter, and what they are asked to
    change is recorded, in order, in a log. *)

Record UserRow := { us_id : nat; us_username : string; us_password : string }.

(** The changes the services ask of the models. *)
Inductive Call :=
| User_delete (id : option nat)
| User_changeUsername (newUsername : string) (id : option nat)
| User_changePassword (encryptedPassword : string) (id : option nat)
| User_changeDescription (newDescription : string) (id : option nat)
| User_followUser (id : option nat) (username : string)
| User_unfollowUser (id : option nat) (username : string)
| Repository_upload (repoName : string) (id : option nat)
| Repository_deleteCloud (repoName : string) (id : option nat)
| Repository_deleteDb (repoName : string) (id : option nat)
| Repository_like (userId : nat) (repoName : string) (ownerId : nat)
| Repository_removeLike (repoName : string) (ownerId : nat) (userId : nat)
| Repository_changeName (newRepoName repoName : string) (id : option nat)
| Repository_changeDescription (newDescription repoName : string) (id : option nat)
| Repository_removeTemp (repoName : string)
| Repository_deleteZip (fileName : string).

Inductive JsError :=
| JsTypeError (reading : string)     (* property read on [undefined] *)
| JsReferenceError (name : string)   (* identifier bound nowhere in the module *)
| CallError (c : Call).              (* the model failed to make the change *)

Inductive Out (A : Type) :=
| Returned (a : A) (log : list Call)
| Raised (e : JsError) (log : list Call).
Arguments Returned {A} a log.
Arguments Raised {A} e log.

Definition Svc (A : Type) := list Call -> Out A.

Definition sret {A} (a : A) : Svc A := fun log => Returned a log.
Definition sraise {A} (e : JsError) : Svc A := fun log => Raised e log.
Definition sbind {A B} (m : Svc A) (k : A -> Svc B) : Svc B :=
  fun log => match m log with
             | Returned a log' => k a log'
             | Raised e log' => Raised e log'
             end.

Declare Scope svc_scope.
Delimit Scope svc_scope with svc.
Notation "x <- m ;; k" := (sbind m (fun x => k))
  (at level 100, m at next level, right associativity) : svc_scope.
Notation "m ;;; k" := (sbind m (fun _ => k))
  (at level 100, right associativity) : svc_scope.

(** The result object of a service: [{ success, error: { message, type },
    data }]. *)
Record Reply (D : Type) := {
  rs_success : bool;
  rs_error : option (string * ErrorType);
  rs_data : option D
}.
Arguments rs_success {D} _.
Arguments rs_error {D} _.
Arguments rs_data {D} _.

Definition failure {D} (message : string) (type : ErrorType) : Reply D :=
  {| rs_success := false; rs_error := Some (message, type); rs_data := None |}.

Definition done {D} (d : option D) : Reply D :=
  {| rs_success := true; rs_error := None; rs_data := d |}.

(** What the validators and the models answer, and which changes fail. *)
Record World := {
  w_env : Env;
  w_store : Store;
  User_validateUsername : string -> Validation;
  User_validatePassword : string -> Validation;
  User_validateDescription : string -> Validation;
  User_checkIfExistsById : option nat -> bool;
  User_checkIfExistsByUsername : string -> bool;
  User_getById : option nat -> option UserRow;
  User_getByUsername : string -> option UserRow;
  User_checkIfFollow : option nat -> string -> bool;
  User_search : string -> list UserRow;
  Auth_comparePassword : string -> string -> bool;
  Auth_encryptPassword : string -> string;
  Repository_checkIfExistsInDb : string -> bool;
  Repository_checkIfLike : string -> string -> nat -> bool;
  Repository_search : string -> list string;
  Repository_getFromUser : string -> list string;
  call_fails : Call -> bool
}.

(** [await Model.change(...)]. *)
Definition perform (W : World) (c : Call) : Svc unit :=
  fun log => if call_fails W c then Raised (CallError c) log
             else Returned tt (log ++ [c]).

(** [v.prop] where [v] may be [undefined]. *)
Definition dot {T A} (get : T -> A) (prop : string) (v : option T) : Svc A :=
  match v with
  | Some x => sret (get x)
  | None => sraise (JsTypeError prop)
  end.

(** [validation.error], once known to be truthy. *)
Definition error_of (v : Validation) : string :=
  match v_error v with Some e => e | None => "" end.

(** [user.id == validation.data]. *)
Definition loose_eq_id (id : nat) (d : option nat) : bool :=
  match d with Some n => Nat.eqb id n | None => false end.

(** ** [UserService]

    The module imports [BAD_REQUEST] and [NOT_FOUND] only: [FORBIDDEN] is
    bound nowhere in it, so evaluating the result object that names it
    throws. *)

Definition UserService_deleteUser (W : World) (token password : string)
    : Svc (Reply unit) :=
  (let validation :=
     validationHandler [ validateToken (w_env W) token;
                         User_validatePassword W password ] in
   if Js.truthy (v_error validation) then
     sret (failure (error_of validation) BAD_REQUEST)
   else if negb (User_checkIfExistsById W (v_data validation)) then
     sret (failure "Usuario no existe!" NOT_FOUND)
   else
     storedPassword <- dot us_password "password" (User_getById W (v_data validation)) ;;
     if negb (Auth_comparePassword W password storedPassword) then
       sraise (JsReferenceError "FORBIDDEN")
     else
       perform W (User_delete (v_data validation)) ;;;
       sret (done None))%svc.

Definition UserService_changeUsername (W : World) (newUsername token password : string)
    : Svc (Reply unit) :=
  (let validation :=
     validationHandler [ validateToken (w_env W) token;
                         User_validateUsername W newUsername;
                         User_validatePassword W password ] in
   if Js.truthy (v_error validation) then
     sret (failure (error_of validation) BAD_REQUEST)
   else if negb (User_checkIfExistsById W (v_data validation)) then
     sret (failure "Usuario no existe!" NOT_FOUND)
   else
     userPassword <- dot us_password "password" (User_getById W (v_data validation)) ;;
     if negb (Auth_comparePassword W password userPassword) then
       sraise (JsReferenceError "FORBIDDEN")
     else
       perform W (User_changeUsername newUsername (v_data validation)) ;;;
       sret (done None))%svc.

Definition UserService_changePassword (W : World) (newPassword token password : string)
    : Svc (Reply unit) :=
  (let validation :=
     validationHandler [ validateToken (w_env W) token;
                         User_validatePassword W newPassword;
                         User_validatePassword W password ] in
   if Js.truthy (v_error validation) then
     sret (failure (error_of validation) BAD_REQUEST)
   else if negb (User_checkIfExistsById W (v_data validation)) then
     sret (failure "Usuario no existe!" NOT_FOUND)
   else
     userPassword <- dot us_password "password" (User_getById W (v_data validation)) ;;
     if negb (Auth_comparePassword W password userPassword) then
       sraise (JsReferenceError "FORBIDDEN")
     else
       let encryptedPassword := Auth_encryptPassword W newPassword in
       perform W (User_changePassword encryptedPassword (v_data validation)) ;;;
       sret (done None))%svc.

Definition UserService_changeDescription (W : World) (newDescription token : string)
    : Svc (Reply unit) :=
  (let validation :=
     validationHandler [ validateToken (w_env W) token;
                         User_validateDescription W newDescription ] in
   if Js.truthy (v_error validation) then
     sret (failure (error_of validation) BAD_REQUEST)
   else if negb (User_checkIfExistsById W (v_data validation)) then
     sret (failure "Usuario no existe!" NOT_FOUND)
   else
     perform W (User_changeDescription newDescription (v_data validation)) ;;;
     sret (done None))%svc.

Definition UserService_followUser (W : World) (username token : string)
    : Svc (Reply unit) :=
  (let validation := validationHandler [ validateToken (w_env W) token ] in
   if Js.truthy (v_error validation) then
     sret (failure (error_of validation) BAD_REQUEST)
   else if negb (User_checkIfExistsById W (v_data validation)) then
     sret (failure "Usuario no existe!" NOT_FOUND)
   else if negb (User_checkIfExistsByUsername W username) then
     sret (failure "Seguidor no existe!" NOT_FOUND)
   else
     userId <- dot us_id "id" (User_getByUsername W username) ;;
     if loose_eq_id userId (v_data validation) then
       sret (failure "Usuario no se puede seguir a si mismo!" BAD_REQUEST)
     else if User_checkIfFollow W (v_data validation) username then
       sret (failure "Usuario ya seguido!" BAD_REQUEST)
     else
       perform W (User_followUser (v_data validation) username) ;;;
       sret (done None))%svc.

Definition UserService_search (W : World) (username : string)
    : Svc (Reply (list UserRow)) :=
  let users := User_search W username in
  if Nat.eqb (List.length users) 0 then
    sret (failure "Usuarios no encontrados!" NOT_FOUND)
  else sret (done (Some users)).

Definition UserService_unfollow (W : World) (username token : string)
    : Svc (Reply unit) :=
  (let validation :=
     validationHandler [ User_validateUsername W username;
                         validateToken (w_env W) token ] in
   if Js.truthy (v_error validation) then
     sret (failure (error_of validation) BAD_REQUEST)
   else if negb (User_checkIfExistsByUsername W username) then
     sret (failure "Usuario no existe!" NOT_FOUND)
   else if negb (User_checkIfFollow W (v_data validation) username) then
     sret (failure "Usuario no lo sigue!" BAD_REQUEST)
   else
     perform W (User_unfollowUser (v_data validation) username) ;;;
     sret (done None))%svc.

(** ** [RepositoryService], besides [createRepository] *)

Definition RepositoryService_uploadRepository (W : World) (repoName token : string)
    : Svc (Reply unit) :=
  (let validation :=
     validationHandler [ validateRepoName (w_env W) repoName;
                         validateToken (w_env W) token ] in
   if Js.truthy (v_error validation) then
     sret (failure (error_of validation) BAD_REQUEST)
   else if negb (checkIfExistsInBackend (w_env W) repoName) then
     sret (failure "Repositorio no existe en el servidor!" NOT_FOUND)
   else
     perform W (Repository_upload repoName (v_data validation)) ;;;
     sret (done None))%svc.

Definition RepositoryService_delete (W : World) (repoName token password : string)
    : Svc (Reply unit) :=
  (let validation :=
     validationHandler [ validateRepoName (w_env W) repoName;
                         validateToken (w_env W) token;
                         User_validatePassword W password ] in
   if Js.truthy (v_error validation) then
     sret (failure (error_of validation) BAD_REQUEST)
   else
     userPassword <- dot us_password "password" (User_getById W (v_data validation)) ;;
     if negb (Auth_comparePassword W password userPassword) then
       sret (failure "Contraseña invalida!" FORBIDDEN)
     else
       perform W (Repository_deleteCloud repoName (v_data validation)) ;;;
       perform W (Repository_deleteDb repoName (v_data validation)) ;;;
       sret (done None))%svc.

Definition RepositoryService_like (W : World) (username repoName userOwnerName : string)
    : Svc (Reply unit) :=
  (let validation :=
     validationHandler [ validateRepoName (w_env W) repoName;
                         User_validateUsername W username;
                         User_validateUsername W userOwnerName ] in
   if Js.truthy (v_error validation) then
     sret (failure (error_of validation) BAD_REQUEST)
   else if negb (Repository_checkIfExistsInDb W repoName) then
     sret (failure "Repositorio no existe en la base de datos!" NOT_FOUND)
   else if negb (User_checkIfExistsByUsername W username) then
     sret (failure "Usuario no existe!" NOT_FOUND)
   else if negb (User_checkIfExistsByUsername W userOwnerName) then
     sret (failure "Usuario dueño del repositorio no existe!" NOT_FOUND)
   else
     ownerId <- dot us_id "id" (User_getByUsername W userOwnerName) ;;
     if negb (checkIfUserHasRepo (w_store W) repoName (Some ownerId)) then
       sret (failure "Usuario dueño no tiene el repositorio!" FORBIDDEN)
     else if Repository_checkIfLike W username repoName ownerId then
       sret (failure "Usuario ya dió like al repositorio!" BAD_REQUEST)
     else
       userId <- dot us_id "id" (User_getByUsername W username) ;;
       perform W (Repository_like userId repoName ownerId) ;;;
       sret (done None))%svc.

Definition RepositoryService_search (W : World) (repoName : string)
    : Svc (Reply (list string)) :=
  let validation := validationHandler [ validateRepoName (w_env W) repoName ] in
  if Js.truthy (v_error validation) then
    sret (failure (error_of validation) BAD_REQUEST)
  else
    let repos := Repository_search W repoName in
    if Nat.eqb (List.length repos) 0 then
      sret (failure "No hay repositorios que coincidan con la búsqueda!" NOT_FOUND)
    else sret (done (Some repos)).

Definition RepositoryService_changeName (W : World)
    (newRepoName repoName token : string) : Svc (Reply unit) :=
  (let validation :=
     validationHandler [ validateRepoName (w_env W) newRepoName;
                         validateRepoName (w_env W) repoName;
                         validateToken (w_env W) token ] in
   if Js.truthy (v_error validation) then
     sret (failure (error_of validation) BAD_REQUEST)
   else if negb (Repository_checkIfExistsInDb W repoName) then
     sret (failure "Repositorio no existe en la base de datos!" NOT_FOUND)
   else if negb (User_checkIfExistsById W (v_data validation)) then
     sret (failure "Usuario no existe!" NOT_FOUND)
   else if negb (checkIfUserHasRepo (w_store W) repoName (v_data validation)) then
     sret (failure "Usuario no tiene el repositorio!" FORBIDDEN)
   else
     perform W (Repository_changeName newRepoName repoName (v_data validation)) ;;;
     sret (done None))%svc.

Definition RepositoryService_changeDescription (W : World)
    (newDescription repoName token : string) : Svc (Reply unit) :=
  (let validation :=
     validationHandler [ validateDescription (w_env W) newDescription;
                         validateRepoName (w_env W) repoName;
                         validateToken (w_env W) token ] in
   if Js.truthy (v_error validation) then
     sret (failure (error_of validation) BAD_REQUEST)
   else if negb (Repository_checkIfExistsInDb W repoName) then
     sret (failure "Repositorio no existe en la base de datos!" NOT_FOUND)
   else if negb (User_checkIfExistsById W (v_data validation)) then
     sret (failure "Usuario no existe!" NOT_FOUND)
   else if negb (checkIfUserHasRepo (w_store W) repoName (v_data validation)) then
     sret (failure "Usuario no tiene el repositorio!" FORBIDDEN)
   else
     perform W (Repository_changeDescription newDescription repoName
                  (v_data validation)) ;;;
     sret (done None))%svc.

Definition RepositoryService_getFromUser (W : World) (username : string)
    : Svc (Reply (list string)) :=
  let validation := validationHandler [ User_validateUsername W username ] in
  if Js.truthy (v_error validation) then
    sret (failure (error_of validation) BAD_REQUEST)
  else if negb (User_checkIfExistsByUsername W username) then
    sret (failure "Usuario no existe!" NOT_FOUND)
  else
    let repos := Repository_getFromUser W username in
    if Nat.eqb (List.length repos) 0 then
      sret (failure "Usuario no tiene el repositorios!" NOT_FOUND)
    else sret (done (Some repos)).

Definition RepositoryService_deleteZip (W : World) (fileName : string)
    : Svc (Reply unit) :=
  (perform W (Repository_deleteZip fileName) ;;;
   sret (done None))%svc.

Definition RepositoryService_removeLike (W : World)
    (repoName userOwnerName username : string) : Svc (Reply unit) :=
  (let validation :=
     validationHandler [ validateRepoName (w_env W) repoName;
                         User_validateUsername W userOwnerName;
                         User_validateUsername W username ] in
   if Js.truthy (v_error validation) then
     sret (failure (error_of validation) BAD_REQUEST)
   else if negb (User_checkIfExistsByUsername W username) then
     sret (failure "Usuario no existe!" NOT_FOUND)
   else if negb (User_checkIfExistsByUsername W userOwnerName) then
     sret (failure "Usuario dueño no existe!" NOT_FOUND)
   else if negb (Repository_checkIfExistsInDb W repoName) then
     sret (failure "Repositorio no existe!" NOT_FOUND)
   else
     ownerId <- dot us_id "id" (User_getByUsername W userOwnerName) ;;
     if negb (checkIfUserHasRepo (w_store W) repoName (Some ownerId)) then
       sret (failure "Usuario no tiene el repositorio!" FORBIDDEN)
     else if negb (Repository_checkIfLike W username repoName ownerId) then
       sret (failure "Usuario no ha dado me gusta!" FORBIDDEN)
     else
       userId <- dot us_id "id" (User_getByUsername W username) ;;
       perform W (Repository_removeLike repoName ownerId userId) ;;;
       sret (done None))%svc.

Definition RepositoryService_removeTemp (W : World) (repoName : string)
    : Svc (Reply unit) :=
  (if negb (checkIfExistsInBackend (w_env W) repoName) then
     sret (failure "Repositorio no existe en el servidor!" NOT_FOUND)
   else
     perform W (Repository_removeTemp repoName) ;;;
     sret (done None))%svc.

Definition RepositoryService_deleteDb (W : World) (repoName token : string)
    : Svc (Reply unit) :=
  (let validation := validateToken (w_env W) token in
   if Js.truthy (v_error validation) then
     sret (failure (error_of validation) BAD_REQUEST)
   else
     perform W (Repository_deleteDb repoName (v_data validation)) ;;;
     sret (done None))%svc.

(** ** [AuthController] (controllers/auth.controller.js) *)

(** What [AuthService] answers: the flags the controllers read. *)
Record AuthReply := {
  validationError : option string;
  validationField : option string;
  userExists : bool;
  userNotExists : bool;
  passwordNotMatch : bool;
  isUnauthorized : bool;
  ar_user : option string;
  ar_token : option string
}.

(** [await AuthService.f(...)] inside [try]: an answer, or a thrown error. *)
Inductive ServiceOutcome := Answers (r : AuthReply) | Throws.

(** The data of an OK response: the whole answer of the service, or its
    user and token. *)
Inductive OkData :=
| WholeAnswer (r : AuthReply)
| UserAndToken (user token : option string).

(** What is sent for a request. *)
Inductive Response :=
| ok (message : string) (data : OkData)
| badRequest (message : option string) (field : option string)
| unauthorized (message : string) (field : option string)
| internalServer.

(** A handler sends a response or faults. *)
Inductive Handled := Sends (r : Response) | Faults (e : JsError).

Definition AuthController_signup (username password : string)
    (userRegistered : ServiceOutcome) : Handled :=
  match userRegistered with
  | Throws => Sends internalServer
  | Answers userRegistered =>
      if Js.truthy (validationError userRegistered) then
        Sends (badRequest (validationError userRegistered)
                          (validationField userRegistered))
      else if userExists userRegistered then
        Sends (badRequest (Some "User already Exists!") (Some username))
      else
        Sends (ok "User Registered!" (WholeAnswer userRegistered))
  end.

Definition AuthController_signin (username password : string)
    (userAuthenticated : ServiceOutcome) : Handled :=
  match userAuthenticated with
  | Throws => Sends internalServer
  | Answers userAuthenticated =>
      if Js.truthy (validationError userAuthenticated) then
        Sends (badRequest (validationError userAuthenticated)
                          (validationField userAuthenticated))
      else if userNotExists userAuthenticated then
        Sends (badRequest (Some "User doesn't Exists!") (Some username))
      else if passwordNotMatch userAuthenticated then
        Sends (unauthorized "Password Incorrect!" (Some password))
      else
        Sends (ok "User Authenticated!"
                  (UserAndToken (ar_user userAuthenticated)
                                (ar_token userAuthenticated)))
  end.

(** In [signinWithToken] the answer is bound to [user]; the success branch
    reads [userAuthenticated], which is bound nowhere in the module. *)
Definition AuthController_signinWithToken (token : string)
    (user : ServiceOutcome) : Handled :=
  match user with
  | Throws => Sends internalServer
  | Answers user =>
      if Js.truthy (validationError user) then
        Sends (badRequest (validationError user) (validationField user))
      else if isUnauthorized user then
        Sends (unauthorized "User Unauthorized!" (Some token))
      else
        Faults (JsReferenceError "userAuthenticated")
  end.

(** ** Notions used by the properties of the other operations *)

(** [run] asks for a change only when it returns success: then it has asked
    for exactly one change, which is in [P]; when it returns an error or
    throws, it has asked for none. *)
Definition acts_only_on_success {D} (P : Call -> Prop) (run : Svc (Reply D)) : Prop :=
  forall log,
    match run log with
    | Returned r log' =>
        (rs_success r = true /\ exists c, P c /\ log' = log ++ [c]) \/
        (rs_success r = false /\ log' = log)
    | Raised _ log' => log' = log
    end.

(** [run] never returns an error of the FORBIDDEN class. *)
Definition never_forbidden {D} (run : Svc (Reply D)) : Prop :=
  forall log r log' msg,
    run log = Returned r log' -> rs_error r <> Some (msg, FORBIDDEN).

(** When [validation] passes, its actor exists and the given password does
    not match the actor's stored password, [run] throws the ReferenceError
    of the unbound [FORBIDDEN] and has asked for no change. *)
Definition throws_on_mismatch (W : World) (password : string) (validation : Validation)
    {D} (run : Svc (Reply D)) : Prop :=
  Js.truthy (v_error validation) = false ->
  User_checkIfExistsById W (v_data validation) = true ->
  forall stored,
    User_getById W (v_data validation) = Some stored ->
    Auth_comparePassword W password (us_password stored) = false ->
    forall log, run log = Raised (JsReferenceError "FORBIDDEN") log.

(** [run] only reads: it asks for no change, never throws, and a success
    carries a non-empty list. *)
Definition finds_or_fails {A} (found : list A) (run : Svc (Reply (list A))) : Prop :=
  forall log,
    exists r, run log = Returned r log /\
              (rs_success r = true -> rs_data r = Some found /\ found <> []) /\
              (rs_success r = false -> rs_data r = None).

(** [W] with other repositories: another store behind the ownership check
    and another answer to [Repository.checkIfExistsInDb]. *)
Definition with_repositories (W : World) (s : Store) (inDb : string -> bool) : World :=
  {| w_env := w_env W;
     w_store := s;
     User_validateUsername := User_validateUsername W;
     User_validatePassword := User_validatePassword W;
     User_validateDescription := User_validateDescription W;
     User_checkIfExistsById := User_checkIfExistsById W;
     User_checkIfExistsByUsername := User_checkIfExistsByUsername W;
     User_getById := User_getById W;
     User_getByUsername := User_getByUsername W;
     User_checkIfFollow := User_checkIfFollow W;
     User_search := User_search W;
     Auth_comparePassword := Auth_comparePassword W;
     Auth_encryptPassword := Auth_encryptPassword W;
     Repository_checkIfExistsInDb := inDb;
     Repository_checkIfLike := Repository_checkIfLike W;
     Repository_search := Repository_search W;
     Repository_getFromUser := Repository_getFromUser W;
     call_fails := call_fails W |}.

(** The validators of names, descriptions and languages resolve no actor:
    only the token does. *)
Definition only_token_resolves (E : Env) : Prop :=
  (forall n, v_data (validateRepoName E n) = None) /\
  (forall d, v_data (validateDescription E d) = None) /\
  (forall l, v_data (validateLanguages E l) = None).

(** A world for the examples: user 7, "ana", whose stored password is
    "hash", owns "demo"; user 8 is "bob"; "secret" matches "hash". *)
Module DemoWorld.
Definition ana : UserRow := {| us_id := 7; us_username := "ana"; us_password := "hash" |}.
Definition bob : UserRow := {| us_id := 8; us_username := "bob"; us_password := "hash2" |}.

Definition world (liked follows : bool) (failing : Call -> bool) : World :=
  {| w_env := Demo.env;
     w_store := Demo.owned;
     User_validateUsername := fun _ => Demo.valid None;
     User_validatePassword := fun _ => Demo.valid None;
     User_validateDescription := fun _ => Demo.valid None;
     User_checkIfExistsById := fun d => match d with Some 7 => true | _ => false end;
     User_checkIfExistsByUsername := fun n => (n =? "ana") || (n =? "bob");
     User_getById := fun d => match d with Some 7 => Some ana | _ => None end;
     User_getByUsername :=
       fun n => if n =? "ana" then Some ana else if n =? "bob" then Some bob else None;
     User_checkIfFollow := fun _ _ => follows;
     User_search := fun n => if n =? "ana" then [ana] else [];
     Auth_comparePassword := fun p h => (p =? "secret") && (h =? "hash");
     Auth_encryptPassword := fun p => ("enc:" ++ p)%string;
     Repository_checkIfExistsInDb := fun n => n =? "demo";
     Repository_checkIfLike := fun _ _ _ => liked;
     Repository_search := fun n => if n =? "demo" then ["demo"] else [];
     Repository_getFromUser := fun n => if n =? "ana" then ["demo"] else [];
     call_fails := failing |}.

Definition never (c : Call) : bool := false.
Definition db_fails (c : Call) : bool :=
  match c with Repository_deleteDb _ _ => true | _ => false end.

(** An answer of the authentication service with no failure flag. *)
Definition accepted : AuthReply :=
  {| validationError := None; validationField := None; userExists := false;
     userNotExists := false; passwordNotMatch := false; isUnauthorized := false;
     ar_user := Some "ana"; ar_token := Some "jwt" |}.

(** The world after the import of the demo repository. *)
Definition after_import : World :=
  with_repositories (world false false never) Outcome.final
                    (fun n => n =? "demo").
End DemoWorld.

(** * Proofs *)

(** ** The monad *)

Lemma bind_Done {A B} (m : M A) (k : A -> M B) s b s' :
  bind m k s = Done b s' ->
  exists a s1, m s = Done a s1 /\ k a s1 = Done b s'.
Proof.
  unfold bind. destruct (m s) as [a s1 | e s1]; [eauto | discriminate].
Qed.

Lemma for_of_cons {X A} (v : X) (l : list X) (body : X -> A -> M A) (acc : A) :
  for_of (v :: l) body acc = bind (body v acc) (for_of l body).
Proof. reflexivity. Qed.

Lemma wrote_nil s : wrote s s [].
Proof.
  unfold wrote; simpl. rewrite app_nil_r, Nat.add_0_r. auto.
Qed.

Lemma wrote_app s s1 s2 d1 d2 :
  wrote s s1 d1 -> wrote s1 s2 d2 -> wrote s s2 (d1 ++ d2).
Proof.
  intros (R1 & N1 & I1) (R2 & N2 & I2). unfold wrote.
  rewrite R2, R1, N2, N1, length_app, map_app, seq_app, I1, I2, N1.
  rewrite <- app_assoc. repeat split; auto. lia.
Qed.

Lemma insert_Done {T} E (inj : T -> Row) (mk : nat -> T) s r s' :
  (forall n, row_id (inj (mk n)) = n) ->
  insert E inj mk s = Done r s' ->
  r = mk (next_id s) /\ wrote s s' [inj r] /\ rejects E s (inj r) = false.
Proof.
  intros Hid. unfold insert.
  destruct (rejects E s (inj (mk (next_id s)))) eqn:Hr; [discriminate|].
  intros [= <- <-]. unfold wrote; simpl.
  rewrite Hid, Nat.add_1_r. auto.
Qed.

Lemma dot_id_Done {T} (get : T -> nat) (v : option T) s n s' :
  dot_id get v s = Done n s' -> s' = s /\ exists a, v = Some a /\ n = get a.
Proof.
  destruct v as [a|]; simpl; [|discriminate].
  intros [= <- <-]. eauto.
Qed.

(** Inversion of a completed run, one statement at a time. *)
Ltac inv_run :=
  repeat match goal with
    | H : bind _ _ _ = Done _ _ |- _ =>
        let a := fresh "a" in
        let s1 := fresh "s" in
        let H1 := fresh "Hrun" in
        apply bind_Done in H; destruct H as (a & s1 & H1 & H)
    | H : for_of nil _ _ _ = Done _ _ |- _ => cbn [for_of] in H
    | H : ret _ _ = Done _ _ |- _ => unfold ret in H; inversion H; subst; clear H
    | H : dot_id _ _ _ = Done _ _ |- _ =>
        let a := fresh "found" in
        let Hf := fresh "Hfind" in
        apply dot_id_Done in H; destruct H as (-> & a & Hf & ->)
    | H : insert _ _ _ _ = Done _ _ |- _ =>
        let W := fresh "W" in
        apply insert_Done in H; [destruct H as (-> & W & _) | reflexivity]
    end.

(** Chains the [wrote] facts at hand. *)
Ltac solve_wrote :=
  first
    [ eassumption
    | exact (wrote_nil _)
    | match goal with
      | W : wrote ?s ?s1 ?d |- wrote ?s _ _ =>
          apply (wrote_app s s1 _ d _ W); solve_wrote
      end ].

(** ** What each loop of a completed cascade has written *)

Section Loops.
Variable E : Env.
Variable x : Extraction.
Variable repoSaved : RepositoryRow.
Let rid := rp_id repoSaved.

Lemma save_languages_Done ls u s u' s' :
  for_of ls (save_language E repoSaved) u s = Done u' s' ->
  exists rs, wrote s s' (map RRepository_Language rs) /\
             Forall2 (language_rel rid) ls rs.
Proof.
  revert u s. induction ls as [|l ls IH]; intros u s H.
  - inv_run. exists []. split; [solve_wrote | constructor].
  - rewrite for_of_cons in H.
    unfold save_language at 1, Repository_Language_save in H. inv_run.
    apply IH in H. destruct H as (rs & W' & F).
    eexists (_ :: rs). split; [simpl; solve_wrote|].
    constructor; [split; reflexivity | exact F].
Qed.

Lemma save_contributors_Done cs acc s acc' s' :
  for_of cs (save_contributor E repoSaved) acc s = Done acc' s' ->
  exists rs, acc' = acc ++ rs /\ wrote s s' (map RContributor rs) /\
             Forall2 (contributor_rel rid) cs rs.
Proof.
  revert acc s. induction cs as [|c cs IH]; intros acc s H.
  - inv_run. exists []. rewrite app_nil_r.
    split; [reflexivity | split; [solve_wrote | constructor]].
  - rewrite for_of_cons in H.
    unfold save_contributor at 1, Contributor_save in H. inv_run.
    apply IH in H. destruct H as (rs & -> & W' & F).
    eexists (_ :: rs). rewrite <- app_assoc.
    split; [reflexivity | split; [simpl; solve_wrote |]].
    constructor; [split; reflexivity | exact F].
Qed.

Lemma save_branches_Done bs acc s acc' s' :
  for_of bs (save_branch E repoSaved) acc s = Done acc' s' ->
  exists rs, acc' = acc ++ rs /\ wrote s s' (map RBranch rs) /\
             Forall2 (branch_rel rid) bs rs.
Proof.
  revert acc s. induction bs as [|b bs IH]; intros acc s H.
  - inv_run. exists []. rewrite app_nil_r.
    split; [reflexivity | split; [solve_wrote | constructor]].
  - rewrite for_of_cons in H.
    unfold save_branch at 1, Branch_save in H. inv_run.
    apply IH in H. destruct H as (rs & -> & W' & F).
    eexists (_ :: rs). rewrite <- app_assoc.
    split; [reflexivity | split; [simpl; solve_wrote |]].
    constructor; [repeat split; reflexivity | exact F].
Qed.

Lemma save_commit_branches_Done commitSaved bs u s u' s' :
  for_of bs (save_commit_branch E commitSaved) u s = Done u' s' ->
  exists rs, wrote s s' (map RCommit_Branch rs) /\
             Forall2 (commit_branch_rel (cm_id commitSaved)) bs rs.
Proof.
  revert u s. induction bs as [|b bs IH]; intros u s H.
  - inv_run. exists []. split; [solve_wrote | constructor].
  - rewrite for_of_cons in H.
    unfold save_commit_branch at 1, Commit_Branch_save in H. inv_run.
    apply IH in H. destruct H as (rs & W' & F).
    eexists (_ :: rs). split; [simpl; solve_wrote|].
    constructor; [split; reflexivity | exact F].
Qed.

Lemma save_commits_Done contributorsSaved branchesSaved cs acc s acc' s' :
  for_of cs (save_commit E repoSaved contributorsSaved branchesSaved) acc s
    = Done acc' s' ->
  exists ps, acc' = acc ++ map fst ps /\ wrote s s' (flat_map commit_rows ps) /\
             Forall2 (commit_rel rid contributorsSaved branchesSaved) cs ps.
Proof.
  revert acc s. induction cs as [|c cs IH]; intros acc s H.
  - inv_run. exists []. rewrite app_nil_r.
    split; [reflexivity | split; [solve_wrote | constructor]].
  - rewrite for_of_cons in H.
    unfold save_commit at 1, Commit_save in H. cbv zeta in H. inv_run.
    match goal with
    | Hb : for_of (filter _ _) _ _ _ = Done _ _ |- _ =>
        apply save_commit_branches_Done in Hb; destruct Hb as (cbs & Wb & Fb)
    end.
    apply IH in H. destruct H as (ps & -> & W' & F).
    eexists ((_, cbs) :: ps). rewrite <- app_assoc.
    split; [reflexivity | split].
    + simpl. unfold commit_rows at 1. simpl. solve_wrote.
    + constructor; [|exact F].
      unfold commit_rel; simpl. repeat split; eauto.
Qed.

Lemma save_modifications_Done commitsSaved fileSaved ms acc s acc' s' :
  for_of ms (save_modification E commitsSaved fileSaved) acc s = Done acc' s' ->
  exists rs, acc' = acc ++ rs /\ wrote s s' (map RModification rs) /\
             Forall2 (modification_rel commitsSaved (fl_id fileSaved)) ms rs.
Proof.
  revert acc s. induction ms as [|m ms IH]; intros acc s H.
  - inv_run. exists []. rewrite app_nil_r.
    split; [reflexivity | split; [solve_wrote | constructor]].
  - rewrite for_of_cons in H.
    unfold save_modification at 1, Modification_save in H. inv_run.
    apply IH in H. destruct H as (rs & -> & W' & F).
    eexists (_ :: rs). rewrite <- app_assoc.
    split; [reflexivity | split; [simpl; solve_wrote |]].
    constructor; [|exact F].
    unfold modification_rel; simpl. repeat split; eauto.
Qed.

Lemma save_files_Done commitsSaved fs acc s acc' s' :
  for_of fs (save_file E x repoSaved commitsSaved) acc s = Done acc' s' ->
  exists ps, fst acc' = fst acc ++ map fst ps /\
             snd acc' = snd acc ++ flat_map snd ps /\
             wrote s s' (flat_map file_rows ps) /\
             Forall2 (file_rel E x rid commitsSaved) fs ps.
Proof.
  revert acc s. induction fs as [|f fs IH]; intros [fsv msv] s H.
  - inv_run. exists []. simpl. rewrite !app_nil_r.
    split; [reflexivity | split; [reflexivity | split; [solve_wrote | constructor]]].
  - rewrite for_of_cons in H.
    unfold save_file at 1, File_save in H. cbv zeta in H. inv_run.
    match goal with
    | Hb : for_of (filter _ _) _ _ _ = Done _ _ |- _ =>
        apply save_modifications_Done in Hb; destruct Hb as (rs & -> & Wm & Fm)
    end.
    apply IH in H. destruct H as (ps & Hf & Hm & W' & F). simpl in Hf, Hm.
    eexists ((_, rs) :: ps). simpl. rewrite Hf, Hm, <- !app_assoc.
    split; [reflexivity | split; [reflexivity | split]].
    + unfold file_rows at 1. simpl. solve_wrote.
    + constructor; [|exact F].
      unfold file_rel; simpl. repeat split; eauto.
Qed.

Lemma save_deleted_files_Done commitsSaved ms acc s acc' s' :
  for_of ms (save_deleted_file E repoSaved commitsSaved) acc s = Done acc' s' ->
  exists ps, acc' = acc ++ map snd ps /\
             wrote s s' (flat_map deleted_rows ps) /\
             Forall2 (deleted_rel rid commitsSaved) ms ps.
Proof.
  revert acc s. induction ms as [|m ms IH]; intros acc s H.
  - inv_run. exists []. rewrite app_nil_r.
    split; [reflexivity | split; [solve_wrote | constructor]].
  - rewrite for_of_cons in H.
    unfold save_deleted_file at 1, File_save, Modification_save in H.
    cbv zeta in H. inv_run.
    apply IH in H. destruct H as (ps & -> & W' & F).
    eexists ((_, _) :: ps). rewrite <- app_assoc.
    split; [reflexivity | split].
    + simpl. solve_wrote.
    + constructor; [|exact F].
      unfold deleted_rel, modification_rel; simpl. repeat split; eauto.
Qed.
End Loops.

(** A completed cascade returns the success value and has written the rows of
    a trace that follows the extraction. *)
Lemma cascade_Done E name description languages user x s0 r s' :
  cascade E name description languages user x s0 = Done r s' ->
  r = ok_result /\
  exists t, wrote s0 s' (trace_rows t) /\
            trace_ok E name description languages user x (next_id s0) t.
Proof.
  intros H. unfold cascade, Repository_save in H. inv_run.
  match goal with
  | H1 : for_of languages _ _ _ = Done _ _ |- _ =>
      apply save_languages_Done in H1; destruct H1 as (ls & Wl & Fl)
  end.
  match goal with
  | H1 : for_of (contributors x) _ _ _ = Done _ _ |- _ =>
      apply save_contributors_Done in H1; destruct H1 as (cs & -> & Wc & Fc)
  end.
  match goal with
  | H1 : for_of (branches x) _ _ _ = Done _ _ |- _ =>
      apply save_branches_Done in H1; destruct H1 as (bs & -> & Wb & Fb)
  end.
  match goal with
  | H1 : for_of (commits x) _ _ _ = Done _ _ |- _ =>
      apply save_commits_Done in H1; destruct H1 as (cms & -> & Wm & Fm)
  end.
  match goal with
  | H1 : for_of (files x) _ _ _ = Done ?a _ |- _ =>
      apply save_files_Done in H1; destruct a as [fsv msv];
      destruct H1 as (fls & Hf & _ & Wf & Ff); simpl in Hf; subst fsv
  end.
  inv_run.
  match goal with
  | H1 : for_of (deletedFilesModifications _ _) _ _ _ = Done _ _ |- _ =>
      apply save_deleted_files_Done in H1; destruct H1 as (dls & _ & Wd & Fd)
  end.
  split; [reflexivity|].
  exists {| t_repo := {| rp_id := next_id s0; rp_name := name;
                         rp_description := description; rp_user_owner := user |};
            t_languages := ls; t_contributors := cs; t_branches := bs;
            t_commits := cms; t_files := fls; t_deleted := dls |}.
  split.
  - unfold trace_rows; simpl. solve_wrote.
  - unfold trace_ok; simpl in *. repeat split; assumption.
Qed.

(** ** Lists *)

Lemma flat_map_map_nil {A B C} (f : B -> list C) (g : A -> B) (l : list A) :
  (forall a, f (g a) = []) -> flat_map f (map g l) = [].
Proof.
  intros Hf. induction l as [|a l IH]; simpl; [reflexivity|].
  rewrite Hf, IH. reflexivity.
Qed.

Lemma flat_map_map_one {A B C} (f : B -> list C) (g : A -> B) (h : A -> C)
    (l : list A) :
  (forall a, f (g a) = [h a]) -> flat_map f (map g l) = map h l.
Proof.
  intros Hf. induction l as [|a l IH]; simpl; [reflexivity|].
  rewrite Hf, IH. reflexivity.
Qed.

Lemma flat_map_flat_map {A B C} (f : B -> list C) (g : A -> list B) (l : list A) :
  flat_map f (flat_map g l) = flat_map (fun a => flat_map f (g a)) l.
Proof.
  induction l as [|a l IH]; simpl; [reflexivity|].
  rewrite flat_map_app, IH. reflexivity.
Qed.

Lemma flat_map_one {A B} (h : A -> B) (l : list A) :
  flat_map (fun a => [h a]) l = map h l.
Proof. induction l as [|a l IH]; simpl; congruence. Qed.

Lemma NoDup_map_In_inj {A B} (g : A -> B) (l : list A) a b :
  NoDup (map g l) -> In a l -> In b l -> g a = g b -> a = b.
Proof.
  induction l as [|v l IH]; simpl; [tauto|].
  intros Hnd [<-|Ha] [<-|Hb] Heq; trivial; inversion_clear Hnd as [|? ? Hn Hnd'].
  - exfalso. apply Hn. rewrite Heq. now apply in_map.
  - exfalso. apply Hn. rewrite <- Heq. now apply in_map.
  - now apply IH.
Qed.

Lemma Forall2_In_l {A B} (R : A -> B -> Prop) l1 l2 a :
  Forall2 R l1 l2 -> In a l1 -> exists b, In b l2 /\ R a b.
Proof.
  induction 1 as [|v w l1 l2 Hr _ IH]; simpl; [tauto|].
  intros [<-|Ha]; [eauto|].
  destruct (IH Ha) as (b & Hb & Hab). eauto.
Qed.

Lemma Forall2_In_r {A B} (R : A -> B -> Prop) l1 l2 b :
  Forall2 R l1 l2 -> In b l2 -> exists a, In a l1 /\ R a b.
Proof.
  induction 1 as [|v w l1 l2 Hr _ IH]; simpl; [tauto|].
  intros [<-|Hb]; [eauto|].
  destruct (IH Hb) as (a & Ha & Hab). eauto.
Qed.

Lemma Forall2_map_r {A B C} (R : A -> C -> Prop) (g : B -> C) l1 l2 :
  Forall2 (fun a b => R a (g b)) l1 l2 -> Forall2 R l1 (map g l2).
Proof. induction 1; simpl; constructor; auto. Qed.

Lemma Forall2_impl_In {A B} (R Q : A -> B -> Prop) l1 l2 :
  (forall a b, In a l1 -> In b l2 -> R a b -> Q a b) ->
  Forall2 R l1 l2 -> Forall2 Q l1 l2.
Proof.
  intros Himp H. induction H as [|a b l1 l2 Hr _ IH]; constructor.
  - apply Himp; simpl; auto.
  - apply IH. intros; apply Himp; simpl; auto.
Qed.

Lemma Forall2_map_eq {A B C} (f : A -> C) (g : B -> C) l1 l2 :
  Forall2 (fun a b => g b = f a) l1 l2 -> map g l2 = map f l1.
Proof. induction 1; simpl; congruence. Qed.

(** ** Tables as projections of the row sequence *)

Lemma in_branches_in l r : In r (branches_in l) <-> In (RBranch r) l.
Proof.
  unfold branches_in. rewrite in_flat_map. split.
  - intros ([] & Hin & Hr); simpl in Hr; try tauto. destruct Hr as [<-|[]]; exact Hin.
  - intros Hin. exists (RBranch r). simpl; auto.
Qed.

Lemma in_commits_in l r : In r (commits_in l) <-> In (RCommit r) l.
Proof.
  unfold commits_in. rewrite in_flat_map. split.
  - intros ([] & Hin & Hr); simpl in Hr; try tauto. destruct Hr as [<-|[]]; exact Hin.
  - intros Hin. exists (RCommit r). simpl; auto.
Qed.

Lemma in_files_in l r : In r (files_in l) <-> In (RFile r) l.
Proof.
  unfold files_in. rewrite in_flat_map. split.
  - intros ([] & Hin & Hr); simpl in Hr; try tauto. destruct Hr as [<-|[]]; exact Hin.
  - intros Hin. exists (RFile r). simpl; auto.
Qed.

Lemma flat_map_flat_map_eq {A B C} (f : B -> list C) (g : A -> list B)
    (h : A -> list C) (l : list A) :
  (forall a, flat_map f (g a) = h a) ->
  flat_map f (flat_map g l) = flat_map h l.
Proof.
  intros Hh. rewrite flat_map_flat_map. apply flat_map_ext. exact Hh.
Qed.

Lemma flat_map_none {A B} (l : list A) : flat_map (fun _ => @nil B) l = [].
Proof. induction l; simpl; auto. Qed.

(** Projects a sequence of rows built with one constructor. *)
Ltac sel_rows :=
  repeat first
    [ rewrite flat_map_app
    | rewrite (flat_map_map_nil _ RRepository) by reflexivity
    | rewrite (flat_map_map_nil _ RRepository_Language) by reflexivity
    | rewrite (flat_map_map_nil _ RContributor) by reflexivity
    | rewrite (flat_map_map_nil _ RBranch) by reflexivity
    | rewrite (flat_map_map_nil _ RCommit) by reflexivity
    | rewrite (flat_map_map_nil _ RCommit_Branch) by reflexivity
    | rewrite (flat_map_map_nil _ RFile) by reflexivity
    | rewrite (flat_map_map_nil _ RModification) by reflexivity
    | rewrite (flat_map_map_one _ RRepository (fun a => a)) by reflexivity
    | rewrite (flat_map_map_one _ RRepository_Language (fun a => a)) by reflexivity
    | rewrite (flat_map_map_one _ RContributor (fun a => a)) by reflexivity
    | rewrite (flat_map_map_one _ RBranch (fun a => a)) by reflexivity
    | rewrite (flat_map_map_one _ RCommit (fun a => a)) by reflexivity
    | rewrite (flat_map_map_one _ RCommit_Branch (fun a => a)) by reflexivity
    | rewrite (flat_map_map_one _ RFile (fun a => a)) by reflexivity
    | rewrite (flat_map_map_one _ RModification (fun a => a)) by reflexivity
    | rewrite map_id
    | rewrite flat_map_none
    | rewrite flat_map_one
    | rewrite app_nil_r ];
  simpl.

(** Projects the rows of the commits, files and deleted files of a trace;
    [hc], [hf] and [hd] give the rows selected from one entry of each. *)
Ltac sel_trace hc hf hd :=
  unfold trace_rows; rewrite !flat_map_app; simpl;
  rewrite (flat_map_flat_map_eq _ commit_rows hc)
    by (intros []; unfold commit_rows; simpl; sel_rows; reflexivity);
  rewrite (flat_map_flat_map_eq _ file_rows hf)
    by (intros []; unfold file_rows; simpl; sel_rows; reflexivity);
  rewrite (flat_map_flat_map_eq _ deleted_rows hd)
    by (intros []; unfold deleted_rows; simpl; sel_rows; reflexivity);
  sel_rows.

Section TraceTables.
Variable t : Trace.

Lemma repositories_in_trace : repositories_in (trace_rows t) = [t_repo t].
Proof.
  unfold repositories_in.
  sel_trace (fun _ : CommitRow * list Commit_BranchRow => @nil RepositoryRow)
            (fun _ : FileRow * list ModificationRow => @nil RepositoryRow)
            (fun _ : FileRow * ModificationRow => @nil RepositoryRow).
  reflexivity.
Qed.

Lemma contributors_in_trace : contributors_in (trace_rows t) = t_contributors t.
Proof.
  unfold contributors_in.
  sel_trace (fun _ : CommitRow * list Commit_BranchRow => @nil ContributorRow)
            (fun _ : FileRow * list ModificationRow => @nil ContributorRow)
            (fun _ : FileRow * ModificationRow => @nil ContributorRow).
  reflexivity.
Qed.

Lemma branches_in_trace : branches_in (trace_rows t) = t_branches t.
Proof.
  unfold branches_in.
  sel_trace (fun _ : CommitRow * list Commit_BranchRow => @nil BranchRow)
            (fun _ : FileRow * list ModificationRow => @nil BranchRow)
            (fun _ : FileRow * ModificationRow => @nil BranchRow).
  reflexivity.
Qed.

Lemma commits_in_trace : commits_in (trace_rows t) = map fst (t_commits t).
Proof.
  unfold commits_in.
  sel_trace (fun p : CommitRow * list Commit_BranchRow => [fst p])
            (fun _ : FileRow * list ModificationRow => @nil CommitRow)
            (fun _ : FileRow * ModificationRow => @nil CommitRow).
  reflexivity.
Qed.

Lemma commit_branches_in_trace :
  commit_branches_in (trace_rows t) = flat_map snd (t_commits t).
Proof.
  unfold commit_branches_in.
  sel_trace (fun p : CommitRow * list Commit_BranchRow => snd p)
            (fun _ : FileRow * list ModificationRow => @nil Commit_BranchRow)
            (fun _ : FileRow * ModificationRow => @nil Commit_BranchRow).
  reflexivity.
Qed.

Lemma files_in_trace :
  files_in (trace_rows t) = map fst (t_files t) ++ map fst (t_deleted t).
Proof.
  unfold files_in.
  sel_trace (fun _ : CommitRow * list Commit_BranchRow => @nil FileRow)
            (fun p : FileRow * list ModificationRow => [fst p])
            (fun p : FileRow * ModificationRow => [fst p]).
  reflexivity.
Qed.

Lemma modifications_in_trace :
  modifications_in (trace_rows t)
  = flat_map snd (t_files t) ++ map snd (t_deleted t).
Proof.
  unfold modifications_in.
  sel_trace (fun _ : CommitRow * list Commit_BranchRow => @nil ModificationRow)
            (fun p : FileRow * list ModificationRow => snd p)
            (fun p : FileRow * ModificationRow => [snd p]).
  reflexivity.
Qed.
End TraceTables.

Lemma repository_languages_in_trace t :
  repository_languages_in (trace_rows t) = t_languages t.
Proof.
  unfold repository_languages_in.
  sel_trace (fun _ : CommitRow * list Commit_BranchRow => @nil Repository_LanguageRow)
            (fun _ : FileRow * list ModificationRow => @nil Repository_LanguageRow)
            (fun _ : FileRow * ModificationRow => @nil Repository_LanguageRow).
  reflexivity.
Qed.

(** ** Identifiers of the rows of one call *)

Lemma wrote_persisted s0 s' d : wrote s0 s' d -> persisted s0 s' = d.
Proof.
  intros (R & _ & _). unfold persisted. rewrite R.
  rewrite skipn_app, skipn_all, Nat.sub_diag. reflexivity.
Qed.

Lemma wrote_NoDup s0 s' d : wrote s0 s' d -> NoDup (map row_id d).
Proof. intros (_ & _ & ->). apply seq_NoDup. Qed.

Lemma NoDup_commit_ids l :
  NoDup (map row_id l) -> NoDup (map cm_id (commits_in l)).
Proof.
  induction l as [|r l IH]; simpl; [constructor|].
  intros Hnd. inversion_clear Hnd as [|? ? Hn Hnd'].
  destruct r; simpl; auto. constructor; auto.
  intros Hin. apply in_map_iff in Hin. destruct Hin as (c & Hid & Hc).
  apply Hn. apply in_commits_in in Hc.
  apply in_map_iff. exists (RCommit c). split; [exact Hid | exact Hc].
Qed.

Lemma NoDup_branch_ids l :
  NoDup (map row_id l) -> NoDup (map br_id (branches_in l)).
Proof.
  induction l as [|r l IH]; simpl; [constructor|].
  intros Hnd. inversion_clear Hnd as [|? ? Hn Hnd'].
  destruct r; simpl; auto. constructor; auto.
  intros Hin. apply in_map_iff in Hin. destruct Hin as (c & Hid & Hc).
  apply Hn. apply in_branches_in in Hc.
  apply in_map_iff. exists (RBranch c). split; [exact Hid | exact Hc].
Qed.

Lemma NoDup_file_ids l :
  NoDup (map row_id l) -> NoDup (map fl_id (files_in l)).
Proof.
  induction l as [|r l IH]; simpl; [constructor|].
  intros Hnd. inversion_clear Hnd as [|? ? Hn Hnd'].
  destruct r; simpl; auto. constructor; auto.
  intros Hin. apply in_map_iff in Hin. destruct Hin as (c & Hid & Hc).
  apply Hn. apply in_files_in in Hc.
  apply in_map_iff. exists (RFile c). split; [exact Hid | exact Hc].
Qed.

(** ** Completed calls *)

Lemma find_none_Forall {A} (p : A -> bool) l :
  find p l = None -> Forall (fun a => p a = false) l.
Proof.
  intros H. apply Forall_forall. intros a Ha. exact (find_none _ _ H a Ha).
Qed.

(** A call that returns the success value has passed every pre-check and has
    written exactly the rows of a trace of its extraction. *)
Lemma createRepository_Done E repoData token s0 res s' :
  createRepository E repoData token s0 = Done res s' ->
  success res = true ->
  prechecks_pass E repoData token s0 /\
  exists t,
    persisted s0 s' = trace_rows t /\
    wrote s0 s' (trace_rows t) /\
    trace_ok E (rd_name repoData) (rd_description repoData) (rd_languages repoData)
             (v_data (validate E repoData token)) (repoInfo E (rd_name repoData))
             (next_id s0) t.
Proof.
  unfold createRepository, prechecks_pass.
  destruct (Js.truthy (v_error (validate E repoData token)));
    [intros [= <- <-]; discriminate|].
  destruct (checkIfExistsInBackend E (rd_name repoData)); simpl;
    [|intros [= <- <-]; discriminate].
  destruct (checkIfUserHasRepo s0 (rd_name repoData) _);
    [intros [= <- <-]; discriminate|].
  destruct (find _ (rd_languages repoData)) as [lang|] eqn:Hfind;
    [intros [= <- <-]; discriminate|].
  intros H _. apply cascade_Done in H. destruct H as (_ & t & W & Hok).
  split.
  - repeat split; trivial.
    apply find_none_Forall in Hfind. revert Hfind. apply Forall_impl.
    intros a Ha. now apply negb_false_iff in Ha.
  - exists t. split; [exact (wrote_persisted _ _ _ W) | split; assumption].
Qed.

Lemma includes_In l n : Js.includes l n = true <-> In n l.
Proof.
  unfold Js.includes. rewrite existsb_exists. split.
  - intros (m & Hm & Heq). apply String.eqb_eq in Heq. now subst.
  - intros Hin. exists n. split; [exact Hin | apply String.eqb_refl].
Qed.

(** ** Commits and branches *)

(** C5: after a successful ingestion, the Commit_Branch rows persisted for
    each extracted commit are exactly one row per created Branch whose name
    is in the commit's declared branch list; so the branch names of these
    rows are the intersection of the declared names with the names of the
    Branches created for the repository. *)
Theorem commit_branch_rows_intersection E repoData token s0 res s' :
  createRepository E repoData token s0 = Done res s' ->
  success res = true ->
  let x := repoInfo E (rd_name repoData) in
  let P := persisted s0 s' in
  map br_name (branches_in P) = map xb_name (branches x) /\
  Forall2 (commit_branches_match P) (commits x) (commits_in P).
Proof.
  intros H Hs x P.
  destruct (createRepository_Done _ _ _ _ _ _ H Hs) as (_ & t & HP & W & Hok).
  subst P. rewrite HP. unfold commit_branches_match, commit_branch_name.
  rewrite branches_in_trace, commits_in_trace, commit_branches_in_trace.
  destruct Hok as (_ & _ & _ & Fb & Fm & _ & _). fold x in Fb, Fm.
  assert (NDc : NoDup (map (fun p => cm_id (fst p)) (t_commits t))).
  { rewrite <- map_map, <- commits_in_trace.
    apply NoDup_commit_ids, (wrote_NoDup _ _ _ W). }
  assert (NDb : NoDup (map br_id (t_branches t))).
  { rewrite <- branches_in_trace. apply NoDup_branch_ids, (wrote_NoDup _ _ _ W). }
  split.
  - apply Forall2_map_eq. revert Fb. apply Forall2_impl. now intros a b (? & _).
  - apply Forall2_map_r. eapply Forall2_impl_In; [|exact Fm].
    intros c p _ Hp (_ & _ & Hhash & _ & _ & _ & Fcb).
    assert (Hrows : forall cb, In cb (flat_map snd (t_commits t)) ->
              cb_commit cb = cm_id (fst p) ->
              exists b, In b (t_branches t) /\ br_id b = cb_branch cb /\
                        In (br_name b) (xc_branches c)).
    { intros cb Hcb Hid. apply in_flat_map in Hcb. destruct Hcb as (p' & Hp' & Hcb).
      assert (p' = p) as ->.
      { destruct (Forall2_In_r _ _ _ _ Fm Hp') as (c' & _ & Hrel').
        destruct Hrel' as (_ & _ & _ & _ & _ & _ & Fcb').
        destruct (Forall2_In_r _ _ _ _ Fcb' Hcb) as (b' & _ & Hc' & _).
        apply (NoDup_map_In_inj _ _ _ _ NDc Hp' Hp). congruence. }
      destruct (Forall2_In_r _ _ _ _ Fcb Hcb) as (b & Hb & _ & Hbr).
      apply filter_In in Hb. destruct Hb as (Hb & Hinc).
      exists b. repeat split; auto. now apply includes_In. }
    assert (Hbranches : forall b, In b (t_branches t) ->
              In (br_name b) (xc_branches c) ->
              exists cb, In cb (flat_map snd (t_commits t)) /\
                         cb_commit cb = cm_id (fst p) /\ cb_branch cb = br_id b).
    { intros b Hb Hn.
      assert (Hf : In b (filter (fun b => Js.includes (xc_branches c) (br_name b))
                                (t_branches t))).
      { apply filter_In. split; [exact Hb | now apply includes_In]. }
      destruct (Forall2_In_l _ _ _ _ Fcb Hf) as (cb & Hcb & Hc1 & Hc2).
      exists cb. repeat split; auto. apply in_flat_map. eauto. }
    split; [exact Hhash | split; [exact Hrows | split; [exact Hbranches |]]].
    intros n. split.
    + intros (cb & b & Hcb & Hid & Hb & Hbid & <-). split; [|now apply in_map].
      destruct (Hrows cb Hcb Hid) as (b' & Hb' & Hbid' & Hn).
      assert (b = b') as -> by
        (apply (NoDup_map_In_inj _ _ _ _ NDb Hb Hb'); congruence).
      exact Hn.
    + intros (Hn & Hin). apply in_map_iff in Hin. destruct Hin as (b & <- & Hb).
      destruct (Hbranches b Hb Hn) as (cb & Hcb & Hid & Hbid).
      exists cb, b. repeat split; auto.
Qed.

(** ** Strings *)

Lemma length_append (a b : string) :
  String.length (a ++ b) = String.length a + String.length b.
Proof. induction a as [|c a IH]; simpl; congruence. Qed.

Lemma append_assoc (a b c : string) : ((a ++ b) ++ c = a ++ (b ++ c))%string.
Proof. induction a as [|h a IH]; simpl; congruence. Qed.

Lemma drop_append (pre s : string) :
  Js.drop (String.length pre) (pre ++ s) = s.
Proof. induction pre as [|c pre IH]; simpl; [destruct s|]; auto. Qed.

Lemma drop_0 s : Js.drop 0 s = s.
Proof. destruct s; reflexivity. Qed.

(** [lastIndexOf] is -1 exactly when the character does not occur, and
    otherwise points at an occurrence followed by no other. *)
Lemma lastIndexOf_from_spec c s i :
  (0 <= i)%Z ->
  (Js.has_char c s = false /\ Js.lastIndexOf_from i s c = (-1)%Z) \/
  (exists pre post,
     s = (pre ++ String c post)%string /\ Js.has_char c post = false /\
     Js.lastIndexOf_from i s c = (i + Z.of_nat (String.length pre))%Z).
Proof.
  revert i. induction s as [|a s IH]; intros i Hi; simpl.
  - left. auto.
  - destruct (IH (i + 1)%Z ltac:(lia))
      as [(Hno & ->) | (pre & post & -> & Hpost & ->)].
    + simpl. destruct (Ascii.eqb a c) eqn:Hac.
      * right. apply Ascii.eqb_eq in Hac. subst a.
        exists ""%string, s. simpl. repeat split; auto. f_equal. lia.
      * left. auto.
    + right. exists (String a pre), post.
      assert (Hge : (0 <=? i + 1 + Z.of_nat (String.length pre))%Z = true)
        by (apply Z.leb_le; lia).
      rewrite Hge. simpl String.length. repeat split; auto. lia.
Qed.

Lemma slice_after_last c s :
  (Js.has_char c s = false /\ Js.slice s (Js.lastIndexOf s c + 1) = s) \/
  (exists pre post,
     s = (pre ++ String c post)%string /\ Js.has_char c post = false /\
     Js.slice s (Js.lastIndexOf s c + 1) = post).
Proof.
  unfold Js.lastIndexOf.
  destruct (lastIndexOf_from_spec c s 0 ltac:(lia))
    as [(Hno & ->) | (pre & post & -> & Hpost & ->)].
  - left. split; [exact Hno|]. unfold Js.slice. simpl (-1 + 1)%Z.
    replace (Z.min 0 (Z.of_nat (String.length s))) with 0%Z by lia.
    simpl. apply drop_0.
  - right. exists pre, post. repeat split; auto.
    unfold Js.slice. rewrite length_append. simpl String.length.
    assert (Hlt : (0 + Z.of_nat (String.length pre) + 1 <? 0)%Z = false)
      by (apply Z.ltb_ge; lia).
    rewrite Hlt.
    replace (Z.to_nat _) with (String.length (pre ++ String c "")) by
      (rewrite length_append; simpl; lia).
    replace (pre ++ String c post)%string with ((pre ++ String c "") ++ post)%string
      by (rewrite append_assoc; reflexivity).
    apply drop_append.
Qed.

Lemma extension_of_no_dot name :
  Js.has_char "." name = false -> extension_of name = name.
Proof.
  intros Hno. unfold extension_of.
  destruct (slice_after_last "." name) as [(_ & ->) | (pre & post & -> & _ & _)].
  - reflexivity.
  - exfalso. clear -Hno. induction pre as [|a pre IH]; simpl in Hno.
    + discriminate.
    + apply orb_false_iff in Hno. tauto.
Qed.

Lemma file_name_of_final_segment path : final_segment path (file_name_of path).
Proof.
  unfold final_segment, file_name_of.
  destruct (slice_after_last "/" path) as [(Hno & ->) | (pre & post & -> & Hno & ->)].
  - split; [exact Hno|]. exists ""%string. auto.
  - split; [exact Hno|]. exists (pre ++ "/")%string. split.
    + rewrite append_assoc. reflexivity.
    + right. eauto.
Qed.

(** ** Facts about the trace of a completed cascade *)

Section TraceFacts.
Variable E : Env.
Variables (name description : string) (languages : list string).
Variable user : option nat.
Variable x : Extraction.
Variable rid : nat.
Variable t : Trace.
Hypothesis Hok : trace_ok E name description languages user x rid t.

Lemma trace_deleted_orphaned :
  deletedFilesModifications x (map fst (t_files t)) = orphaned_modifications x.
Proof.
  destruct Hok as (_ & _ & _ & _ & _ & Ff & _).
  unfold deletedFilesModifications, orphaned_modifications, Js.some.
  apply filter_ext. intros m. f_equal.
  induction Ff as [|f p fs ps (_ & _ & Hpath & _) _ IH]; simpl; [reflexivity|].
  rewrite Hpath, IH. reflexivity.
Qed.

Lemma trace_commit_repo c : In c (map fst (t_commits t)) -> cm_repo c = rid.
Proof.
  destruct Hok as (_ & _ & _ & _ & Fm & _ & _).
  intros Hc. apply in_map_iff in Hc. destruct Hc as (p & <- & Hp).
  destruct (Forall2_In_r _ _ _ _ Fm Hp) as (xc & _ & Hrel).
  apply Hrel.
Qed.

Lemma trace_file_repo f :
  In f (map fst (t_files t) ++ map fst (t_deleted t)) -> fl_repo f = rid.
Proof.
  destruct Hok as (_ & _ & _ & _ & _ & Ff & Fd).
  intros Hf. apply in_app_or in Hf.
  destruct Hf as [Hf|Hf]; apply in_map_iff in Hf; destruct Hf as (p & <- & Hp).
  - destruct (Forall2_In_r _ _ _ _ Ff Hp) as (xf & _ & Hrel). apply Hrel.
  - destruct (Forall2_In_r _ _ _ _ Fd Hp) as (xm & _ & Hrel). apply Hrel.
Qed.

Lemma modification_rel_commit cms fid xm m :
  modification_rel cms fid xm m ->
  exists c, In c cms /\ cm_id c = md_commit m /\ cm_hash c = xm_commit xm.
Proof.
  intros (_ & _ & c & Hfind & Hid). apply find_some in Hfind.
  destruct Hfind as (Hc & Hhash). apply String.eqb_eq in Hhash. eauto.
Qed.

(** Every modification row of the trace points at a file row and at a
    commit row of the trace. *)
Lemma trace_modification_targets m :
  In m (flat_map snd (t_files t) ++ map snd (t_deleted t)) ->
  (exists f, In f (map fst (t_files t) ++ map fst (t_deleted t)) /\
             fl_id f = md_file m) /\
  (exists c, In c (map fst (t_commits t)) /\ cm_id c = md_commit m).
Proof.
  destruct Hok as (_ & _ & _ & _ & _ & Ff & Fd).
  intros Hm. apply in_app_or in Hm. destruct Hm as [Hm|Hm].
  - apply in_flat_map in Hm. destruct Hm as (p & Hp & Hm).
    destruct (Forall2_In_r _ _ _ _ Ff Hp) as (xf & _ & Hrel).
    destruct Hrel as (_ & _ & _ & _ & _ & Fms).
    destruct (Forall2_In_r _ _ _ _ Fms Hm) as (xm & _ & Hmrel).
    split.
    + exists (fst p). split; [apply in_or_app; left; now apply in_map|].
      symmetry. apply Hmrel.
    + destruct (modification_rel_commit _ _ _ _ Hmrel) as (c & Hc & Hid & _). eauto.
  - apply in_map_iff in Hm. destruct Hm as (p & <- & Hp).
    destruct (Forall2_In_r _ _ _ _ Fd Hp) as (xm & _ & Hrel).
    destruct Hrel as (_ & _ & _ & _ & _ & Hmrel).
    split.
    + exists (fst p). split; [apply in_or_app; right; now apply in_map|].
      symmetry. apply Hmrel.
    + destruct (modification_rel_commit _ _ _ _ Hmrel) as (c & Hc & Hid & _). eauto.
Qed.
End TraceFacts.

(** ** Modifications and files *)

(** C6: after a successful ingestion, every Modification row persisted by
    the call references a File row persisted by the call for the repository
    just created, and a Commit row persisted by the call for that same
    repository; this covers the modifications of paths that are absent from
    the extracted file listing, each of which has a row on a persisted File
    of its path. *)
Theorem modifications_reference_repository_rows E repoData token s0 res s' :
  createRepository E repoData token s0 = Done res s' ->
  success res = true ->
  let x := repoInfo E (rd_name repoData) in
  let P := persisted s0 s' in
  exists repo,
    repositories_in P = [repo] /\ rp_name repo = rd_name repoData /\
    Forall (references_rows_of P (rp_id repo)) (modifications_in P) /\
    Forall (recorded_on_its_path P (rp_id repo)) (orphaned_modifications x).
Proof.
  intros H Hs x P.
  destruct (createRepository_Done _ _ _ _ _ _ H Hs) as (_ & t & HP & W & Hok).
  subst P. rewrite HP. unfold references_rows_of, recorded_on_its_path.
  rewrite repositories_in_trace, files_in_trace, commits_in_trace,
    modifications_in_trace.
  exists (t_repo t). fold x in Hok.
  assert (Hrepo : t_repo t = {| rp_id := next_id s0; rp_name := rd_name repoData;
                                rp_description := rd_description repoData;
                                rp_user_owner := v_data (validate E repoData token) |})
    by apply Hok.
  split; [reflexivity|]. split; [rewrite Hrepo; reflexivity|].
  replace (rp_id (t_repo t)) with (next_id s0) by (rewrite Hrepo; reflexivity).
  split.
  - apply Forall_forall. intros m Hm.
    destruct (trace_modification_targets _ _ _ _ _ _ _ _ Hok m Hm)
      as ((f & Hf & Hfid) & (c & Hc & Hcid)).
    split.
    + exists f. repeat split; auto. eapply trace_file_repo; eauto.
    + exists c. repeat split; auto. eapply trace_commit_repo; eauto.
  - rewrite <- (trace_deleted_orphaned _ _ _ _ _ _ _ _ Hok).
    destruct Hok as (_ & _ & _ & _ & _ & _ & Fd).
    apply Forall_forall. intros xm Hxm.
    destruct (Forall2_In_l _ _ _ _ Fd Hxm) as (p & Hp & Hrel).
    destruct Hrel as (_ & _ & Hpath & Hrepo' & _ & Htype & Hfile & _).
    exists (snd p), (fst p). repeat split; auto.
    + apply in_or_app; right. now apply in_map.
    + apply in_or_app; right. now apply in_map.
Qed.

(** C7: after a successful ingestion, the File rows persisted by the call
    are the rows of the extracted files followed by one placeholder per
    modification of a path absent from the extracted files; every
    placeholder has the sentinel size, the path of its modification, the
    segment of that path after its last ['/'] as name, and no Language. *)
Theorem placeholder_files_shape E repoData token s0 res s' :
  createRepository E repoData token s0 = Done res s' ->
  success res = true ->
  let x := repoInfo E (rd_name repoData) in
  let P := persisted s0 s' in
  exists live placeholders,
    files_in P = live ++ placeholders /\
    Forall2 live_file_row (files x) live /\
    Forall2 placeholder_for (orphaned_modifications x) placeholders.
Proof.
  intros H Hs x P.
  destruct (createRepository_Done _ _ _ _ _ _ H Hs) as (_ & t & HP & W & Hok).
  subst P. rewrite HP, files_in_trace. fold x in Hok.
  exists (map fst (t_files t)), (map fst (t_deleted t)).
  split; [reflexivity|].
  rewrite <- (trace_deleted_orphaned _ _ _ _ _ _ _ _ Hok).
  destruct Hok as (_ & _ & _ & _ & _ & Ff & Fd). split.
  - apply Forall2_map_r. revert Ff. apply Forall2_impl.
    intros xf p (_ & Hsize & Hpath & _). split; auto.
  - apply Forall2_map_r. revert Fd. apply Forall2_impl.
    intros xm p (Hname & Hsize & Hpath & _ & Hlang & _). unfold placeholder_for.
    split; [exact Hsize | split; [exact Hpath | split; [exact Hname |]]].
    split; [|exact Hlang].
    rewrite Hname, Hpath. apply file_name_of_final_segment.
Qed.

(** C10: for a file name without ['.'], the extension handed to the
    registry is the whole name; after a successful ingestion the File row of
    such an extracted file carries the registry's answer for its whole name,
    so its Language is non-null exactly when the registry maps that name. *)
Theorem extensionless_file_language E repoData token s0 res s' :
  createRepository E repoData token s0 = Done res s' ->
  success res = true ->
  let x := repoInfo E (rd_name repoData) in
  let P := persisted s0 s' in
  Forall2 (whole_name_language E) (files x)
          (firstn (List.length (files x)) (files_in P)).
Proof.
  intros H Hs x P.
  destruct (createRepository_Done _ _ _ _ _ _ H Hs) as (_ & t & HP & W & Hok).
  subst P. rewrite HP, files_in_trace. fold x in Hok.
  destruct Hok as (_ & _ & _ & _ & _ & Ff & _).
  rewrite (Forall2_length Ff), <- (length_map fst), firstn_app, firstn_all.
  rewrite Nat.sub_diag, firstn_0, app_nil_r.
  apply Forall2_map_r. revert Ff. apply Forall2_impl.
  intros xf p (Hname & _ & Hpath & _ & Hlang & _). unfold whole_name_language.
  split; [exact Hname | split; [exact Hpath|]].
  intros Hno. rewrite Hlang, (extension_of_no_dot _ Hno). tauto.
Qed.

(** ** Modifications grouped by path *)

Lemma filter_split_Permutation {A} (p : A -> bool) (l : list A) :
  Permutation (filter p l ++ filter (fun a => negb (p a)) l) l.
Proof.
  induction l as [|a l IH]; simpl; [constructor|].
  destruct (p a); simpl.
  - now constructor.
  - symmetry. apply Permutation_cons_app. now symmetry.
Qed.

Lemma filter_filter {A} (p q : A -> bool) (l : list A) :
  filter q (filter p l) = filter (fun a => p a && q a) l.
Proof.
  induction l as [|a l IH]; simpl; [reflexivity|].
  destruct (p a); simpl; [destruct (q a)|]; congruence.
Qed.

Lemma flat_map_ext_in {A B} (f g : A -> list B) (l : list A) :
  (forall a, In a l -> f a = g a) -> flat_map f l = flat_map g l.
Proof.
  induction l as [|a l IH]; simpl; intros H; [reflexivity|].
  rewrite H, IH; auto.
Qed.

(** Grouping the modifications by the extracted file of their path, and
    keeping the orphaned ones apart, only reorders them when the extracted
    paths are pairwise distinct. *)
Lemma group_by_path_Permutation (fs : list ExFile) (mods : list ExModification) :
  NoDup (map xf_path fs) ->
  Permutation
    (flat_map (fun xf => filter (fun m => xm_file m =? xf_path xf) mods) fs
     ++ filter (fun m => negb (existsb (fun xf => xf_path xf =? xm_file m) fs)) mods)
    mods.
Proof.
  revert mods. induction fs as [|xf fs IH]; intros mods Hnd.
  - simpl. replace (filter _ mods) with mods; [reflexivity|].
    induction mods as [|m mods IHm]; simpl; congruence.
  - cbn [flat_map existsb map] in *.
    inversion_clear Hnd as [|? ? Hnotin Hnd'].
    set (B := filter (fun m => negb (xm_file m =? xf_path xf)) mods).
    rewrite <- app_assoc.
    transitivity (filter (fun m => xm_file m =? xf_path xf) mods ++ B);
      [|apply filter_split_Permutation].
    apply Permutation_app_head.
    assert (E1 : flat_map (fun g => filter (fun m => xm_file m =? xf_path g) mods) fs
                 = flat_map (fun g => filter (fun m => xm_file m =? xf_path g) B) fs).
    { apply flat_map_ext_in. intros g Hg. unfold B.
      rewrite filter_filter. apply filter_ext. intros m.
      destruct (xm_file m =? xf_path g) eqn:Hmg; [|now rewrite andb_false_r].
      apply String.eqb_eq in Hmg.
      destruct (xm_file m =? xf_path xf) eqn:Hmx; [|reflexivity].
      apply String.eqb_eq in Hmx. exfalso. apply Hnotin.
      rewrite <- Hmx, Hmg. now apply in_map. }
    assert (E2 : filter (fun m => negb ((xf_path xf =? xm_file m)
                                        || existsb (fun g => xf_path g =? xm_file m) fs))
                        mods
                 = filter (fun m => negb (existsb (fun g => xf_path g =? xm_file m) fs)) B).
    { unfold B. rewrite filter_filter. apply filter_ext. intros m.
      rewrite negb_orb, (String.eqb_sym (xf_path xf)). reflexivity. }
    rewrite E1, E2. apply (IH B Hnd').
Qed.

Lemma Forall2_flat_map {A B C D} (Q : C -> D -> Prop) (f : A -> list C)
    (g : B -> list D) l1 l2 :
  Forall2 (fun a b => Forall2 Q (f a) (g b)) l1 l2 ->
  Forall2 Q (flat_map f l1) (flat_map g l2).
Proof.
  induction 1; simpl; [constructor|]. now apply Forall2_app.
Qed.

(** After a successful ingestion, the Modification rows persisted by the
    call record the extracted modifications in the order in which the
    cascade saves them. *)
Lemma modification_rows_grouped E repoData token s0 res s' :
  createRepository E repoData token s0 = Done res s' ->
  success res = true ->
  let x := repoInfo E (rd_name repoData) in
  let P := persisted s0 s' in
  Forall2 (records_modification x P) (saved_modifications x) (modifications_in P).
Proof.
  intros H Hs x P.
  destruct (createRepository_Done _ _ _ _ _ _ H Hs) as (_ & t & HP & W & Hok).
  fold x in Hok.
  assert (Hdel := trace_deleted_orphaned _ _ _ _ _ _ _ _ Hok).
  assert (Hfiles : files_in P = map fst (t_files t) ++ map fst (t_deleted t))
    by (subst P; rewrite HP; apply files_in_trace).
  assert (Hcommits : commits_in P = map fst (t_commits t))
    by (subst P; rewrite HP; apply commits_in_trace).
  assert (Hmods : modifications_in P
                  = flat_map snd (t_files t) ++ map snd (t_deleted t))
    by (subst P; rewrite HP; apply modifications_in_trace).
  destruct Hok as (_ & _ & _ & _ & _ & Ff & Fd). rewrite Hdel in Fd.
  rewrite Hmods. apply Forall2_app.
  - (* the modifications saved with the extracted file of their path *)
    apply Forall2_flat_map. eapply Forall2_impl_In; [|exact Ff].
    intros xf pf Hxf Hpf (Hname & Hsize & Hpath & _ & _ & Fms).
    eapply Forall2_impl_In; [|exact Fms].
    intros xm m Hxm _ Hrel. apply filter_In in Hxm. destruct Hxm as (_ & Heq).
    apply String.eqb_eq in Heq.
    destruct (modification_rel_commit _ _ _ _ Hrel) as (c & Hc & Hcid & Hhash).
    destruct Hrel as (Htype & Hfile & _).
    split; [exact Htype | split].
    + exists c. rewrite Hcommits. auto.
    + exists (fst pf). split; [|split; [now symmetry|]].
      * rewrite Hfiles. apply in_or_app; left. now apply in_map.
      * unfold modification_target. split; [congruence|].
        replace (existsb _ (files x)) with true.
        -- exists xf. repeat split; auto.
        -- symmetry. apply existsb_exists. exists xf.
           split; [exact Hxf | now apply String.eqb_eq].
  - (* the modifications saved with a placeholder *)
    apply Forall2_map_r. eapply Forall2_impl_In; [|exact Fd].
    intros xm pd Hxm Hpd (_ & Hsize & Hpath & _ & Hlang & Hrel).
    apply filter_In in Hxm. destruct Hxm as (_ & Hno).
    apply negb_true_iff in Hno.
    destruct (modification_rel_commit _ _ _ _ Hrel) as (c & Hc & Hcid & Hhash).
    destruct Hrel as (Htype & Hfile & _).
    split; [exact Htype | split].
    + exists c. rewrite Hcommits. auto.
    + exists (fst pd). split; [|split; [now symmetry|]].
      * rewrite Hfiles. apply in_or_app; right. now apply in_map.
      * unfold modification_target. rewrite Hno. auto.
Qed.

(** After a successful ingestion with pairwise distinct extracted paths, the
    Modification rows persisted by the call are, up to their order, one row
    per extracted modification. *)
Lemma modification_rows_bijection E repoData token s0 res s' :
  createRepository E repoData token s0 = Done res s' ->
  success res = true ->
  let x := repoInfo E (rd_name repoData) in
  let P := persisted s0 s' in
  NoDup (map xf_path (files x)) ->
  exists ms,
    Permutation (modifications_in P) ms /\
    Forall2 (records_modification x P) (modifications x) ms.
Proof.
  intros H Hs x P Hnd.
  apply (Permutation_Forall2 (group_by_path_Permutation _ (modifications x) Hnd)).
  exact (modification_rows_grouped _ _ _ _ _ _ H Hs).
Qed.

(** ** Runs that may fault

    Whatever the outcome of a computation, the store it leaves extends the
    store it started from: nothing written is taken back. [G] constrains the
    rows added and [F] the fault thrown, if any. *)

Section Always.
Variable E : Env.
Variable G : Row -> Prop.
Variable F : Fault -> Prop.
Hypothesis F_store : forall s r, rejects E s r = true -> F (StoreError r).
Hypothesis F_type : F (TypeError "id").

Lemma adds_refl s : adds G s s.
Proof. exists []. rewrite app_nil_r. auto. Qed.

Lemma adds_trans s1 s2 s3 : adds G s1 s2 -> adds G s2 s3 -> adds G s1 s3.
Proof.
  intros (d1 & R1 & G1) (d2 & R2 & G2). exists (d1 ++ d2).
  rewrite R2, R1, app_assoc. split; [reflexivity | now apply Forall_app].
Qed.

Lemma always_ret {A} (a : A) : always G F (ret a).
Proof. intros s. apply adds_refl. Qed.

Lemma always_bind {A B} (m : M A) (k : A -> M B) :
  always G F m -> (forall a, always G F (k a)) -> always G F (bind m k).
Proof.
  intros Hm Hk s. unfold bind. specialize (Hm s).
  destruct (m s) as [a s1 | e s1]; [|exact Hm].
  specialize (Hk a s1). destruct (k a s1) as [b s2 | e s2].
  - eapply adds_trans; eauto.
  - destruct Hk as (Hk & He). split; [eapply adds_trans; eauto | exact He].
Qed.

Lemma always_for_of {X A} (l : list X) (body : X -> A -> M A) (acc : A) :
  (forall v a, In v l -> always G F (body v a)) -> always G F (for_of l body acc).
Proof.
  revert acc. induction l as [|v l IH]; intros acc Hbody.
  - apply always_ret.
  - rewrite for_of_cons. apply always_bind.
    + apply Hbody. now left.
    + intros a. apply IH. intros; apply Hbody. now right.
Qed.

Lemma always_insert {T} (inj : T -> Row) (mk : nat -> T) :
  (forall n, G (inj (mk n))) -> always G F (insert E inj mk).
Proof.
  intros HG s. unfold insert.
  destruct (rejects E s (inj (mk (next_id s)))) eqn:Hr.
  - split; [apply adds_refl | now apply F_store with s].
  - exists [inj (mk (next_id s))]. simpl. auto.
Qed.

Lemma always_dot_id {T} (get : T -> nat) (v : option T) : always G F (dot_id get v).
Proof.
  intros s. destruct v; simpl; [apply adds_refl|].
  split; [apply adds_refl | exact F_type].
Qed.

Lemma always_Threw {A} (m : M A) s e s' :
  always G F m -> m s = Threw e s' -> adds G s s' /\ F e.
Proof. intros Hm H. specialize (Hm s). now rewrite H in Hm. Qed.

End Always.

(** Proves [always] for straight-line code and loops whose inserted rows
    satisfy the constraint by [solve_row]. *)
Ltac prove_always_with solve_row :=
  repeat first
    [ apply always_ret
    | apply always_dot_id; first [assumption | exact I]
    | apply always_insert; [first [assumption | intros; exact I] | intros; solve_row]
    | apply always_bind
    | apply always_for_of; intros
    | progress intros
    | match goal with |- always _ _ (match ?p with pair _ _ => _ end) => destruct p end
    | progress unfold save_language, save_contributor, save_branch,
        save_commit_branch, save_commit, save_modification, save_file,
        save_deleted_file, Repository_save, Repository_Language_save,
        Contributor_save, Branch_save, Commit_save, Commit_Branch_save,
        File_save, Modification_save
    | progress cbv zeta ].

Section CascadeAlways.
Variable E : Env.
Variable F : Fault -> Prop.
Hypothesis F_store : forall s r, rejects E s r = true -> F (StoreError r).
Hypothesis F_type : F (TypeError "id").

(** The cascade never takes back a row, and its faults are those of the
    store and of the failed lookups. *)
Lemma cascade_always name description languages user x :
  always (fun _ => True) F (cascade E name description languages user x).
Proof.
  unfold cascade. prove_always_with ltac:(exact I).
Qed.
End CascadeAlways.

Lemma bind_Threw {A B} (m : M A) (k : A -> M B) s e s' :
  bind m k s = Threw e s' ->
  m s = Threw e s' \/ exists a s1, m s = Done a s1 /\ k a s1 = Threw e s'.
Proof.
  unfold bind. destruct (m s) as [a s1 | e1 s1]; [eauto|].
  intros [= <- <-]. now left.
Qed.


Lemma createRepository_prechecked E repoData token s0 :
  prechecks_pass E repoData token s0 ->
  createRepository E repoData token s0
  = cascade E (rd_name repoData) (rd_description repoData) (rd_languages repoData)
            (v_data (validate E repoData token)) (repoInfo E (rd_name repoData)) s0.
Proof.
  intros (Hv & Hb & Hu & Hl). unfold createRepository.
  rewrite Hv, Hb, Hu. simpl.
  destruct (find _ (rd_languages repoData)) as [lang|] eqn:Hfind; [|reflexivity].
  apply find_some in Hfind. destruct Hfind as (Hin & Hneg).
  rewrite Forall_forall in Hl. rewrite (Hl _ Hin) in Hneg. discriminate.
Qed.

(** ** A run against the run on a store that refuses nothing *)

Lemma persisted_app s0 s' d : rows s' = rows s0 ++ d -> persisted s0 s' = d.
Proof.
  intros R. unfold persisted.
  rewrite R, skipn_app, skipn_all, Nat.sub_diag. reflexivity.
Qed.

Lemma rows_extended s d : rows (extended s d) = rows s ++ d.
Proof.
  revert s. induction d as [|r d IH]; intros s; simpl.
  - now rewrite app_nil_r.
  - rewrite IH. simpl. now rewrite <- app_assoc.
Qed.

Lemma extended_app s d1 d2 : extended (extended s d1) d2 = extended s (d1 ++ d2).
Proof. revert s. induction d1 as [|r d1 IH]; intros s; simpl; auto. Qed.

Lemma accepts_app E s d1 d2 :
  accepts E s (d1 ++ d2) = accepts E s d1 && accepts E (extended s d1) d2.
Proof.
  revert s. induction d1 as [|r d1 IH]; intros s; simpl; [reflexivity|].
  rewrite IH. now rewrite andb_assoc.
Qed.

Lemma persisted_extended s d : persisted s (extended s d) = d.
Proof. apply persisted_app. apply rows_extended. Qed.

Section UntilRefused.
Variable E : Env.
Let E0 := never_rejecting E.

Lemma runs_until_refused_ret {A} (a : A) : runs_until_refused E (ret a) (ret a).
Proof.
  intros s. exists []. split; [reflexivity|]. split; [reflexivity|].
  intros pre r post Hd. destruct pre; discriminate.
Qed.

Lemma runs_until_refused_dot_id {T} (get : T -> nat) (v : option T) :
  runs_until_refused E (dot_id get v) (dot_id get v).
Proof.
  intros s. exists []. split; [destruct v; reflexivity|]. split; [reflexivity|].
  intros pre r post Hd. destruct pre; discriminate.
Qed.

Lemma runs_until_refused_insert {T} (inj : T -> Row) (mk : nat -> T) :
  runs_until_refused E (insert E inj mk) (insert E0 inj mk).
Proof.
  intros s. exists [inj (mk (next_id s))]. unfold insert. simpl.
  split; [reflexivity|]. split.
  - rewrite andb_true_r. intros Hacc. apply negb_true_iff in Hacc.
    now rewrite Hacc.
  - intros pre r post Hd _ Hrej.
    destruct pre as [|p pre]; [|destruct pre; discriminate].
    injection Hd as <- _. simpl in Hrej. now rewrite Hrej.
Qed.

Lemma runs_until_refused_bind {A B} (m m0 : M A) (k k0 : A -> M B) :
  runs_until_refused E m m0 ->
  (forall a, runs_until_refused E (k a) (k0 a)) ->
  runs_until_refused E (bind m k) (bind m0 k0).
Proof.
  intros Hm Hk s. unfold bind.
  destruct (Hm s) as (d1 & Hs1 & Hacc1 & Hrej1).
  destruct (m0 s) as [a s1 | e s1] eqn:Hm0; simpl in Hs1; subst s1.
  - destruct (Hk a (extended s d1)) as (d2 & Hs2 & Hacc2 & Hrej2).
    exists (d1 ++ d2). split; [|split].
    + rewrite Hs2. apply extended_app.
    + rewrite accepts_app. intros Hacc. apply andb_prop in Hacc.
      destruct Hacc as (Ha1 & Ha2). rewrite (Hacc1 Ha1). now apply Hacc2.
    + intros pre r post Hd Hacc Hrej.
      apply app_eq_app in Hd. destruct Hd as (l & [(Hd1 & Hd2) | (Hd1 & Hd2)]).
      * destruct l as [|r' l].
        -- rewrite app_nil_r in Hd1. subst d1. simpl in Hd2. subst d2.
           rewrite (Hacc1 Hacc).
           apply (Hrej2 [] r post eq_refl eq_refl Hrej).
        -- injection Hd2 as <- _.
           now rewrite (Hrej1 pre r l Hd1 Hacc Hrej).
      * subst pre d2. rewrite accepts_app in Hacc. apply andb_prop in Hacc.
        destruct Hacc as (Ha1 & Ha2). rewrite (Hacc1 Ha1).
        rewrite <- extended_app in *.
        now apply (Hrej2 l r post).
  - exists d1. split; [reflexivity|]. split.
    + intros Hacc. now rewrite (Hacc1 Hacc).
    + intros pre r post Hd Hacc Hrej. now rewrite (Hrej1 pre r post Hd Hacc Hrej).
Qed.

Lemma runs_until_refused_for_of {X A} (l : list X) (body body0 : X -> A -> M A)
    (acc : A) :
  (forall v a, runs_until_refused E (body v a) (body0 v a)) ->
  runs_until_refused E (for_of l body acc) (for_of l body0 acc).
Proof.
  intros Hb. revert acc. induction l as [|v l IH]; intros acc.
  - apply runs_until_refused_ret.
  - rewrite !for_of_cons. apply runs_until_refused_bind; auto.
Qed.

(** The cascade runs as the cascade of the store that refuses nothing until
    the store refuses a row. *)
Lemma cascade_runs_until_refused name description languages user x :
  runs_until_refused E (cascade E name description languages user x)
                       (cascade E0 name description languages user x).
Proof.
  unfold cascade.
  repeat first
    [ apply runs_until_refused_ret
    | apply runs_until_refused_dot_id
    | apply runs_until_refused_insert
    | apply runs_until_refused_bind; [ | intros ]
    | apply runs_until_refused_for_of; intros
    | progress intros
    | match goal with
      | |- runs_until_refused _ (match ?p with pair _ _ => _ end) _ => destruct p
      end
    | progress unfold save_language, save_contributor, save_branch,
        save_commit_branch, save_commit, save_modification, save_file,
        save_deleted_file, Repository_save, Repository_Language_save,
        Contributor_save, Branch_save, Commit_save, Commit_Branch_save,
        File_save, Modification_save
    | progress cbv zeta ].
Qed.
End UntilRefused.

(** The rows that the cascade writes on a store that refuses nothing start
    with the Repository row. *)
Lemma cascade_writes_repository_first E name description languages user x s0 :
  (forall s r, rejects E s r = false) ->
  exists d,
    rows (store_of (cascade E name description languages user x s0))
    = rows s0 ++ RRepository {| rp_id := next_id s0; rp_name := name;
                                rp_description := description;
                                rp_user_owner := user |} :: d.
Proof.
  intros Hnever. unfold cascade, Repository_save.
  match goal with
  | |- context [bind (insert E ?inj0 ?mk0) ?rest0 s0] =>
      change (bind (insert E inj0 mk0) rest0 s0)
        with (match insert E inj0 mk0 s0 with
              | Done a s1 => rest0 a s1
              | Threw e s1 => Threw e s1
              end);
      unfold insert; rewrite Hnever;
      assert (Hal : always (fun _ => True) (fun _ => True)
                           (rest0 (mk0 (next_id s0))))
        by prove_always_with ltac:(exact I)
  end.
  match goal with
  | |- context [store_of (?run0 ?st0)] =>
      specialize (Hal st0); destruct (run0 st0) as [res s1 | e s1]
  end.
  - destruct Hal as (d & Hd & _). exists d. simpl in *. rewrite Hd.
    now rewrite <- app_assoc.
  - destruct Hal as ((d & Hd & _) & _). exists d. simpl in *. rewrite Hd.
    now rewrite <- app_assoc.
Qed.

(** ** Failures in the cascade *)

(** C3, as the code has it: there is no transaction around the cascade.
    Take the rows that the ingestion writes when the store refuses nothing.
    When the store accepts the first of them and then refuses one, the call
    throws the store's error for the refused row and nothing is rolled back:
    the store is left with exactly the rows before the refused one, and
    they are what the call has persisted. The Repository row comes first:
    it is the refused row, or it stays in the store. *)
Theorem failed_cascade_keeps_written_rows E repoData token s0 pre r post :
  prechecks_pass E repoData token s0 ->
  persisted s0 (store_of (createRepository (never_rejecting E) repoData token s0))
  = pre ++ r :: post ->
  accepts E s0 pre = true ->
  rejects E (extended s0 pre) r = true ->
  createRepository E repoData token s0 = Threw (StoreError r) (extended s0 pre) /\
  rows (extended s0 pre) = rows s0 ++ pre /\
  persisted s0 (extended s0 pre) = pre /\
  exists d, pre ++ [r] = RRepository (repository_row E repoData token s0) :: d.
Proof.
  intros Hpre HW Hacc Hrej.
  assert (Hpre0 : prechecks_pass (never_rejecting E) repoData token s0) by exact Hpre.
  rewrite (createRepository_prechecked _ _ _ _ Hpre0) in HW.
  rewrite (createRepository_prechecked _ _ _ _ Hpre).
  change (validate (never_rejecting E) repoData token)
    with (validate E repoData token) in HW.
  change (repoInfo (never_rejecting E)) with (repoInfo E) in HW.
  destruct (cascade_runs_until_refused E (rd_name repoData) (rd_description repoData)
              (rd_languages repoData) (v_data (validate E repoData token))
              (repoInfo E (rd_name repoData)) s0) as (d & Hd & _ & Hstop).
  destruct (cascade_writes_repository_first (never_rejecting E)
              (rd_name repoData) (rd_description repoData)
              (rd_languages repoData) (v_data (validate E repoData token))
              (repoInfo E (rd_name repoData)) s0 (fun _ _ => eq_refl))
    as (d' & Hfirst).
  rewrite (persisted_app _ _ _ Hfirst) in HW.
  rewrite Hd, rows_extended in Hfirst. apply app_inv_head in Hfirst.
  fold (repository_row E repoData token s0) in Hfirst, HW.
  split; [|split; [apply rows_extended | split; [apply persisted_extended|]]].
  - apply (Hstop pre r post); [congruence | exact Hacc | exact Hrej].
  - destruct pre as [|p pre]; simpl in *.
    + injection HW as <- _. now exists [].
    + injection HW as <- _. now exists (pre ++ [r]).
Qed.

(** ** Authors of the commits written by a faulting cascade *)

Lemma always_bind_dot_id G F {T B} (get : T -> nat) (v : option T) (k : nat -> M B) :
  F (TypeError "id") ->
  (forall a, v = Some a -> always G F (k (get a))) ->
  always G F (bind (dot_id get v) k).
Proof.
  intros HF Hk s. unfold bind. destruct v as [a|]; simpl.
  - apply (Hk a eq_refl).
  - split; [apply adds_refl | exact HF].
Qed.

Lemma insert_Threw {T} E (inj : T -> Row) (mk : nat -> T) s e s' :
  insert E inj mk s = Threw e s' -> s' = s.
Proof.
  unfold insert. destruct (rejects E s _); [|discriminate]. now intros [= _ <-].
Qed.

Lemma not_commit_commits_in d : Forall not_commit d -> commits_in d = [].
Proof.
  induction 1 as [|r d Hr _ IH]; [reflexivity|].
  destruct r; simpl in *; tauto.
Qed.

Lemma in_contributors_in l r : In r (contributors_in l) <-> In (RContributor r) l.
Proof.
  unfold contributors_in. rewrite in_flat_map. split.
  - intros ([] & Hin & Hr); simpl in Hr; try tauto. destruct Hr as [<-|[]]; exact Hin.
  - intros Hin. exists (RContributor r). simpl; auto.
Qed.

Ltac solve_authored :=
  simpl; first
    [ exact I
    | match goal with
      | Hf : find _ _ = Some ?a |- _ =>
          exists a; split; [exact (proj1 (find_some _ _ Hf)) | reflexivity]
      end ].

Ltac prove_always_authored :=
  repeat first
    [ apply always_ret
    | apply always_bind_dot_id; [exact I | intros]
    | apply always_insert; [intros; exact I | intros; solve_authored]
    | apply always_bind
    | apply always_for_of; intros
    | progress intros
    | match goal with |- always _ _ (match ?p with pair _ _ => _ end) => destruct p end
    | progress unfold save_language, save_contributor, save_branch,
        save_commit_branch, save_commit, save_modification, save_file,
        save_deleted_file, Repository_save, Repository_Language_save,
        Contributor_save, Branch_save, Commit_save, Commit_Branch_save,
        File_save, Modification_save
    | progress cbv zeta ].

(** Whatever step faults, the Commit rows written so far carry the
    identifier of a Contributor row written by the same call. *)
Lemma cascade_Threw_commit_authors E name description languages user x s0 e s' :
  cascade E name description languages user x s0 = Threw e s' ->
  commits_have_authors (persisted s0 s').
Proof.
  intros H. unfold cascade in H.
  assert (Hnone : forall s d, rows s' = rows s ++ d -> Forall not_commit d ->
            forall pre, rows s = rows s0 ++ pre -> Forall not_commit pre ->
            commits_have_authors (persisted s0 s')).
  { intros s d R Hd pre Rp Hpre r Hr. exfalso.
    rewrite (persisted_app s0 s' (pre ++ d)) in Hr
      by (rewrite R, Rp, app_assoc; reflexivity).
    rewrite (not_commit_commits_in (pre ++ d)) in Hr by now apply Forall_app.
    exact Hr. }
  apply bind_Threw in H. destruct H as [H | (repo & s1 & Hsave & H)].
  { apply insert_Threw in H. subst s'.
    apply (Hnone s0 [] (eq_sym (app_nil_r _)) (Forall_nil _) []
                 (eq_sym (app_nil_r _)) (Forall_nil _)). }
  apply insert_Done in Hsave; [|reflexivity].
  destruct Hsave as (-> & (R1 & _) & _).
  set (repo := {| rp_id := next_id s0; rp_name := name;
                  rp_description := description; rp_user_owner := user |}) in *.
  apply bind_Threw in H. destruct H as [H | (u & s2 & Hl & H)].
  { eapply (always_Threw not_commit (fun _ => True)) in H.
    - destruct H as ((d & Hd & HG) & _).
      apply (Hnone s1 d Hd HG _ R1). repeat constructor.
    - prove_always_with ltac:(exact I). }
  apply save_languages_Done in Hl. destruct Hl as (ls & (R2 & _) & _).
  apply bind_Threw in H. destruct H as [H | (cs & s3 & Hc & H)].
  { eapply (always_Threw not_commit (fun _ => True)) in H.
    - destruct H as ((d & Hd & HG) & _).
      apply (Hnone s2 d Hd HG ([RRepository repo] ++ map RRepository_Language ls)).
      + rewrite R2, R1, <- app_assoc. reflexivity.
      + apply Forall_app. split; [repeat constructor|].
        apply Forall_forall. intros r Hr. apply in_map_iff in Hr.
        destruct Hr as (l & <- & _). exact I.
    - prove_always_with ltac:(exact I). }
  apply save_contributors_Done in Hc. destruct Hc as (cs' & -> & (R3 & _) & _).
  simpl in H.
  eapply (always_Threw (authored_by cs') (fun _ => True)) in H;
    [|prove_always_authored].
  destruct H as ((d & Hd & HG) & _).
  intros r Hr.
  rewrite (persisted_app s0 s'
             ([RRepository repo] ++ map RRepository_Language ls
              ++ map RContributor cs' ++ d)) in *
    by (rewrite Hd, R3, R2, R1, <- !app_assoc; reflexivity).
  apply in_commits_in in Hr. simpl in Hr. destruct Hr as [Hr|Hr]; [discriminate|].
  apply in_app_or in Hr. destruct Hr as [Hr|Hr].
  { apply in_map_iff in Hr. destruct Hr as (? & Hr & _). discriminate. }
  apply in_app_or in Hr. destruct Hr as [Hr|Hr].
  { apply in_map_iff in Hr. destruct Hr as (? & Hr & _). discriminate. }
  rewrite Forall_forall in HG. destruct (HG _ Hr) as (a & Ha & Hid).
  exists a. split; [|exact Hid].
  apply in_contributors_in. simpl. right.
  apply in_or_app; right. apply in_or_app; left. now apply in_map.
Qed.

(** A completed cascade has found every commit's author among the
    extracted contributors. *)
Lemma cascade_Done_authors E name description languages user x s0 r s' :
  cascade E name description languages user x s0 = Done r s' ->
  forall c, In c (commits x) -> In (xc_author c) (contributors x).
Proof.
  intros H c Hc. apply cascade_Done in H.
  destruct H as (_ & t & _ & (_ & _ & Fc & _ & Fm & _)).
  destruct (Forall2_In_l _ _ _ _ Fm Hc) as (p & _ & Hrel).
  destruct Hrel as (_ & _ & _ & _ & _ & (a & Hfind & _) & _).
  apply find_some in Hfind. destruct Hfind as (Ha & Hname).
  apply String.eqb_eq in Hname.
  destruct (Forall2_In_r _ _ _ _ Fc Ha) as (n & Hn & Hrel). destruct Hrel as (Hn' & _).
  congruence.
Qed.

(** ** Pre-checks *)

(** C4, as the code has it: the service has no conflict class. When the
    actor resolved by the validation already owns a repository of the given
    name, the call writes nothing and returns an error; when the validation
    and the upstream check pass, that error is of the BAD_REQUEST class. *)
Theorem duplicate_ownership_is_bad_request E repoData token s :
  checkIfUserHasRepo s (rd_name repoData) (v_data (validate E repoData token)) = true ->
  (exists r, createRepository E repoData token s = Done r s /\ success r = false) /\
  (Js.truthy (v_error (validate E repoData token)) = false ->
   checkIfExistsInBackend E (rd_name repoData) = true ->
   createRepository E repoData token s
   = Done (ServiceError "Usuario ya tiene el repositorio!" BAD_REQUEST) s).
Proof.
  intros Hown. unfold createRepository. rewrite Hown. split.
  - destruct (Js.truthy _); [eexists; split; reflexivity|].
    destruct (checkIfExistsInBackend E _); simpl; eexists; split; reflexivity.
  - intros -> ->. reflexivity.
Qed.


(** ** Calls that complete *)

Lemma for_of_total {X A} (l : list X) (body : X -> A -> M A) :
  (forall v a s, In v l -> exists a' s', body v a s = Done a' s') ->
  forall acc s, exists a' s', for_of l body acc s = Done a' s'.
Proof.
  induction l as [|v l IH]; intros Hbody acc s.
  - simpl. unfold ret. eauto.
  - rewrite for_of_cons. unfold bind.
    destruct (Hbody v acc s (or_introl eq_refl)) as (a1 & s1 & ->).
    apply IH. intros; apply Hbody. now right.
Qed.

Lemma find_is_some {A} (p : A -> bool) (l : list A) a :
  In a l -> p a = true -> exists b, find p l = Some b.
Proof.
  intros Ha Hp. destruct (find p l) as [b|] eqn:Hf; [eauto|].
  rewrite (find_none _ _ Hf a Ha) in Hp. discriminate.
Qed.

Section Total.
Variable E : Env.
Hypothesis Hnever : forall s r, rejects E s r = false.
Variable x : Extraction.
Variable repoSaved : RepositoryRow.

Lemma insert_total {T} (inj : T -> Row) (mk : nat -> T) s :
  insert E inj mk s
  = Done (mk (next_id s))
         {| rows := rows s ++ [inj (mk (next_id s))]; next_id := S (next_id s) |}.
Proof. unfold insert. rewrite Hnever. reflexivity. Qed.

Lemma save_language_total l u s :
  exists a' s', save_language E repoSaved l u s = Done a' s'.
Proof.
  unfold save_language, Repository_Language_save, bind.
  rewrite insert_total. unfold ret. eauto.
Qed.

Lemma save_contributor_total c acc s :
  exists a' s', save_contributor E repoSaved c acc s = Done a' s'.
Proof.
  unfold save_contributor, Contributor_save, bind.
  rewrite insert_total. unfold ret. eauto.
Qed.

Lemma save_branch_total b acc s :
  exists a' s', save_branch E repoSaved b acc s = Done a' s'.
Proof.
  unfold save_branch, Branch_save, bind.
  rewrite insert_total. unfold ret. eauto.
Qed.

Lemma save_commit_branch_total c b u s :
  exists a' s', save_commit_branch E c b u s = Done a' s'.
Proof.
  unfold save_commit_branch, Commit_Branch_save, bind.
  rewrite insert_total. unfold ret. eauto.
Qed.

Lemma save_commit_total cs bs c acc s :
  (exists a, find (fun k => ct_name k =? xc_author c) cs = Some a) ->
  exists a' s', save_commit E repoSaved cs bs c acc s = Done a' s'.
Proof.
  intros (a & Hfind). unfold save_commit, Commit_save, bind at 1 2.
  rewrite Hfind. simpl. rewrite insert_total. cbv zeta. unfold bind.
  match goal with
  | |- context [for_of ?l0 ?body0 ?acc0 ?st0] =>
      destruct (for_of_total l0 body0
                  (fun v a s1 _ => save_commit_branch_total _ v a s1) acc0 st0)
        as (u & s2 & ->)
  end.
  unfold ret. eauto.
Qed.

Lemma save_modification_total cms f m acc s :
  (exists c, find (fun c => cm_hash c =? xm_commit m) cms = Some c) ->
  exists a' s', save_modification E cms f m acc s = Done a' s'.
Proof.
  intros (c & Hfind). unfold save_modification, Modification_save, bind.
  rewrite Hfind. simpl. rewrite insert_total. unfold ret. eauto.
Qed.

Lemma save_file_total cms f acc s :
  (forall m, In m (modifications x) ->
             exists c, find (fun c => cm_hash c =? xm_commit m) cms = Some c) ->
  exists a' s', save_file E x repoSaved cms f acc s = Done a' s'.
Proof.
  intros Hfind. destruct acc as [fsv msv].
  unfold save_file, File_save, bind at 1. cbv zeta.
  rewrite insert_total. unfold bind.
  match goal with
  | |- context [for_of ?l0 ?body0 ?acc0 ?st0] =>
      destruct (for_of_total l0 body0) with (acc := acc0) (s := st0)
        as (u & s2 & ->)
  end.
  - intros m a s1 Hm. apply save_modification_total, Hfind.
    apply filter_In in Hm. apply Hm.
  - unfold ret. eauto.
Qed.

Lemma save_deleted_file_total cms m acc s :
  (exists c, find (fun c => cm_hash c =? xm_commit m) cms = Some c) ->
  exists a' s', save_deleted_file E repoSaved cms m acc s = Done a' s'.
Proof.
  intros (c & Hfind).
  unfold save_deleted_file, File_save, Modification_save, bind.
  rewrite Hfind. simpl. rewrite !insert_total. unfold ret. eauto.
Qed.
End Total.

Lemma bind_Done_eq {A B} (m : M A) (k : A -> M B) s a s1 :
  m s = Done a s1 -> bind m k s = k a s1.
Proof. intros H. unfold bind. now rewrite H. Qed.

(** With a store that refuses nothing, the cascade completes as soon as
    every commit's author is an extracted contributor and every
    modification's commit hash is the hash of an extracted commit. *)
Lemma cascade_total E name description languages user x s0 :
  (forall s r, rejects E s r = false) ->
  (forall c, In c (commits x) -> In (xc_author c) (contributors x)) ->
  (forall m, In m (modifications x) ->
             exists c, In c (commits x) /\ xc_hash c = xm_commit m) ->
  exists s', cascade E name description languages user x s0 = Done ok_result s'.
Proof.
  intros Hnever Hauth Hhash. unfold cascade, Repository_save.
  rewrite (bind_Done_eq _ _ _ _ _ (insert_total E Hnever _ _ s0)); cbv beta.
  match goal with
  | |- context [save_language E ?r] => set (repo := r)
  end.
  match goal with
  | |- context [bind (for_of languages ?body0 ?acc0) _ ?st0] =>
      destruct (for_of_total languages body0
                  (fun v a s1 _ => save_language_total E Hnever repo v a s1) acc0 st0)
        as (u & s2 & Hl)
  end.
  rewrite (bind_Done_eq _ _ _ _ _ Hl); cbv beta.
  match goal with
  | |- context [bind (for_of (contributors x) ?body0 ?acc0) _ ?st0] =>
      destruct (for_of_total (contributors x) body0
                  (fun v a s1 _ => save_contributor_total E Hnever repo v a s1) acc0 st0)
        as (cs & s3 & Hc)
  end.
  rewrite (bind_Done_eq _ _ _ _ _ Hc); cbv beta.
  apply save_contributors_Done in Hc. destruct Hc as (cs' & -> & _ & Fc). simpl.
  match goal with
  | |- context [bind (for_of (branches x) ?body0 ?acc0) _ ?st0] =>
      destruct (for_of_total (branches x) body0
                  (fun v a s1 _ => save_branch_total E Hnever repo v a s1) acc0 st0)
        as (bs & s4 & Hb)
  end.
  rewrite (bind_Done_eq _ _ _ _ _ Hb); cbv beta.
  match goal with
  | |- context [bind (for_of (commits x) ?body0 ?acc0) _ ?st0] =>
      destruct (for_of_total (commits x) body0) with (acc := acc0) (s := st0)
        as (cms & s5 & Hm)
  end.
  { intros c a s1 Hc. apply save_commit_total; [exact Hnever|].
    destruct (Forall2_In_l _ _ _ _ Fc (Hauth c Hc)) as (row & Hrow & Hname & _).
    apply (find_is_some _ _ row Hrow). now apply String.eqb_eq. }
  rewrite (bind_Done_eq _ _ _ _ _ Hm); cbv beta.
  apply save_commits_Done in Hm. destruct Hm as (ps & -> & _ & Fm). simpl.
  assert (Hfind : forall m, In m (modifications x) ->
            exists c, find (fun c => cm_hash c =? xm_commit m) (map fst ps) = Some c).
  { intros m Hin. destruct (Hhash m Hin) as (c & Hc & Heq).
    destruct (Forall2_In_l _ _ _ _ Fm Hc) as (p & Hp & _ & _ & Hh & _).
    apply (find_is_some _ _ (fst p)); [now apply in_map|].
    apply String.eqb_eq. congruence. }
  match goal with
  | |- context [bind (for_of (files x) ?body0 ?acc0) _ ?st0] =>
      destruct (for_of_total (files x) body0) with (acc := acc0) (s := st0)
        as ([fsv msv] & s6 & Hf)
  end.
  { intros f a s1 _. apply save_file_total; assumption. }
  rewrite (bind_Done_eq _ _ _ _ _ Hf); cbv beta.
  match goal with
  | |- context [bind (for_of ?l ?body0 ?acc0) _ ?st0] =>
      destruct (for_of_total l body0) with (acc := acc0) (s := st0) as (ms & s7 & Hd)
  end.
  { intros m a s1 Hin. apply save_deleted_file_total; [exact Hnever|].
    apply Hfind. apply filter_In in Hin. apply Hin. }
  rewrite (bind_Done_eq _ _ _ _ _ Hd); cbv beta. unfold ret. eauto.
Qed.

(** A call whose pre-checks pass, on a store that refuses nothing and an
    extraction whose authors and commit hashes resolve, returns success. *)
Lemma createRepository_succeeds E repoData token s0 :
  prechecks_pass E repoData token s0 ->
  (forall s r, rejects E s r = false) ->
  (forall c, In c (commits (repoInfo E (rd_name repoData))) ->
             In (xc_author c) (contributors (repoInfo E (rd_name repoData)))) ->
  (forall m, In m (modifications (repoInfo E (rd_name repoData))) ->
             exists c, In c (commits (repoInfo E (rd_name repoData))) /\
                       xc_hash c = xm_commit m) ->
  exists s', createRepository E repoData token s0 = Done ok_result s'.
Proof.
  intros Hpre Hnever Hauth Hhash.
  rewrite (createRepository_prechecked _ _ _ _ Hpre).
  now apply cascade_total.
Qed.

(** ** A commit by an author who is not a contributor *)

Lemma for_of_app {X A} (l1 l2 : list X) (body : X -> A -> M A) acc s :
  for_of (l1 ++ l2) body acc s = bind (for_of l1 body acc) (for_of l2 body) s.
Proof.
  revert acc s. induction l1 as [|v l1 IH]; intros acc s; [reflexivity|].
  simpl app. rewrite !for_of_cons. unfold bind.
  destruct (body v acc s) as [a s1 | e s1]; [|reflexivity].
  rewrite IH. reflexivity.
Qed.

Lemma bind_Threw_eq {A B} (m : M A) (k : A -> M B) s e s1 :
  m s = Threw e s1 -> bind m k s = Threw e s1.
Proof. intros H. unfold bind. now rewrite H. Qed.

Lemma take_while_Forall {A} (p : A -> bool) l :
  Forall (fun a => p a = true) (take_while p l).
Proof.
  induction l as [|a l IH]; simpl; [constructor|].
  destruct (p a) eqn:Hp; constructor; assumption.
Qed.

Lemma take_while_split {A} (p : A -> bool) l :
  (exists a, In a l /\ p a = false) ->
  exists c l2, l = take_while p l ++ c :: l2 /\ p c = false.
Proof.
  induction l as [|a l IH]; intros (b & Hb & Hp); [destruct Hb|]. simpl.
  destruct (p a) eqn:Ha.
  - destruct Hb as [<-|Hb]; [congruence|].
    destruct IH as (c & l2 & Hl & Hc); [eauto|].
    exists c, l2. split; [|exact Hc]. simpl. now f_equal.
  - exists a, l. split; [reflexivity | exact Ha].
Qed.

Lemma author_known_In x c : author_known x c = true <-> In (xc_author c) (contributors x).
Proof.
  unfold author_known. rewrite existsb_exists. split.
  - intros (n & Hn & Heq). apply String.eqb_eq in Heq. now subst.
  - intros H. exists (xc_author c). split; [exact H | apply String.eqb_refl].
Qed.

Lemma find_contributor rid x cs c :
  Forall2 (contributor_rel rid) (contributors x) cs ->
  if author_known x c
  then exists a, find (fun k => ct_name k =? xc_author c) cs = Some a
  else find (fun k => ct_name k =? xc_author c) cs = None.
Proof.
  intros Fc. destruct (author_known x c) eqn:Hk.
  - apply author_known_In in Hk.
    destruct (Forall2_In_l _ _ _ _ Fc Hk) as (row & Hrow & Hname & _).
    apply (find_is_some _ _ row Hrow). now apply String.eqb_eq.
  - destruct (find _ cs) as [a|] eqn:Hfind; [|reflexivity].
    apply find_some in Hfind. destruct Hfind as (Ha & Hname).
    apply String.eqb_eq in Hname.
    destruct (Forall2_In_r _ _ _ _ Fc Ha) as (n & Hn & Hn' & _).
    assert (author_known x c = true) by (apply author_known_In; congruence).
    congruence.
Qed.

(** On a store that refuses nothing, the cascade that meets a commit of
    unknown author throws at that commit, in the store that the cascade of
    the history before that commit completes in. *)
Lemma cascade_unknown_author E name description languages user x s0 :
  (forall s r, rejects E s r = false) ->
  (exists c, In c (commits x) /\ ~ In (xc_author c) (contributors x)) ->
  exists s',
    cascade E name description languages user x s0 = Threw (TypeError "id") s' /\
    cascade E name description languages user (before_unknown_author x) s0
    = Done ok_result s'.
Proof.
  intros Hnever (c0 & Hc0 & Hunk).
  destruct (take_while_split (author_known x) (commits x)) as (c & l2 & Hsplit & Hc).
  { exists c0. split; [exact Hc0|].
    destruct (author_known x c0) eqn:Hk; [|reflexivity].
    apply author_known_In in Hk. contradiction. }
  pose proof (take_while_Forall (author_known x) (commits x)) as Hknown.
  remember (take_while (author_known x) (commits x)) as l1 eqn:Hl1.
  set (repo := {| rp_id := next_id s0; rp_name := name;
                  rp_description := description; rp_user_owner := user |}).
  set (s1 := {| rows := rows s0 ++ [RRepository repo]; next_id := S (next_id s0) |}).
  destruct (for_of_total languages (save_language E repo)
              (fun v a s _ => save_language_total E Hnever repo v a s) tt s1)
    as (u & s2 & Hl).
  destruct (for_of_total (contributors x) (save_contributor E repo)
              (fun v a s _ => save_contributor_total E Hnever repo v a s) [] s2)
    as (cs & s3 & Hcs).
  destruct (for_of_total (branches x) (save_branch E repo)
              (fun v a s _ => save_branch_total E Hnever repo v a s) [] s3)
    as (bs & s4 & Hbs).
  assert (Fc : Forall2 (contributor_rel (rp_id repo)) (contributors x) cs).
  { pose proof Hcs as H. apply save_contributors_Done in H.
    destruct H as (rs & -> & _ & F). exact F. }
  destruct (for_of_total l1 (save_commit E repo cs bs)) with (acc := @nil CommitRow)
    (s := s4) as (cms & s5 & Hm).
  { intros v a s Hv. apply save_commit_total; [exact Hnever|].
    rewrite Forall_forall in Hknown. specialize (Hknown v Hv).
    pose proof (find_contributor (rp_id repo) x cs v Fc) as Hf.
    now rewrite Hknown in Hf. }
  assert (Hnone : find (fun k => ct_name k =? xc_author c) cs = None).
  { pose proof (find_contributor (rp_id repo) x cs c Fc) as Hf.
    now rewrite Hc in Hf. }
  exists s5. split.
  - unfold cascade, Repository_save.
    rewrite (bind_Done_eq _ _ _ _ _ (insert_total E Hnever _ _ s0)); cbv beta.
    fold repo s1.
    rewrite (bind_Done_eq _ _ _ _ _ Hl); cbv beta.
    rewrite (bind_Done_eq _ _ _ _ _ Hcs); cbv beta.
    rewrite (bind_Done_eq _ _ _ _ _ Hbs); cbv beta.
    apply bind_Threw_eq. rewrite Hsplit, for_of_app.
    rewrite (bind_Done_eq _ _ _ _ _ Hm). rewrite for_of_cons.
    apply bind_Threw_eq. unfold save_commit. apply bind_Threw_eq.
    rewrite Hnone. reflexivity.
  - unfold cascade, Repository_save.
    rewrite (bind_Done_eq _ _ _ _ _ (insert_total E Hnever _ _ s0)); cbv beta.
    fold repo s1.
    rewrite (bind_Done_eq _ _ _ _ _ Hl); cbv beta.
    cbn [before_unknown_author contributors branches commits files modifications].
    rewrite <- Hl1.
    rewrite (bind_Done_eq _ _ _ _ _ Hcs); cbv beta.
    rewrite (bind_Done_eq _ _ _ _ _ Hbs); cbv beta.
    rewrite (bind_Done_eq _ _ _ _ _ Hm); cbv beta.
    reflexivity.
Qed.

(** C2, as the code has it: the lookup of a commit's author is not guarded.
    When the pre-checks pass and some extracted commit has an author that is
    not, character for character, one of the extracted contributors, the
    call does not return a result: it throws. The rows that were in the
    store before the call are untouched, and every Commit row written
    before the fault carries the identifier of a Contributor row of the same
    call. With a store that refuses nothing the fault is the TypeError of
    reading [id] on the failed lookup, and nothing is rolled back: the store
    is exactly the one that a successful ingestion of the history before the
    first commit of unknown author leaves, that is, the Repository row, a
    Repository_Language row per declared language, a Contributor row per
    contributor, a Branch row per branch and a Commit row per commit before
    that one, and no File or Modification row. *)
Theorem unknown_author_faults E repoData token s0 :
  prechecks_pass E repoData token s0 ->
  (exists c, In c (commits (repoInfo E (rd_name repoData))) /\
             ~ In (xc_author c) (contributors (repoInfo E (rd_name repoData)))) ->
  exists e s',
    createRepository E repoData token s0 = Threw e s' /\
    (exists d, rows s' = rows s0 ++ d) /\
    commits_have_authors (persisted s0 s') /\
    ((forall s r, rejects E s r = false) ->
     let x := repoInfo E (rd_name repoData) in
     let P := persisted s0 s' in
     e = TypeError "id" /\
     createRepository (with_extraction E (before_unknown_author x)) repoData token s0
     = Done ok_result s' /\
     repositories_in P = [repository_row E repoData token s0] /\
     map rl_language (repository_languages_in P) = rd_languages repoData /\
     map ct_name (contributors_in P) = contributors x /\
     map br_name (branches_in P) = map xb_name (branches x) /\
     map cm_hash (commits_in P)
     = map xc_hash (take_while (author_known x) (commits x)) /\
     files_in P = [] /\
     modifications_in P = []).
Proof.
  intros Hpre Hex.
  rewrite (createRepository_prechecked _ _ _ _ Hpre).
  destruct (cascade _ _ _ _ _ _ s0) as [r s' | e s'] eqn:Hrun.
  - exfalso. destruct Hex as (c & Hc & Hunknown). apply Hunknown.
    eapply cascade_Done_authors; eauto.
  - exists e, s'. split; [reflexivity|]. split; [|split].
    + pose proof Hrun as Hrun'.
      apply (always_Threw (fun _ => True) (fun _ => True)) in Hrun'.
      * destruct Hrun' as ((d & Hd & _) & _). eauto.
      * apply cascade_always; auto.
    + eapply cascade_Threw_commit_authors; eauto.
    + intros Hnever x P.
      destruct (cascade_unknown_author E (rd_name repoData) (rd_description repoData)
                  (rd_languages repoData) (v_data (validate E repoData token))
                  x s0 Hnever Hex) as (s'' & Hthrow & Hdone).
      fold x in Hrun. rewrite Hrun in Hthrow. injection Hthrow as -> <-.
      split; [reflexivity|].
      assert (Hcut : createRepository (with_extraction E (before_unknown_author x))
                       repoData token s0 = Done ok_result s').
      { assert (Hpre' : prechecks_pass (with_extraction E (before_unknown_author x))
                          repoData token s0) by exact Hpre.
        rewrite (createRepository_prechecked _ _ _ _ Hpre'). exact Hdone. }
      split; [exact Hcut|].
      destruct (createRepository_Done _ _ _ _ _ _ Hcut eq_refl)
        as (_ & t & HP & _ & Hok).
      change (persisted s0 s') with P in HP.
      destruct Hok as (Hrepo & Fl & Fc & Fb & Fm & Ff & Fd).
      cbn [repoInfo with_extraction before_unknown_author contributors branches
           commits files modifications] in Fc, Fb, Fm, Ff, Fd.
      inversion Ff as [Hf0 Hf1|]. rewrite <- Hf1 in Fd. cbn in Fd.
      inversion Fd as [Hd0 Hd1|].
      rewrite HP, repositories_in_trace, repository_languages_in_trace,
        contributors_in_trace, branches_in_trace, commits_in_trace,
        files_in_trace, modifications_in_trace.
      rewrite <- Hf1, <- Hd1.
      split; [rewrite Hrepo; reflexivity|]. split; [|split; [|split; [|split]]].
      * rewrite <- (map_id (rd_languages repoData)). apply Forall2_map_eq.
        revert Fl. apply Forall2_impl. now intros l r (? & _).
      * rewrite <- (map_id (contributors x)). apply Forall2_map_eq.
        revert Fc. apply Forall2_impl. now intros n r (? & _).
      * apply Forall2_map_eq. revert Fb. apply Forall2_impl. now intros b r (? & _).
      * rewrite map_map. apply Forall2_map_eq. revert Fm. apply Forall2_impl.
        intros c p (_ & _ & Hh & _). exact Hh.
      * split; reflexivity.
Qed.

(** ** One Modification row per extracted modification *)

(** C9: when the extracted file paths are pairwise distinct and every
    modification's commit hash is the hash of an extracted commit, a
    successful ingestion has persisted, up to order, exactly one Modification
    row per extracted modification, saved against the File row of the
    extracted file of its path, or against a placeholder when there is no
    such file. Such an ingestion does succeed when the pre-checks pass, the
    store refuses nothing and every author is an extracted contributor. *)
Theorem one_modification_row_per_modification E repoData token s0 :
  let x := repoInfo E (rd_name repoData) in
  NoDup (map xf_path (files x)) ->
  (forall m, In m (modifications x) ->
             exists c, In c (commits x) /\ xc_hash c = xm_commit m) ->
  (forall res s',
     createRepository E repoData token s0 = Done res s' ->
     success res = true ->
     exists ms,
       Permutation (modifications_in (persisted s0 s')) ms /\
       Forall2 (records_modification x (persisted s0 s')) (modifications x) ms) /\
  (prechecks_pass E repoData token s0 ->
   (forall s r, rejects E s r = false) ->
   (forall c, In c (commits x) -> In (xc_author c) (contributors x)) ->
   exists s', createRepository E repoData token s0 = Done ok_result s').
Proof.
  intros x Hnd Hhash. split.
  - intros res s' H Hs.
    exact (modification_rows_bijection _ _ _ _ _ _ H Hs Hnd).
  - intros Hpre Hnever Hauth. now apply createRepository_succeeds.
Qed.

(** ** The concrete scenarios *)

(** C1 on the demo repository: the two modifications of the deleted path
    old/util.py get one placeholder File each, rows 14 and 16 with the same
    path, and each modification references its own placeholder. *)
Theorem placeholder_per_modification_on_demo :
  createRepository Demo.env Demo.repoData "tok" Demo.empty
  = Done ok_result Outcome.final /\
  map xm_file (orphaned_modifications Demo.extraction)
  = ["old/util.py"; "old/util.py"] /\
  map (fun f => (fl_id f, fl_path f))
      (filter (fun f => fl_path f =? "old/util.py") (files_in (rows Outcome.final)))
  = [(14, "old/util.py"); (16, "old/util.py")] /\
  map (fun m => (md_type m, md_file m))
      (filter (fun m => Nat.leb 14 (md_file m)) (modifications_in (rows Outcome.final)))
  = [("A", 14); ("D", 16)].
Proof. vm_compute. repeat split. Qed.

(** C2 on the demo repository with a commit by "Alice" while the only
    contributor is "alice": the call does not return a NOT_FOUND result, it
    throws the TypeError of the unguarded lookup. *)
Lemma unknown_author_counterexample :
  In "Alice" (map xc_author (commits Demo.extraction_unknown_author)) /\
  ~ In "Alice" (contributors Demo.extraction_unknown_author) /\
  createRepository Demo.env_unknown_author Demo.repoData "tok" Demo.empty
  = Threw (TypeError "id") Outcome.after_unknown_author /\
  forall r s, createRepository Demo.env_unknown_author Demo.repoData "tok" Demo.empty
              <> Done r s.
Proof.
  split; [simpl; auto|]. split.
  - simpl. intros [H|[]]. discriminate.
  - split; [vm_compute; reflexivity|].
    intros r s H.
    assert (Hrun : createRepository Demo.env_unknown_author Demo.repoData "tok"
                     Demo.empty
                   = Threw (TypeError "id") Outcome.after_unknown_author)
      by (vm_compute; reflexivity).
    rewrite Hrun in H. discriminate.
Qed.

(** C3 on the demo repository with a store that refuses the branches: the
    call faults at the first branch, and the Repository, its languages and
    its contributor stay in the store. *)
Lemma rollback_counterexample :
  exists r,
    createRepository Demo.env_rejecting_branches Demo.repoData "tok" Demo.empty
    = Threw (StoreError (RBranch r)) Outcome.after_rejected_branch /\
    rows Outcome.after_rejected_branch <> rows Demo.empty /\
    List.length (repositories_in (rows Outcome.after_rejected_branch)) = 1 /\
    List.length (contributors_in (rows Outcome.after_rejected_branch)) = 1.
Proof.
  eexists. split; [vm_compute; reflexivity|].
  split; [discriminate | split; reflexivity].
Qed.

(** C4 on a store in which user 7 already owns "demo": the error returned
    is of the BAD_REQUEST class. *)
Lemma duplicate_ownership_counterexample :
  checkIfUserHasRepo Demo.owned "demo" (Some 7) = true /\
  createRepository Demo.env Demo.repoData "tok" Demo.owned
  = Done (ServiceError "Usuario ya tiene el repositorio!" BAD_REQUEST) Demo.owned /\
  forall msg ty,
    createRepository Demo.env Demo.repoData "tok" Demo.owned
    = Done (ServiceError msg ty) Demo.owned ->
    ty = BAD_REQUEST.
Proof.
  split; [vm_compute; reflexivity|]. split; [vm_compute; reflexivity|].
  intros msg ty H.
  assert (Hrun : createRepository Demo.env Demo.repoData "tok" Demo.owned
                 = Done (ServiceError "Usuario ya tiene el repositorio!" BAD_REQUEST)
                        Demo.owned) by (vm_compute; reflexivity).
  rewrite Hrun in H. injection H as _ <-. reflexivity.
Qed.

(** ** The theorems on the demo repository *)

Lemma commit_branch_rows_intersection_witness :
  createRepository Demo.env Demo.repoData "tok" Demo.empty
  = Done ok_result Outcome.final /\
  success ok_result = true /\
  let x := repoInfo Demo.env (rd_name Demo.repoData) in
  let P := persisted Demo.empty Outcome.final in
  map br_name (branches_in P) = map xb_name (branches x) /\
  Forall2 (commit_branches_match P) (commits x) (commits_in P).
Proof.
  split; [vm_compute; reflexivity|]. split; [reflexivity|].
  apply (commit_branch_rows_intersection Demo.env Demo.repoData "tok" Demo.empty
           ok_result Outcome.final); vm_compute; reflexivity.
Defined.

Lemma modifications_reference_repository_rows_witness :
  createRepository Demo.env Demo.repoData "tok" Demo.empty
  = Done ok_result Outcome.final /\
  success ok_result = true /\
  let x := repoInfo Demo.env (rd_name Demo.repoData) in
  let P := persisted Demo.empty Outcome.final in
  exists repo,
    repositories_in P = [repo] /\ rp_name repo = rd_name Demo.repoData /\
    Forall (references_rows_of P (rp_id repo)) (modifications_in P) /\
    Forall (recorded_on_its_path P (rp_id repo)) (orphaned_modifications x).
Proof.
  split; [vm_compute; reflexivity|]. split; [reflexivity|].
  apply (modifications_reference_repository_rows Demo.env Demo.repoData "tok"
           Demo.empty ok_result Outcome.final); vm_compute; reflexivity.
Defined.

Lemma placeholder_files_shape_witness :
  createRepository Demo.env Demo.repoData "tok" Demo.empty
  = Done ok_result Outcome.final /\
  success ok_result = true /\
  let x := repoInfo Demo.env (rd_name Demo.repoData) in
  let P := persisted Demo.empty Outcome.final in
  exists live placeholders,
    files_in P = live ++ placeholders /\
    Forall2 live_file_row (files x) live /\
    Forall2 placeholder_for (orphaned_modifications x) placeholders.
Proof.
  split; [vm_compute; reflexivity|]. split; [reflexivity|].
  apply (placeholder_files_shape Demo.env Demo.repoData "tok"
           Demo.empty ok_result Outcome.final); vm_compute; reflexivity.
Defined.

Lemma extensionless_file_language_witness :
  createRepository Demo.env Demo.repoData "tok" Demo.empty
  = Done ok_result Outcome.final /\
  success ok_result = true /\
  let x := repoInfo Demo.env (rd_name Demo.repoData) in
  let P := persisted Demo.empty Outcome.final in
  Forall2 (whole_name_language Demo.env) (files x)
          (firstn (List.length (files x)) (files_in P)).
Proof.
  split; [vm_compute; reflexivity|]. split; [reflexivity|].
  apply (extensionless_file_language Demo.env Demo.repoData "tok"
           Demo.empty ok_result Outcome.final); vm_compute; reflexivity.
Defined.

Lemma demo_paths_distinct : NoDup (map xf_path (files Demo.extraction)).
Proof.
  simpl. repeat constructor; simpl; intuition discriminate.
Qed.

Lemma demo_hashes_resolve m :
  In m (modifications Demo.extraction) ->
  exists c, In c (commits Demo.extraction) /\ xc_hash c = xm_commit m.
Proof.
  simpl.
  intros [<-|[<-|[<-|[<-|[]]]]];
    [ exists (Demo.mkCommit "h1" "alice" ["main"])
    | exists (Demo.mkCommit "h1" "alice" ["main"])
    | exists (Demo.mkCommit "h2" "alice" ["main"; "gone"])
    | exists (Demo.mkCommit "h2" "alice" ["main"; "gone"]) ];
    (split; [simpl; auto | reflexivity]).
Qed.

Lemma one_modification_row_per_modification_witness :
  let x := repoInfo Demo.env (rd_name Demo.repoData) in
  NoDup (map xf_path (files x)) /\
  (forall m, In m (modifications x) ->
             exists c, In c (commits x) /\ xc_hash c = xm_commit m) /\
  (forall res s',
     createRepository Demo.env Demo.repoData "tok" Demo.empty = Done res s' ->
     success res = true ->
     exists ms,
       Permutation (modifications_in (persisted Demo.empty s')) ms /\
       Forall2 (records_modification x (persisted Demo.empty s'))
               (modifications x) ms) /\
  (prechecks_pass Demo.env Demo.repoData "tok" Demo.empty ->
   (forall s r, rejects Demo.env s r = false) ->
   (forall c, In c (commits x) -> In (xc_author c) (contributors x)) ->
   exists s', createRepository Demo.env Demo.repoData "tok" Demo.empty
              = Done ok_result s').
Proof.
  split; [exact demo_paths_distinct|]. split; [exact demo_hashes_resolve|].
  apply (one_modification_row_per_modification Demo.env Demo.repoData "tok"
           Demo.empty demo_paths_distinct demo_hashes_resolve).
Defined.

Lemma failed_cascade_keeps_written_rows_witness :
  let pre := firstn 4 (rows Outcome.final) in
  let post := skipn 5 (rows Outcome.final) in
  let r := RBranch {| br_id := 4; br_name := "main"; br_type := "local"; br_repo := 0 |} in
  rows Outcome.final = pre ++ r :: post /\
  createRepository Demo.env_rejecting_branches Demo.repoData "tok" Demo.empty
  = Threw (StoreError r) (extended Demo.empty pre) /\
  rows (extended Demo.empty pre) = rows Demo.empty ++ pre /\
  persisted Demo.empty (extended Demo.empty pre) = pre /\
  exists d,
    pre ++ [r]
    = RRepository (repository_row Demo.env_rejecting_branches Demo.repoData "tok"
                                  Demo.empty) :: d.
Proof.
  intros pre post r. split; [reflexivity|].
  apply (failed_cascade_keeps_written_rows Demo.env_rejecting_branches Demo.repoData
           "tok" Demo.empty pre r post).
  - repeat split; try reflexivity. repeat constructor.
  - vm_compute. reflexivity.
  - vm_compute. reflexivity.
  - vm_compute. reflexivity.
Defined.

Lemma unknown_author_faults_witness :
  prechecks_pass Demo.env_unknown_author Demo.repoData "tok" Demo.empty /\
  (exists c, In c (commits (repoInfo Demo.env_unknown_author (rd_name Demo.repoData))) /\
             ~ In (xc_author c)
                  (contributors (repoInfo Demo.env_unknown_author
                                          (rd_name Demo.repoData)))) /\
  (forall s r, rejects Demo.env_unknown_author s r = false) /\
  exists e s',
    createRepository Demo.env_unknown_author Demo.repoData "tok" Demo.empty
    = Threw e s' /\
    (exists d, rows s' = rows Demo.empty ++ d) /\
    commits_have_authors (persisted Demo.empty s') /\
    ((forall s r, rejects Demo.env_unknown_author s r = false) ->
     let x := repoInfo Demo.env_unknown_author (rd_name Demo.repoData) in
     let P := persisted Demo.empty s' in
     e = TypeError "id" /\
     createRepository
       (with_extraction Demo.env_unknown_author (before_unknown_author x))
       Demo.repoData "tok" Demo.empty
     = Done ok_result s' /\
     repositories_in P
     = [repository_row Demo.env_unknown_author Demo.repoData "tok" Demo.empty] /\
     map rl_language (repository_languages_in P) = rd_languages Demo.repoData /\
     map ct_name (contributors_in P) = contributors x /\
     map br_name (branches_in P) = map xb_name (branches x) /\
     map cm_hash (commits_in P)
     = map xc_hash (take_while (author_known x) (commits x)) /\
     files_in P = [] /\
     modifications_in P = []).
Proof.
  assert (Hpre : prechecks_pass Demo.env_unknown_author Demo.repoData "tok" Demo.empty)
    by (repeat split; try reflexivity; repeat constructor).
  assert (Hc : exists c,
             In c (commits (repoInfo Demo.env_unknown_author (rd_name Demo.repoData))) /\
             ~ In (xc_author c)
                  (contributors (repoInfo Demo.env_unknown_author
                                          (rd_name Demo.repoData)))).
  { exists (Demo.mkCommit "h2" "Alice" ["main"]). split; [simpl; auto|].
    simpl. intros [H|[]]. discriminate. }
  split; [exact Hpre|]. split; [exact Hc|]. split; [reflexivity|].
  exact (unknown_author_faults Demo.env_unknown_author Demo.repoData "tok"
           Demo.empty Hpre Hc).
Defined.

Lemma duplicate_ownership_is_bad_request_witness :
  checkIfUserHasRepo Demo.owned (rd_name Demo.repoData)
    (v_data (validate Demo.env Demo.repoData "tok")) = true /\
  (exists r, createRepository Demo.env Demo.repoData "tok" Demo.owned
             = Done r Demo.owned /\ success r = false) /\
  (Js.truthy (v_error (validate Demo.env Demo.repoData "tok")) = false ->
   checkIfExistsInBackend Demo.env (rd_name Demo.repoData) = true ->
   createRepository Demo.env Demo.repoData "tok" Demo.owned
   = Done (ServiceError "Usuario ya tiene el repositorio!" BAD_REQUEST) Demo.owned).
Proof.
  split; [vm_compute; reflexivity|].
  apply (duplicate_ownership_is_bad_request Demo.env Demo.repoData "tok" Demo.owned).
  vm_compute. reflexivity.
Defined.


(** * Further properties of [createRepository] *)

(** ** Results *)

(** A call that returns does so in one of two ways: with the success value,
    which carries neither error nor data, or with an error of the
    BAD_REQUEST or NOT_FOUND class, and then the store is as it was. The
    FORBIDDEN class is never used. *)
Theorem createRepository_error_writes_nothing E repoData token s r s' :
  createRepository E repoData token s = Done r s' ->
  r = ok_result \/
  (success r = false /\ s' = s /\ data r = None /\
   exists msg, error r = Some (msg, BAD_REQUEST) \/ error r = Some (msg, NOT_FOUND)).
Proof.
  unfold createRepository.
  destruct (Js.truthy _).
  { intros [= <- <-]. right. simpl. repeat split; eauto. }
  destruct (checkIfExistsInBackend E _); simpl.
  2:{ intros [= <- <-]. right. simpl. repeat split; eauto. }
  destruct (checkIfUserHasRepo s _ _).
  { intros [= <- <-]. right. simpl. repeat split; eauto. }
  destruct (find _ _) as [lang|].
  { intros [= <- <-]. right. simpl. repeat split; eauto. }
  intros H. apply cascade_Done in H. left. apply H.
Qed.

Lemma createRepository_error_writes_nothing_witness :
  createRepository Demo.env Demo.repoData_cobol "tok" Demo.empty
  = Done (ServiceError (language_missing_message "cobol") NOT_FOUND) Demo.empty /\
  (ServiceError (language_missing_message "cobol") NOT_FOUND = ok_result \/
   (success (ServiceError (language_missing_message "cobol") NOT_FOUND) = false /\
    Demo.empty = Demo.empty /\
    data (ServiceError (language_missing_message "cobol") NOT_FOUND) = None /\
    exists msg,
      error (ServiceError (language_missing_message "cobol") NOT_FOUND)
      = Some (msg, BAD_REQUEST) \/
      error (ServiceError (language_missing_message "cobol") NOT_FOUND)
      = Some (msg, NOT_FOUND))).
Proof.
  split; [vm_compute; reflexivity|].
  apply (createRepository_error_writes_nothing Demo.env Demo.repoData_cobol "tok"
           Demo.empty _ Demo.empty).
  vm_compute. reflexivity.
Defined.

(** ** When the call succeeds *)

Section TraceResolves.
Variable E : Env.
Variables (name description : string) (languages : list string).
Variable user : option nat.
Variable x : Extraction.
Variable rid : nat.
Variable t : Trace.
Hypothesis Hok : trace_ok E name description languages user x rid t.

Lemma trace_authors_resolve : authors_resolve x.
Proof.
  destruct Hok as (_ & _ & Fc & _ & Fm & _). intros c Hc.
  destruct (Forall2_In_l _ _ _ _ Fm Hc) as (p & _ & Hrel).
  destruct Hrel as (_ & _ & _ & _ & _ & (a & Hfind & _) & _).
  apply find_some in Hfind. destruct Hfind as (Ha & Hname).
  apply String.eqb_eq in Hname.
  destruct (Forall2_In_r _ _ _ _ Fc Ha) as (n & Hn & Hn' & _). congruence.
Qed.

Lemma trace_commit_hash c :
  In c (map fst (t_commits t)) ->
  exists xc, In xc (commits x) /\ xc_hash xc = cm_hash c.
Proof.
  destruct Hok as (_ & _ & _ & _ & Fm & _). intros Hc.
  apply in_map_iff in Hc. destruct Hc as (p & <- & Hp).
  destruct (Forall2_In_r _ _ _ _ Fm Hp) as (xc & Hxc & _ & _ & Hh & _). eauto.
Qed.

Lemma trace_hashes_resolve : hashes_resolve x.
Proof.
  pose proof (trace_deleted_orphaned _ _ _ _ _ _ _ _ Hok) as Hdel.
  destruct Hok as (_ & _ & _ & _ & _ & Ff & Fd). rewrite Hdel in Fd.
  intros m Hm.
  assert (Hc : exists c, In c (map fst (t_commits t)) /\ cm_hash c = xm_commit m).
  { destruct (existsb (fun xf => xf_path xf =? xm_file m) (files x)) eqn:Hex.
    - apply existsb_exists in Hex. destruct Hex as (xf & Hxf & Heq).
      destruct (Forall2_In_l _ _ _ _ Ff Hxf) as (p & _ & Hrel).
      destruct Hrel as (_ & _ & _ & _ & _ & Fms).
      assert (Hin : In m (filter (fun m => xm_file m =? xf_path xf) (modifications x))).
      { apply filter_In. split; [exact Hm|]. now rewrite String.eqb_sym. }
      destruct (Forall2_In_l _ _ _ _ Fms Hin) as (r & _ & Hmrel).
      destruct (modification_rel_commit _ _ _ _ Hmrel) as (c & Hc & _ & Hh). eauto.
    - assert (Hin : In m (orphaned_modifications x)).
      { apply filter_In. split; [exact Hm | now rewrite Hex]. }
      destruct (Forall2_In_l _ _ _ _ Fd Hin) as (p & _ & Hrel).
      destruct Hrel as (_ & _ & _ & _ & _ & Hmrel).
      destruct (modification_rel_commit _ _ _ _ Hmrel) as (c & Hc & _ & Hh). eauto. }
  destruct Hc as (c & Hc & Hh).
  destruct (trace_commit_hash c Hc) as (xc & Hxc & Hxh).
  exists xc. split; [exact Hxc | congruence].
Qed.
End TraceResolves.

Lemma createRepository_Done_resolves E repoData token s0 s' :
  createRepository E repoData token s0 = Done ok_result s' ->
  prechecks_pass E repoData token s0 /\
  authors_resolve (repoInfo E (rd_name repoData)) /\
  hashes_resolve (repoInfo E (rd_name repoData)).
Proof.
  intros H.
  destruct (createRepository_Done _ _ _ _ _ _ H eq_refl) as (Hpre & t & _ & _ & Hok).
  split; [exact Hpre|]. split.
  - eapply trace_authors_resolve; eauto.
  - eapply trace_hashes_resolve; eauto.
Qed.

(** On a store that refuses nothing, a call whose pre-checks pass and whose
    authors or hashes do not all resolve throws the TypeError of the failed
    lookup. *)
Lemma createRepository_unresolved E repoData token s0 :
  (forall s r, rejects E s r = false) ->
  prechecks_pass E repoData token s0 ->
  ~ (authors_resolve (repoInfo E (rd_name repoData)) /\
     hashes_resolve (repoInfo E (rd_name repoData))) ->
  exists s', createRepository E repoData token s0 = Threw (TypeError "id") s'.
Proof.
  intros Hnever Hpre Hnot.
  destruct (createRepository E repoData token s0) as [r s' | e s'] eqn:Hrun.
  - exfalso. apply Hnot. pose proof Hrun as Hc.
    rewrite (createRepository_prechecked _ _ _ _ Hpre) in Hc.
    apply cascade_Done in Hc. destruct Hc as (-> & _).
    apply (createRepository_Done_resolves _ _ _ _ _ Hrun).
  - exists s'. f_equal.
    rewrite (createRepository_prechecked _ _ _ _ Hpre) in Hrun.
    apply (always_Threw (fun _ => True) (fun e => e = TypeError "id")) in Hrun.
    + apply Hrun.
    + apply cascade_always; [|reflexivity].
      intros s r Hr. rewrite Hnever in Hr. discriminate.
Qed.

(** On a store that refuses nothing, the call returns success exactly when
    the pre-checks pass, every commit's author is an extracted contributor
    and every modification's commit hash is the hash of an extracted commit;
    and when the pre-checks pass but a name or a hash does not resolve, it
    throws the TypeError of the failed lookup. *)
Theorem createRepository_success_iff E repoData token s0 :
  (forall s r, rejects E s r = false) ->
  let x := repoInfo E (rd_name repoData) in
  ((exists s', createRepository E repoData token s0 = Done ok_result s') <->
   prechecks_pass E repoData token s0 /\ authors_resolve x /\ hashes_resolve x) /\
  (prechecks_pass E repoData token s0 ->
   ~ (authors_resolve x /\ hashes_resolve x) ->
   exists s', createRepository E repoData token s0 = Threw (TypeError "id") s').
Proof.
  intros Hnever x. split; [split|].
  - intros (s' & H). exact (createRepository_Done_resolves _ _ _ _ _ H).
  - intros (Hpre & Ha & Hh). now apply createRepository_succeeds.
  - intros Hpre Hnot. now apply createRepository_unresolved.
Qed.

Lemma createRepository_success_iff_witness :
  (forall s r, rejects Demo.env s r = false) /\
  let x := repoInfo Demo.env (rd_name Demo.repoData) in
  ((exists s', createRepository Demo.env Demo.repoData "tok" Demo.empty
               = Done ok_result s') <->
   prechecks_pass Demo.env Demo.repoData "tok" Demo.empty /\
   authors_resolve x /\ hashes_resolve x) /\
  (prechecks_pass Demo.env Demo.repoData "tok" Demo.empty ->
   ~ (authors_resolve x /\ hashes_resolve x) ->
   exists s', createRepository Demo.env Demo.repoData "tok" Demo.empty
              = Threw (TypeError "id") s').
Proof.
  split; [reflexivity|].
  apply (createRepository_success_iff Demo.env Demo.repoData "tok" Demo.empty).
  reflexivity.
Defined.

(** ** A modification by a commit that was not extracted *)

Lemma file_or_modification_tables d :
  Forall file_or_modification d ->
  repositories_in d = [] /\ contributors_in d = [] /\ branches_in d = [] /\
  commits_in d = [] /\ commit_branches_in d = [].
Proof.
  induction 1 as [|r d Hr _ IH]; [repeat split|].
  destruct r; simpl in *; tauto.
Qed.

(** On a store that refuses nothing, a cascade whose authors resolve can
    only fault while it saves files and modifications: the repository, the
    contributors, the branches and every commit are in the store by then. *)
Lemma cascade_Threw_after_commits E name description languages user x s0 e s' :
  (forall s r, rejects E s r = false) ->
  authors_resolve x ->
  cascade E name description languages user x s0 = Threw e s' ->
  exists t d,
    rows s' = rows s0 ++ trace_rows t ++ d /\
    Forall file_or_modification d /\
    t_files t = [] /\ t_deleted t = [] /\
    t_repo t = {| rp_id := next_id s0; rp_name := name;
                  rp_description := description; rp_user_owner := user |} /\
    Forall2 (contributor_rel (next_id s0)) (contributors x) (t_contributors t) /\
    Forall2 (branch_rel (next_id s0)) (branches x) (t_branches t) /\
    Forall2 (commit_rel (next_id s0) (t_contributors t) (t_branches t))
            (commits x) (t_commits t).
Proof.
  intros Hnever Hauth H. unfold cascade, Repository_save in H.
  rewrite (bind_Done_eq _ _ _ _ _ (insert_total E Hnever _ _ s0)) in H; cbv beta in H.
  match type of H with
  | context [save_language E ?r] => set (repo := r) in *
  end.
  match type of H with
  | context [bind (for_of languages ?body0 ?acc0) _ ?st0] =>
      destruct (for_of_total languages body0
                  (fun v a s1 _ => save_language_total E Hnever repo v a s1) acc0 st0)
        as (u & s2 & Hl)
  end.
  rewrite (bind_Done_eq _ _ _ _ _ Hl) in H; cbv beta in H.
  apply save_languages_Done in Hl. destruct Hl as (ls & (R2 & _) & _).
  match type of H with
  | context [bind (for_of (contributors x) ?body0 ?acc0) _ ?st0] =>
      destruct (for_of_total (contributors x) body0
                  (fun v a s1 _ => save_contributor_total E Hnever repo v a s1) acc0 st0)
        as (cs & s3 & Hc)
  end.
  rewrite (bind_Done_eq _ _ _ _ _ Hc) in H; cbv beta in H.
  apply save_contributors_Done in Hc. destruct Hc as (cs' & -> & (R3 & _) & Fc).
  simpl in H.
  match type of H with
  | context [bind (for_of (branches x) ?body0 ?acc0) _ ?st0] =>
      destruct (for_of_total (branches x) body0
                  (fun v a s1 _ => save_branch_total E Hnever repo v a s1) acc0 st0)
        as (bs & s4 & Hb)
  end.
  rewrite (bind_Done_eq _ _ _ _ _ Hb) in H; cbv beta in H.
  apply save_branches_Done in Hb. destruct Hb as (bs' & -> & (R4 & _) & Fb).
  simpl in H.
  match type of H with
  | context [bind (for_of (commits x) ?body0 ?acc0) _ ?st0] =>
      destruct (for_of_total (commits x) body0) with (acc := acc0) (s := st0)
        as (cms & s5 & Hm)
  end.
  { intros c a s1 Hc. apply save_commit_total; [exact Hnever|].
    destruct (Forall2_In_l _ _ _ _ Fc (Hauth c Hc)) as (row & Hrow & Hname & _).
    apply (find_is_some _ _ row Hrow). now apply String.eqb_eq. }
  rewrite (bind_Done_eq _ _ _ _ _ Hm) in H; cbv beta in H.
  apply save_commits_Done in Hm. destruct Hm as (ps & -> & (R5 & _) & Fm).
  simpl in H.
  eapply (always_Threw file_or_modification (fun _ => True)) in H;
    [|prove_always_with ltac:(exact I)].
  destruct H as ((d & Hd & HG) & _).
  exists {| t_repo := repo; t_languages := ls; t_contributors := cs';
            t_branches := bs'; t_commits := ps; t_files := []; t_deleted := [] |}, d.
  split.
  - rewrite Hd, R5, R4, R3, R2. unfold trace_rows. simpl.
    rewrite !app_nil_r, <- !app_assoc. reflexivity.
  - repeat split; auto.
Qed.

(** The lookup of a modification's commit is not guarded either. On a store
    that refuses nothing, when the pre-checks pass and the authors resolve
    but some modification's commit hash is the hash of no extracted commit,
    the call throws the TypeError of the failed lookup, and it does so after
    the history is written: the Repository row, one Contributor row per
    extracted contributor, one Branch row per extracted branch and one
    Commit row per extracted commit stay in the store. *)
Theorem unknown_commit_hash_leaves_history E repoData token s0 :
  prechecks_pass E repoData token s0 ->
  (forall s r, rejects E s r = false) ->
  let x := repoInfo E (rd_name repoData) in
  authors_resolve x ->
  ~ hashes_resolve x ->
  exists s',
    createRepository E repoData token s0 = Threw (TypeError "id") s' /\
    let P := persisted s0 s' in
    repositories_in P = [repository_row E repoData token s0] /\
    map ct_name (contributors_in P) = contributors x /\
    map br_name (branches_in P) = map xb_name (branches x) /\
    map cm_hash (commits_in P) = map xc_hash (commits x).
Proof.
  intros Hpre Hnever x Hauth Hhash.
  destruct (createRepository_unresolved E repoData token s0 Hnever Hpre)
    as (s' & Hrun); [tauto|].
  exists s'. split; [exact Hrun|].
  rewrite (createRepository_prechecked _ _ _ _ Hpre) in Hrun.
  apply (cascade_Threw_after_commits _ _ _ _ _ _ _ _ _ Hnever Hauth) in Hrun.
  destruct Hrun as (t & d & R & HG & _ & _ & Hrepo & Fc & Fb & Fm).
  destruct (file_or_modification_tables d HG) as (D1 & D2 & D3 & D4 & _).
  cbv zeta. rewrite (persisted_app _ _ _ R).
  unfold repositories_in, contributors_in, branches_in, commits_in.
  rewrite !flat_map_app.
  fold (repositories_in (trace_rows t)) (repositories_in d)
       (contributors_in (trace_rows t)) (contributors_in d)
       (branches_in (trace_rows t)) (branches_in d)
       (commits_in (trace_rows t)) (commits_in d).
  rewrite D1, D2, D3, D4, !app_nil_r.
  rewrite repositories_in_trace, contributors_in_trace, branches_in_trace,
    commits_in_trace.
  split; [rewrite Hrepo; reflexivity|]. split; [|split].
  - rewrite <- (map_id (contributors x)). apply Forall2_map_eq.
    revert Fc. apply Forall2_impl. now intros n r (? & _).
  - apply Forall2_map_eq. revert Fb. apply Forall2_impl. now intros b r (? & _).
  - rewrite map_map. apply Forall2_map_eq. revert Fm. apply Forall2_impl.
    intros c p (_ & _ & Hh & _). exact Hh.
Qed.

Lemma demo_unknown_hash_prechecks :
  prechecks_pass Demo.env_unknown_hash Demo.repoData "tok" Demo.empty.
Proof. repeat split; try reflexivity. repeat constructor. Qed.

Lemma demo_unknown_hash_authors :
  authors_resolve (repoInfo Demo.env_unknown_hash (rd_name Demo.repoData)).
Proof.
  intros c. simpl. intros [<-|[<-|[]]]; simpl; auto.
Qed.

Lemma demo_unknown_hash_unresolved :
  ~ hashes_resolve (repoInfo Demo.env_unknown_hash (rd_name Demo.repoData)).
Proof.
  intros H.
  destruct (H {| xm_type := "M"; xm_commit := "h9"; xm_file := "src/app.js" |})
    as (c & Hc & Heq).
  - simpl. auto.
  - simpl in Hc. destruct Hc as [<-|[<-|[]]]; discriminate.
Qed.

Lemma unknown_commit_hash_leaves_history_witness :
  exists s',
    createRepository Demo.env_unknown_hash Demo.repoData "tok" Demo.empty
    = Threw (TypeError "id") s' /\
    let x := repoInfo Demo.env_unknown_hash (rd_name Demo.repoData) in
    let P := persisted Demo.empty s' in
    repositories_in P
    = [repository_row Demo.env_unknown_hash Demo.repoData "tok" Demo.empty] /\
    map ct_name (contributors_in P) = contributors x /\
    map br_name (branches_in P) = map xb_name (branches x) /\
    map cm_hash (commits_in P) = map xc_hash (commits x).
Proof.
  apply (unknown_commit_hash_leaves_history Demo.env_unknown_hash Demo.repoData
           "tok" Demo.empty demo_unknown_hash_prechecks).
  - reflexivity.
  - exact demo_unknown_hash_authors.
  - exact demo_unknown_hash_unresolved.
Defined.

(** ** The rows of a successful ingestion *)

(** A successful ingestion writes exactly one Repository row, with the
    given name and description and the actor resolved by the validation as
    owner, and one Repository_Language row per declared language, in the
    declared order, repeated languages included. *)
Theorem repository_and_language_rows E repoData token s0 res s' :
  createRepository E repoData token s0 = Done res s' ->
  success res = true ->
  let P := persisted s0 s' in
  repositories_in P = [repository_row E repoData token s0] /\
  map (fun r => (rl_repo r, rl_language r)) (repository_languages_in P)
  = map (fun l => (next_id s0, l)) (rd_languages repoData).
Proof.
  intros H Hs P.
  destruct (createRepository_Done _ _ _ _ _ _ H Hs) as (_ & t & HP & _ & Hok).
  subst P. rewrite HP, repositories_in_trace, repository_languages_in_trace.
  destruct Hok as (Hrepo & Fl & _). split; [rewrite Hrepo; reflexivity|].
  apply Forall2_map_eq. revert Fl. apply Forall2_impl.
  intros l r (-> & ->). reflexivity.
Qed.

Lemma repository_and_language_rows_witness :
  createRepository Demo.env Demo.repoData "tok" Demo.empty
  = Done ok_result Outcome.final /\
  success ok_result = true /\
  let P := persisted Demo.empty Outcome.final in
  repositories_in P = [repository_row Demo.env Demo.repoData "tok" Demo.empty] /\
  map (fun r => (rl_repo r, rl_language r)) (repository_languages_in P)
  = map (fun l => (next_id Demo.empty, l)) (rd_languages Demo.repoData).
Proof.
  split; [vm_compute; reflexivity|]. split; [reflexivity|].
  apply (repository_and_language_rows Demo.env Demo.repoData "tok" Demo.empty
           ok_result Outcome.final); vm_compute; reflexivity.
Defined.

(** A successful ingestion writes one Contributor row per extracted
    contributor and one Branch row per extracted branch, in the extracted
    order and without merging repeated entries, all of the repository just
    created. *)
Theorem contributor_and_branch_rows E repoData token s0 res s' :
  createRepository E repoData token s0 = Done res s' ->
  success res = true ->
  let x := repoInfo E (rd_name repoData) in
  let P := persisted s0 s' in
  map (fun r => (ct_name r, ct_repo r)) (contributors_in P)
  = map (fun n => (n, next_id s0)) (contributors x) /\
  map (fun r => (br_name r, br_type r, br_repo r)) (branches_in P)
  = map (fun b => (xb_name b, xb_type b, next_id s0)) (branches x).
Proof.
  intros H Hs x P.
  destruct (createRepository_Done _ _ _ _ _ _ H Hs) as (_ & t & HP & _ & Hok).
  subst P. rewrite HP, contributors_in_trace, branches_in_trace.
  destruct Hok as (_ & _ & Fc & Fb & _). split.
  - apply Forall2_map_eq. revert Fc. apply Forall2_impl.
    intros n r (-> & ->). reflexivity.
  - apply Forall2_map_eq. revert Fb. apply Forall2_impl.
    intros b r (-> & -> & ->). reflexivity.
Qed.

Lemma contributor_and_branch_rows_witness :
  createRepository Demo.env Demo.repoData "tok" Demo.empty
  = Done ok_result Outcome.final /\
  success ok_result = true /\
  let x := repoInfo Demo.env (rd_name Demo.repoData) in
  let P := persisted Demo.empty Outcome.final in
  map (fun r => (ct_name r, ct_repo r)) (contributors_in P)
  = map (fun n => (n, next_id Demo.empty)) (contributors x) /\
  map (fun r => (br_name r, br_type r, br_repo r)) (branches_in P)
  = map (fun b => (xb_name b, xb_type b, next_id Demo.empty)) (branches x).
Proof.
  split; [vm_compute; reflexivity|]. split; [reflexivity|].
  apply (contributor_and_branch_rows Demo.env Demo.repoData "tok" Demo.empty
           ok_result Outcome.final); vm_compute; reflexivity.
Defined.

(** A successful ingestion writes one Commit row per extracted commit, in
    the extracted order; each row copies the title, content, hash and date
    of its commit, belongs to the repository just created, and has as
    author the first Contributor row written by the call that bears the
    commit's author name. *)
Theorem commit_rows_follow_extraction E repoData token s0 res s' :
  createRepository E repoData token s0 = Done res s' ->
  success res = true ->
  let x := repoInfo E (rd_name repoData) in
  let P := persisted s0 s' in
  Forall2 (commit_row_of P (next_id s0)) (commits x) (commits_in P).
Proof.
  intros H Hs x P.
  destruct (createRepository_Done _ _ _ _ _ _ H Hs) as (_ & t & HP & _ & Hok).
  subst P. rewrite HP. unfold commit_row_of.
  rewrite commits_in_trace, contributors_in_trace.
  destruct Hok as (_ & _ & _ & _ & Fm & _).
  apply Forall2_map_r. revert Fm. apply Forall2_impl.
  intros c p (H1 & H2 & H3 & H4 & H5 & H6 & _). repeat split; assumption.
Qed.

Lemma commit_rows_follow_extraction_witness :
  createRepository Demo.env Demo.repoData "tok" Demo.empty
  = Done ok_result Outcome.final /\
  success ok_result = true /\
  let x := repoInfo Demo.env (rd_name Demo.repoData) in
  let P := persisted Demo.empty Outcome.final in
  Forall2 (commit_row_of P (next_id Demo.empty)) (commits x) (commits_in P).
Proof.
  split; [vm_compute; reflexivity|]. split; [reflexivity|].
  apply (commit_rows_follow_extraction Demo.env Demo.repoData "tok" Demo.empty
           ok_result Outcome.final); vm_compute; reflexivity.
Defined.

(** ** Files and their extension *)

Lemma has_char_append c (a b : string) :
  Js.has_char c (a ++ b) = Js.has_char c a || Js.has_char c b.
Proof.
  induction a as [|h a IH]; simpl; [reflexivity|].
  rewrite IH. apply orb_assoc.
Qed.

Lemma has_char_at c (a b : string) : Js.has_char c (a ++ String c b) = true.
Proof.
  rewrite has_char_append. simpl. rewrite Ascii.eqb_refl. apply orb_true_r.
Qed.

Lemma last_split_unique c pre ext pre' post :
  Js.has_char c ext = false -> Js.has_char c post = false ->
  (pre ++ String c ext)%string = (pre' ++ String c post)%string ->
  ext = post.
Proof.
  intros Hext Hpost. revert pre'.
  induction pre as [|a pre IH]; intros [|a' pre']; simpl; intros Heq.
  - now injection Heq.
  - injection Heq as _ Heq. rewrite Heq, has_char_at in Hext. discriminate.
  - injection Heq as _ Heq. rewrite <- Heq, has_char_at in Hpost. discriminate.
  - injection Heq as _ Heq. eauto.
Qed.

(** The extension handed to the language registry never contains a ['.'],
    and it is the part of the name after its last ['.']: for a name
    [pre.ext] with no ['.'] in [ext] it is [ext], so a hidden file such as
    [.gitignore] has extension [gitignore] and a name that ends with ['.']
    has the empty extension. *)
Theorem extension_is_after_last_dot :
  (forall name, Js.has_char "." (extension_of name) = false) /\
  (forall pre ext, Js.has_char "." ext = false ->
                   extension_of (pre ++ String "." ext) = ext) /\
  (forall ext, Js.has_char "." ext = false ->
               extension_of (String "." ext) = ext) /\
  (forall pre, extension_of (pre ++ ".") = "").
Proof.
  assert (Hafter : forall pre ext, Js.has_char "." ext = false ->
                     extension_of (pre ++ String "." ext) = ext).
  { intros pre ext Hext. unfold extension_of.
    destruct (slice_after_last "." (pre ++ String "." ext))
      as [(Hno & _) | (pre' & post & Heq & Hpost & ->)].
    - rewrite has_char_at in Hno. discriminate.
    - symmetry. eapply last_split_unique; eauto. }
  split; [|split; [exact Hafter | split]].
  - intros name. unfold extension_of.
    destruct (slice_after_last "." name) as [(Hno & ->) | (pre & post & _ & Hpost & ->)];
      assumption.
  - intros ext Hext. apply (Hafter "" ext Hext).
  - intros pre. apply (Hafter pre ""). reflexivity.
Qed.

(** A successful ingestion writes, before any placeholder, one File row per
    extracted file, in the extracted order; each row copies the name, size
    and path of its file, belongs to the repository just created, and
    carries the registry's answer for the extension of the name, null when
    the registry does not know the extension. *)
Theorem file_rows_follow_extraction E repoData token s0 res s' :
  createRepository E repoData token s0 = Done res s' ->
  success res = true ->
  let x := repoInfo E (rd_name repoData) in
  let P := persisted s0 s' in
  Forall2 (file_row_of E (next_id s0)) (files x)
          (firstn (List.length (files x)) (files_in P)) /\
  List.length (files_in P)
  = List.length (files x) + List.length (orphaned_modifications x).
Proof.
  intros H Hs x P.
  destruct (createRepository_Done _ _ _ _ _ _ H Hs) as (_ & t & HP & _ & Hok).
  subst P. rewrite HP, files_in_trace. fold x in Hok.
  pose proof (trace_deleted_orphaned _ _ _ _ _ _ _ _ Hok) as Hdel.
  destruct Hok as (_ & _ & _ & _ & _ & Ff & Fd). rewrite Hdel in Fd. split.
  - rewrite (Forall2_length Ff), <- (length_map fst), firstn_app, firstn_all.
    rewrite Nat.sub_diag, firstn_0, app_nil_r.
    apply Forall2_map_r. revert Ff. apply Forall2_impl.
    intros xf p (H1 & H2 & H3 & H4 & H5 & _). repeat split; assumption.
  - rewrite length_app, !length_map, (Forall2_length Ff), (Forall2_length Fd).
    reflexivity.
Qed.

Lemma file_rows_follow_extraction_witness :
  createRepository Demo.env Demo.repoData "tok" Demo.empty
  = Done ok_result Outcome.final /\
  success ok_result = true /\
  let x := repoInfo Demo.env (rd_name Demo.repoData) in
  let P := persisted Demo.empty Outcome.final in
  Forall2 (file_row_of Demo.env (next_id Demo.empty)) (files x)
          (firstn (List.length (files x)) (files_in P)) /\
  List.length (files_in P)
  = List.length (files x) + List.length (orphaned_modifications x).
Proof.
  split; [vm_compute; reflexivity|]. split; [reflexivity|].
  apply (file_rows_follow_extraction Demo.env Demo.repoData "tok" Demo.empty
           ok_result Outcome.final); vm_compute; reflexivity.
Defined.

(** ** Modifications when paths repeat *)

Lemma filter_none {A} (p : A -> bool) l :
  (forall a, In a l -> p a = false) -> filter p l = [].
Proof.
  induction l as [|a l IH]; intros H; [reflexivity|]. simpl.
  rewrite (H a (or_introl eq_refl)). apply IH. intros; apply H; now right.
Qed.

Lemma filter_all {A} (p : A -> bool) l :
  (forall a, In a l -> p a = true) -> filter p l = l.
Proof.
  induction l as [|a l IH]; intros H; [reflexivity|]. simpl.
  rewrite (H a (or_introl eq_refl)). f_equal. apply IH. intros; apply H; now right.
Qed.

Lemma filter_other_groups (G : list (FileRow * list ModificationRow)) i :
  (forall g m, In g G -> In m (snd g) -> md_file m = fl_id (fst g)) ->
  ~ In i (map (fun g => fl_id (fst g)) G) ->
  filter (fun m => Nat.eqb (md_file m) i) (flat_map snd G) = [].
Proof.
  intros Hown Hi. apply filter_none. intros m Hm.
  apply in_flat_map in Hm. destruct Hm as (g & Hg & Hm).
  apply Nat.eqb_neq. rewrite (Hown g m Hg Hm). intros Heq. apply Hi.
  apply in_map_iff. exists g. auto.
Qed.

(** Among groups of Modification rows that each reference the File row of
    their group, the File rows having distinct identifiers, the rows that
    reference the File row of a group are the rows of that group. *)
Lemma filter_group (G : list (FileRow * list ModificationRow)) :
  NoDup (map (fun g => fl_id (fst g)) G) ->
  (forall g m, In g G -> In m (snd g) -> md_file m = fl_id (fst g)) ->
  forall g, In g G ->
    filter (fun m => Nat.eqb (md_file m) (fl_id (fst g))) (flat_map snd G) = snd g.
Proof.
  induction G as [|h G IH]; intros Hnd Hown g Hg; [destruct Hg|].
  simpl in Hnd. inversion_clear Hnd as [|? ? Hn Hnd'].
  assert (Hown' : forall g' m, In g' G -> In m (snd g') -> md_file m = fl_id (fst g')).
  { intros g' m Hg' Hm. apply Hown; [now right | exact Hm]. }
  simpl. rewrite filter_app. destruct Hg as [<-|Hg].
  - rewrite (filter_other_groups G _ Hown' Hn), app_nil_r.
    apply filter_all. intros m Hm. apply Nat.eqb_eq.
    apply Hown; [now left | exact Hm].
  - rewrite (IH Hnd' Hown' g Hg).
    replace (filter _ (snd h)) with (@nil ModificationRow); [reflexivity|].
    symmetry. apply filter_none. intros m Hm. apply Nat.eqb_neq.
    rewrite (Hown h m (or_introl eq_refl) Hm). intros Heq. apply Hn.
    apply in_map_iff. exists g. split; [now symmetry | exact Hg].
Qed.

(** After a successful ingestion, the File row of each extracted file is
    referenced by one Modification row per modification of its path, and
    the placeholder of each modification of a deleted path by the row of
    that modification alone. *)
Lemma modifications_of_each_file E repoData token s0 res s' :
  createRepository E repoData token s0 = Done res s' ->
  success res = true ->
  let x := repoInfo E (rd_name repoData) in
  let P := persisted s0 s' in
  Forall2 (carries_its_modifications x P) (files x)
          (firstn (List.length (files x)) (files_in P)) /\
  Forall2 (carries_one_modification P) (orphaned_modifications x)
          (skipn (List.length (files x)) (files_in P)).
Proof.
  intros H Hs x P.
  destruct (createRepository_Done _ _ _ _ _ _ H Hs) as (_ & t & HP & W & Hok).
  fold x in Hok.
  assert (Hdel := trace_deleted_orphaned _ _ _ _ _ _ _ _ Hok).
  assert (Hfiles : files_in P = map fst (t_files t) ++ map fst (t_deleted t))
    by (subst P; rewrite HP; apply files_in_trace).
  assert (Hcommits : commits_in P = map fst (t_commits t))
    by (subst P; rewrite HP; apply commits_in_trace).
  assert (Hmods : modifications_in P
                  = flat_map snd (t_files t) ++ map snd (t_deleted t))
    by (subst P; rewrite HP; apply modifications_in_trace).
  destruct Hok as (_ & _ & _ & _ & _ & Ff & Fd). rewrite Hdel in Fd.
  set (G := t_files t ++ map (fun p => (fst p, [snd p])) (t_deleted t)).
  assert (HG : modifications_in P = flat_map snd G).
  { rewrite Hmods. unfold G. rewrite flat_map_app. f_equal.
    generalize (t_deleted t). intros l.
    induction l as [|p l IH]; simpl; [reflexivity | now f_equal]. }
  assert (HGf : files_in P = map fst G).
  { rewrite Hfiles. unfold G. rewrite map_app, map_map. reflexivity. }
  assert (Hnd : NoDup (map (fun g => fl_id (fst g)) G)).
  { rewrite <- (map_map fst fl_id), <- HGf. subst P. rewrite HP.
    apply NoDup_file_ids, (wrote_NoDup _ _ _ W). }
  assert (Hown : forall g m, In g G -> In m (snd g) -> md_file m = fl_id (fst g)).
  { intros g m Hg Hm. unfold G in Hg. apply in_app_or in Hg.
    destruct Hg as [Hg | Hg].
    - destruct (Forall2_In_r _ _ _ _ Ff Hg) as (xf & _ & Hrel).
      destruct Hrel as (_ & _ & _ & _ & _ & Fms).
      destruct (Forall2_In_r _ _ _ _ Fms Hm) as (xm & _ & _ & Hfile & _).
      exact Hfile.
    - apply in_map_iff in Hg. destruct Hg as (p & <- & Hp).
      destruct (Forall2_In_r _ _ _ _ Fd Hp) as (xm & _ & Hrel).
      destruct Hrel as (_ & _ & _ & _ & _ & _ & Hfile & _).
      simpl in Hm. destruct Hm as [<-|[]]. exact Hfile. }
  assert (Hof : forall g, In g G -> modifications_of P (fst g) = snd g).
  { intros g Hg. unfold modifications_of. rewrite HG.
    now apply filter_group. }
  assert (Hlen : List.length (map fst (t_files t)) = List.length (files x)).
  { rewrite length_map. symmetry. exact (Forall2_length Ff). }
  rewrite Hfiles, <- Hlen, firstn_app, skipn_app, firstn_all, skipn_all,
    Nat.sub_diag. simpl. rewrite app_nil_r.
  split.
  - apply Forall2_map_r. eapply Forall2_impl_In; [|exact Ff].
    intros xf pf Hxf Hpf (Hname & _ & Hpath & _ & _ & Fms).
    split; [exact Hname | split; [exact Hpath|]].
    rewrite (Hof pf); [|unfold G; apply in_or_app; now left].
    revert Fms. apply Forall2_impl. intros xm m Hrel.
    destruct (modification_rel_commit _ _ _ _ Hrel) as (c & Hc & Hcid & Hhash).
    destruct Hrel as (Htype & Hfile & _).
    split; [exact Htype | split; [exact Hfile|]].
    exists c. rewrite Hcommits. auto.
  - apply Forall2_map_r. eapply Forall2_impl_In; [|exact Fd].
    intros xm pd Hxm Hpd (_ & Hsize & Hpath & _ & _ & Hrel).
    split; [exact Hpath | split; [exact Hsize|]].
    assert (Ho : modifications_of P (fst pd) = [snd pd]).
    { apply (Hof (fst pd, [snd pd])). unfold G. apply in_or_app; right.
      apply in_map_iff. now exists pd. }
    rewrite Ho. constructor; [|constructor].
    destruct (modification_rel_commit _ _ _ _ Hrel) as (c & Hc & Hcid & Hhash).
    destruct Hrel as (Htype & Hfile & _).
    split; [exact Htype | split; [exact Hfile|]].
    exists c. rewrite Hcommits. auto.
Qed.

(** A successful ingestion writes its Modification rows in the order in
    which the cascade saves the modifications: file by file, then the
    modifications of no extracted file. A modification is saved once per
    extracted file of its path, each time against the File row of that
    file: the Modification rows that reference the File row of an extracted
    file are, in order, one per extracted modification of its path. So when
    two extracted files share a path, each modification of that path is
    written twice, once against each of the two File rows. The placeholder
    of a modification of a deleted path is referenced by the row of that
    modification alone. *)
Theorem modification_rows_follow_files E repoData token s0 res s' :
  createRepository E repoData token s0 = Done res s' ->
  success res = true ->
  let x := repoInfo E (rd_name repoData) in
  let P := persisted s0 s' in
  Forall2 (records_modification x P) (saved_modifications x) (modifications_in P) /\
  List.length (modifications_in P) = List.length (saved_modifications x) /\
  Forall2 (carries_its_modifications x P) (files x)
          (firstn (List.length (files x)) (files_in P)) /\
  Forall2 (carries_one_modification P) (orphaned_modifications x)
          (skipn (List.length (files x)) (files_in P)).
Proof.
  intros H Hs x P.
  pose proof (modification_rows_grouped _ _ _ _ _ _ H Hs) as Hg.
  split; [exact Hg|]. split; [symmetry; exact (Forall2_length Hg)|].
  exact (modifications_of_each_file _ _ _ _ _ _ H Hs).
Qed.

Lemma modification_rows_follow_files_witness :
  createRepository Demo.env_duplicate_path Demo.repoData "tok" Demo.empty
  = Done ok_result Outcome.final_duplicate_path /\
  success ok_result = true /\
  List.length (modifications (repoInfo Demo.env_duplicate_path "demo")) = 4 /\
  List.length (saved_modifications (repoInfo Demo.env_duplicate_path "demo")) = 6 /\
  map md_file (modifications_in (persisted Demo.empty Outcome.final_duplicate_path))
  = [10; 10; 13; 13; 16; 18] /\
  let x := repoInfo Demo.env_duplicate_path (rd_name Demo.repoData) in
  let P := persisted Demo.empty Outcome.final_duplicate_path in
  Forall2 (records_modification x P) (saved_modifications x) (modifications_in P) /\
  List.length (modifications_in P) = List.length (saved_modifications x) /\
  Forall2 (carries_its_modifications x P) (files x)
          (firstn (List.length (files x)) (files_in P)) /\
  Forall2 (carries_one_modification P) (orphaned_modifications x)
          (skipn (List.length (files x)) (files_in P)).
Proof.
  split; [vm_compute; reflexivity|]. split; [reflexivity|].
  split; [reflexivity|]. split; [reflexivity|]. split; [vm_compute; reflexivity|].
  apply (modification_rows_follow_files Demo.env_duplicate_path Demo.repoData "tok"
           Demo.empty ok_result Outcome.final_duplicate_path);
    vm_compute; reflexivity.
Defined.

Lemma extension_is_after_last_dot_witness :
  Js.has_char "." "gz" = false /\
  extension_of "a.tar.gz" = "gz" /\
  extension_of ".gitignore" = "gitignore" /\
  extension_of "notes." = "".
Proof.
  destruct extension_is_after_last_dot as (_ & Hafter & Hhidden & Hempty).
  split; [reflexivity|]. split; [|split].
  - apply (Hafter "a.tar" "gz"). reflexivity.
  - apply (Hhidden "gitignore"). reflexivity.
  - apply (Hempty "notes").
Defined.

(** ** Calling again *)

Lemma checkIfUserHasRepo_In s r :
  In (RRepository r) (rows s) ->
  checkIfUserHasRepo s (rp_name r) (rp_user_owner r) = true.
Proof.
  intros Hin. unfold checkIfUserHasRepo. apply existsb_exists.
  exists r. split.
  - unfold repositories_in. apply in_flat_map. exists (RRepository r).
    simpl. auto.
  - rewrite String.eqb_refl. simpl.
    destruct (rp_user_owner r); [apply Nat.eqb_refl | reflexivity].
Qed.




(** * Properties of the other operations *)

(** Explores the branches of a service operation. *)
Ltac svc_cases :=
  repeat first
    [ progress cbv zeta
    | progress unfold sbind, sret, sraise, dot, perform
    | match goal with
      | |- context [if ?b then _ else _] => destruct b eqn:?
      | |- context [match ?o with Some _ => _ | None => _ end] => destruct o eqn:?
      end
    | progress simpl ].

Ltac svc_solve :=
  first
    [ reflexivity
    | discriminate
    | right; split; reflexivity
    | left; split; [reflexivity | eexists; split; [|reflexivity]; eauto] ].

(** ** [UserService] *)

(** Every operation of [UserService] that changes something asks the model
    for its change only when it returns success, and then exactly once: an
    error result or a thrown error leaves everything as it was. The password
    handed to the model by [changePassword] is the encrypted one. *)
Theorem UserService_acts_only_on_success W :
  (forall token password,
     acts_only_on_success (fun c => exists d, c = User_delete d)
       (UserService_deleteUser W token password)) /\
  (forall newUsername token password,
     acts_only_on_success (fun c => exists d, c = User_changeUsername newUsername d)
       (UserService_changeUsername W newUsername token password)) /\
  (forall newPassword token password,
     acts_only_on_success
       (fun c => exists d, c = User_changePassword (Auth_encryptPassword W newPassword) d)
       (UserService_changePassword W newPassword token password)) /\
  (forall newDescription token,
     acts_only_on_success (fun c => exists d, c = User_changeDescription newDescription d)
       (UserService_changeDescription W newDescription token)) /\
  (forall username token,
     acts_only_on_success (fun c => exists d, c = User_followUser d username)
       (UserService_followUser W username token)) /\
  (forall username token,
     acts_only_on_success (fun c => exists d, c = User_unfollowUser d username)
       (UserService_unfollow W username token)).
Proof.
  repeat split; intros; intros log.
  - unfold UserService_deleteUser. svc_cases; svc_solve.
  - unfold UserService_changeUsername. svc_cases; svc_solve.
  - unfold UserService_changePassword. svc_cases; svc_solve.
  - unfold UserService_changeDescription. svc_cases; svc_solve.
  - unfold UserService_followUser. svc_cases; svc_solve.
  - unfold UserService_unfollow. svc_cases; svc_solve.
Qed.

(** [deleteUser], [changeUsername] and [changePassword] never return an
    error of the FORBIDDEN class: the module does not import [FORBIDDEN], so
    when the password does not match the stored one, building the result
    throws a ReferenceError, and nothing has been changed. *)
Theorem UserService_forbidden_is_unbound W token password :
  (throws_on_mismatch W password
     (validationHandler [ validateToken (w_env W) token;
                          User_validatePassword W password ])
     (UserService_deleteUser W token password) /\
   never_forbidden (UserService_deleteUser W token password)) /\
  (forall newUsername,
     throws_on_mismatch W password
       (validationHandler [ validateToken (w_env W) token;
                            User_validateUsername W newUsername;
                            User_validatePassword W password ])
       (UserService_changeUsername W newUsername token password) /\
     never_forbidden (UserService_changeUsername W newUsername token password)) /\
  (forall newPassword,
     throws_on_mismatch W password
       (validationHandler [ validateToken (w_env W) token;
                            User_validatePassword W newPassword;
                            User_validatePassword W password ])
       (UserService_changePassword W newPassword token password) /\
     never_forbidden (UserService_changePassword W newPassword token password)).
Proof.
  split; [|split]; intros; split.
  - intros Hv He stored Hg Hc log. unfold UserService_deleteUser. cbv zeta.
    rewrite Hv, He. cbn [negb]. unfold sbind, dot. rewrite Hg.
    unfold sret. rewrite Hc. reflexivity.
  - intros log r log' msg. unfold UserService_deleteUser.
    svc_cases; intros [= <- <-]; discriminate.
  - intros Hv He stored Hg Hc log. unfold UserService_changeUsername. cbv zeta.
    rewrite Hv, He. cbn [negb]. unfold sbind, dot. rewrite Hg.
    unfold sret. rewrite Hc. reflexivity.
  - intros log r log' msg. unfold UserService_changeUsername.
    svc_cases; intros [= <- <-]; discriminate.
  - intros Hv He stored Hg Hc log. unfold UserService_changePassword. cbv zeta.
    rewrite Hv, He. cbn [negb]. unfold sbind, dot. rewrite Hg.
    unfold sret. rewrite Hc. reflexivity.
  - intros log r log' msg. unfold UserService_changePassword.
    svc_cases; intros [= <- <-]; discriminate.
Qed.

Lemma UserService_forbidden_is_unbound_witness :
  Auth_comparePassword (DemoWorld.world false false DemoWorld.never) "wrong"
    (us_password DemoWorld.ana) = false /\
  UserService_deleteUser (DemoWorld.world false false DemoWorld.never) "tok" "wrong" []
  = Raised (JsReferenceError "FORBIDDEN") [] /\
  UserService_changePassword (DemoWorld.world false false DemoWorld.never)
    "new" "tok" "wrong" []
  = Raised (JsReferenceError "FORBIDDEN") [].
Proof.
  destruct (UserService_forbidden_is_unbound
              (DemoWorld.world false false DemoWorld.never) "tok" "wrong")
    as ((Hdelete & _) & _ & Hpassword).
  split; [reflexivity|]. split.
  - apply (Hdelete eq_refl eq_refl DemoWorld.ana eq_refl eq_refl).
  - apply (proj1 (Hpassword "new") eq_refl eq_refl DemoWorld.ana eq_refl eq_refl).
Defined.

(** A user never follows themselves through [followUser], nor a user they
    already follow: when it returns success, the followed user exists, is
    not the actor of the token, was not followed by the actor, and the one
    change asked of the model is that follow. *)
Theorem followUser_success W username token log r log' :
  UserService_followUser W username token log = Returned r log' ->
  rs_success r = true ->
  let actor := v_data (validationHandler [ validateToken (w_env W) token ]) in
  User_checkIfExistsById W actor = true /\
  (exists followed,
     User_getByUsername W username = Some followed /\
     loose_eq_id (us_id followed) actor = false) /\
  User_checkIfFollow W actor username = false /\
  log' = log ++ [User_followUser actor username].
Proof.
  unfold UserService_followUser. cbv zeta.
  set (validation := validationHandler _).
  destruct (Js.truthy (v_error validation)); [intros [= <- <-]; discriminate|].
  destruct (User_checkIfExistsById W (v_data validation)); cbn [negb];
    [|intros [= <- <-]; discriminate].
  destruct (User_checkIfExistsByUsername W username); cbn [negb];
    [|intros [= <- <-]; discriminate].
  unfold sbind, dot.
  destruct (User_getByUsername W username) as [followed|]; [|discriminate].
  unfold sret.
  destruct (loose_eq_id (us_id followed) (v_data validation)) eqn:Hself;
    [intros [= <- <-]; discriminate|].
  destruct (User_checkIfFollow W (v_data validation) username);
    [intros [= <- <-]; discriminate|].
  unfold perform. destruct (call_fails W _); [discriminate|].
  intros [= <- <-] _. repeat split; eauto.
Qed.

Lemma followUser_success_witness :
  UserService_followUser (DemoWorld.world false false DemoWorld.never) "bob" "tok" []
  = Returned (done None) [User_followUser (Some 7) "bob"] /\
  rs_success (@done unit None) = true /\
  let W := DemoWorld.world false false DemoWorld.never in
  let actor := v_data (validationHandler [ validateToken (w_env W) "tok" ]) in
  User_checkIfExistsById W actor = true /\
  (exists followed,
     User_getByUsername W "bob" = Some followed /\
     loose_eq_id (us_id followed) actor = false) /\
  User_checkIfFollow W actor "bob" = false /\
  [User_followUser (Some 7) "bob"] = [] ++ [User_followUser actor "bob"].
Proof.
  split; [reflexivity|]. split; [reflexivity|].
  apply (followUser_success (DemoWorld.world false false DemoWorld.never)
           "bob" "tok" [] (done None) [User_followUser (Some 7) "bob"]);
    reflexivity.
Defined.

(** ** [RepositoryService] *)

(** Every operation of [RepositoryService] that asks a model for one change
    does so only when it returns success, and then exactly once: an error
    result or a thrown error leaves everything as it was. *)
Theorem RepositoryService_acts_only_on_success W :
  (forall repoName token,
     acts_only_on_success (fun c => exists d, c = Repository_upload repoName d)
       (RepositoryService_uploadRepository W repoName token)) /\
  (forall username repoName userOwnerName,
     acts_only_on_success
       (fun c => exists user owner,
                   User_getByUsername W username = Some user /\
                   User_getByUsername W userOwnerName = Some owner /\
                   c = Repository_like (us_id user) repoName (us_id owner))
       (RepositoryService_like W username repoName userOwnerName)) /\
  (forall repoName userOwnerName username,
     acts_only_on_success
       (fun c => exists user owner,
                   User_getByUsername W username = Some user /\
                   User_getByUsername W userOwnerName = Some owner /\
                   c = Repository_removeLike repoName (us_id owner) (us_id user))
       (RepositoryService_removeLike W repoName userOwnerName username)) /\
  (forall newRepoName repoName token,
     acts_only_on_success
       (fun c => exists d, c = Repository_changeName newRepoName repoName d)
       (RepositoryService_changeName W newRepoName repoName token)) /\
  (forall newDescription repoName token,
     acts_only_on_success
       (fun c => exists d, c = Repository_changeDescription newDescription repoName d)
       (RepositoryService_changeDescription W newDescription repoName token)) /\
  (forall repoName,
     acts_only_on_success (eq (Repository_removeTemp repoName))
       (RepositoryService_removeTemp W repoName)) /\
  (forall repoName token,
     acts_only_on_success (fun c => exists d, c = Repository_deleteDb repoName d)
       (RepositoryService_deleteDb W repoName token)) /\
  (forall fileName,
     acts_only_on_success (eq (Repository_deleteZip fileName))
       (RepositoryService_deleteZip W fileName)).
Proof.
  repeat split; intros; intros log.
  - unfold RepositoryService_uploadRepository. svc_cases; svc_solve.
  - unfold RepositoryService_like. svc_cases; svc_solve.
  - unfold RepositoryService_removeLike. svc_cases; svc_solve.
  - unfold RepositoryService_changeName. svc_cases; svc_solve.
  - unfold RepositoryService_changeDescription. svc_cases; svc_solve.
  - unfold RepositoryService_removeTemp. svc_cases; svc_solve.
  - unfold RepositoryService_deleteDb. svc_cases; svc_solve.
  - unfold RepositoryService_deleteZip. svc_cases; svc_solve.
Qed.

(** *** Validation of several checks *)

Lemma validationHandler_ok_iff checks :
  Js.truthy (v_error (validationHandler checks)) = false <->
  Forall (fun v => Js.truthy (v_error v) = false) checks.
Proof.
  induction checks as [|v rest IH]; simpl.
  - split; [constructor | reflexivity].
  - destruct (Js.truthy (v_error v)) eqn:Hv; simpl.
    + rewrite Hv. split; [discriminate|]. intros H. inversion H; congruence.
    + destruct (Js.truthy (v_error (validationHandler rest))) eqn:Hr.
      * rewrite Hr. split; [discriminate|]. intros H. inversion H; subst.
        apply IH in H3. discriminate.
      * simpl. split; [|reflexivity]. intros _. constructor; [exact Hv|].
        now apply IH.
Qed.

Lemma validationHandler_data_cases x checks :
  Forall (fun v => v_data v = None \/ v_data v = x) checks ->
  v_data (validationHandler checks) = None \/ v_data (validationHandler checks) = x.
Proof.
  induction 1 as [|v rest Hv _ IH]; simpl; [now left|].
  destruct (Js.truthy (v_error v)); simpl; [now left|].
  destruct (Js.truthy (v_error (validationHandler rest))); [exact IH|]. simpl.
  destruct (v_data v) as [d|]; [|exact IH].
  destruct Hv as [Hv | Hv]; [discriminate | now right].
Qed.

Lemma validationHandler_resolves x checks :
  Forall (fun v => v_data v = None \/ v_data v = x) checks ->
  Exists (fun v => v_data v = x) checks ->
  Js.truthy (v_error (validationHandler checks)) = false ->
  v_data (validationHandler checks) = x.
Proof.
  induction 1 as [|v rest Hv Hrest IH]; intros Hex; [inversion Hex|]. simpl.
  destruct (Js.truthy (v_error v)) eqn:Ev; simpl; [now rewrite Ev|].
  destruct (Js.truthy (v_error (validationHandler rest))) eqn:Er;
    [now rewrite Er|]. simpl. intros _.
  destruct (v_data v) as [d|] eqn:Dv.
  - destruct Hv as [Hv | Hv]; [discriminate | exact Hv].
  - inversion Hex as [? ? Hx | ? ? Hx]; subst.
    + destruct (validationHandler_data_cases (v_data v) rest Hrest) as [H | H];
        rewrite Dv in *; congruence.
    + now apply IH.
Qed.

(** [delete] is the one operation that can stop between two changes. Its
    changes are: none when it returns an error or throws before the first
    one; the cloud deletion alone when the database deletion fails, which it
    reports by throwing; both, in that order, when it returns success. The
    second case occurs whenever the checks pass, the cloud deletion succeeds
    and the database deletion fails. *)
Theorem delete_can_stop_halfway W repoName token password log :
  let validation :=
    validationHandler [ validateRepoName (w_env W) repoName;
                        validateToken (w_env W) token;
                        User_validatePassword W password ] in
  let cloud := Repository_deleteCloud repoName (v_data validation) in
  let db := Repository_deleteDb repoName (v_data validation) in
  match RepositoryService_delete W repoName token password log with
  | Returned r log' =>
      (rs_success r = true /\ log' = log ++ [cloud; db]) \/
      (rs_success r = false /\ log' = log)
  | Raised e log' =>
      log' = log \/ (e = CallError db /\ log' = log ++ [cloud])
  end /\
  (Js.truthy (v_error validation) = false ->
   forall stored,
     User_getById W (v_data validation) = Some stored ->
     Auth_comparePassword W password (us_password stored) = true ->
     call_fails W cloud = false ->
     call_fails W db = true ->
     RepositoryService_delete W repoName token password log
     = Raised (CallError db) (log ++ [cloud])).
Proof.
  cbv zeta. unfold RepositoryService_delete. cbv zeta. split.
  - destruct (Js.truthy _); [right; split; reflexivity|].
    unfold sbind, dot.
    destruct (User_getById W _) as [stored|]; [|now left].
    unfold sret.
    destruct (Auth_comparePassword W password (us_password stored)); cbn [negb];
      [|right; split; reflexivity].
    unfold perform.
    destruct (call_fails W (Repository_deleteCloud _ _)); [now left|].
    destruct (call_fails W (Repository_deleteDb _ _)); [right; split; reflexivity|].
    left. split; [reflexivity|]. now rewrite <- app_assoc.
  - intros Hv stored Hg Hc Hcloud Hdb.
    rewrite Hv. unfold sbind, dot. rewrite Hg. unfold sret. rewrite Hc. cbn [negb].
    unfold perform. rewrite Hcloud, Hdb. reflexivity.
Qed.

Lemma delete_can_stop_halfway_witness :
  RepositoryService_delete (DemoWorld.world false false DemoWorld.db_fails)
    "demo" "tok" "secret" []
  = Raised (CallError (Repository_deleteDb "demo" (Some 7)))
           [Repository_deleteCloud "demo" (Some 7)].
Proof.
  apply (proj2 (delete_can_stop_halfway
                  (DemoWorld.world false false DemoWorld.db_fails)
                  "demo" "tok" "secret" []) eq_refl DemoWorld.ana);
    reflexivity.
Defined.

(** [delete] never consults the repositories. It returns success exactly
    when the validation passes, the actor of the token is found, the
    password matches the stored one and both deletions go through; and it
    answers the same whatever repositories exist and whoever owns them, so
    it asks for the deletion of a repository the actor does not own, or that
    does not exist, as it does for one the actor owns. *)
Theorem delete_ignores_repositories W repoName token password log :
  let validation :=
    validationHandler [ validateRepoName (w_env W) repoName;
                        validateToken (w_env W) token;
                        User_validatePassword W password ] in
  ((exists r log',
      RepositoryService_delete W repoName token password log = Returned r log' /\
      rs_success r = true) <->
   (Js.truthy (v_error validation) = false /\
    (exists stored,
       User_getById W (v_data validation) = Some stored /\
       Auth_comparePassword W password (us_password stored) = true) /\
    call_fails W (Repository_deleteCloud repoName (v_data validation)) = false /\
    call_fails W (Repository_deleteDb repoName (v_data validation)) = false)) /\
  (forall s inDb,
     RepositoryService_delete (with_repositories W s inDb) repoName token password log
     = RepositoryService_delete W repoName token password log).
Proof.
  cbv zeta. split; [|reflexivity].
  unfold RepositoryService_delete. cbv zeta. split.
  - intros (r & log' & H & Hs).
    destruct (Js.truthy _) eqn:Hv in H; [injection H as <- <-; discriminate|].
    unfold sbind, dot in H.
    destruct (User_getById W _) as [stored|] eqn:Hg in H; [|discriminate].
    unfold sret in H.
    destruct (Auth_comparePassword W password (us_password stored)) eqn:Hc;
      cbn [negb] in H; [|injection H as <- <-; discriminate].
    unfold perform in H.
    destruct (call_fails W (Repository_deleteCloud _ _)) eqn:Hcloud; [discriminate|].
    destruct (call_fails W (Repository_deleteDb _ _)) eqn:Hdb; [discriminate|].
    repeat split; eauto.
  - intros (Hv & (stored & Hg & Hc) & Hcloud & Hdb).
    rewrite Hv. unfold sbind, dot. rewrite Hg. unfold sret. rewrite Hc. cbn [negb].
    unfold perform. rewrite Hcloud, Hdb. eexists _, _. split; reflexivity.
Qed.

Lemma delete_ignores_repositories_witness :
  exists r log',
    RepositoryService_delete
      (with_repositories (DemoWorld.world false false DemoWorld.never)
                         Demo.empty (fun _ => false))
      "demo" "tok" "secret" [] = Returned r log' /\
    rs_success r = true.
Proof.
  apply (proj2 (proj1 (delete_ignores_repositories
                         (with_repositories
                            (DemoWorld.world false false DemoWorld.never)
                            Demo.empty (fun _ => false))
                         "demo" "tok" "secret" []))).
  split; [reflexivity|]. split; [|split; reflexivity].
  exists DemoWorld.ana. split; reflexivity.
Defined.

(** In one and the same state of the models, [like] and [removeLike]
    cannot both succeed for the same user, repository and owner: the
    answers of the models that let one of them return success make the
    other return an error and ask for no change. Where [like] returns
    success, [removeLike] returns the FORBIDDEN error of a missing like;
    where [removeLike] returns success, [like] returns the BAD_REQUEST error
    of a like already given. Both operations are run on the same answers of
    the models: nothing is said of a call made once the other has changed
    the likes. *)
Theorem like_and_removeLike_exclude W username repoName userOwnerName :
  (forall log r log',
     RepositoryService_like W username repoName userOwnerName log = Returned r log' ->
     rs_success r = true ->
     forall log2,
       RepositoryService_removeLike W repoName userOwnerName username log2
       = Returned (failure "Usuario no ha dado me gusta!" FORBIDDEN) log2) /\
  (forall log r log',
     RepositoryService_removeLike W repoName userOwnerName username log
     = Returned r log' ->
     rs_success r = true ->
     forall log2,
       RepositoryService_like W username repoName userOwnerName log2
       = Returned (failure "Usuario ya dió like al repositorio!" BAD_REQUEST) log2).
Proof.
  assert (Hsame :
    Js.truthy (v_error (validationHandler
      [ validateRepoName (w_env W) repoName; User_validateUsername W username;
        User_validateUsername W userOwnerName ])) = false <->
    Js.truthy (v_error (validationHandler
      [ validateRepoName (w_env W) repoName; User_validateUsername W userOwnerName;
        User_validateUsername W username ])) = false).
  { rewrite !validationHandler_ok_iff. split; intros H;
      inversion H as [|? ? Ha Hr]; inversion Hr as [|? ? Hb Hr']; subst;
      inversion Hr' as [|? ? Hc _]; subst; repeat constructor; assumption. }
  split; intros log r log' H Hs log2.
  - unfold RepositoryService_like in H. cbv zeta in H.
    destruct (Js.truthy _) eqn:Hv in H;
      [injection H as <- <-; discriminate|].
    destruct (Repository_checkIfExistsInDb W repoName) eqn:Hdb; cbn [negb] in H;
      [|injection H as <- <-; discriminate].
    destruct (User_checkIfExistsByUsername W username) eqn:Hu; cbn [negb] in H;
      [|injection H as <- <-; discriminate].
    destruct (User_checkIfExistsByUsername W userOwnerName) eqn:Ho; cbn [negb] in H;
      [|injection H as <- <-; discriminate].
    unfold sbind, dot in H.
    destruct (User_getByUsername W userOwnerName) as [owner|] eqn:Hg;
      [|discriminate].
    unfold sret in H.
    destruct (checkIfUserHasRepo (w_store W) repoName (Some (us_id owner))) eqn:Hown;
      cbn [negb] in H; [|injection H as <- <-; discriminate].
    destruct (Repository_checkIfLike W username repoName (us_id owner)) eqn:Hl;
      [injection H as <- <-; discriminate|].
    unfold RepositoryService_removeLike. cbv zeta.
    rewrite (proj1 Hsame Hv), Hu, Ho, Hdb. cbn [negb].
    unfold sbind, dot. rewrite Hg. unfold sret. rewrite Hown, Hl. reflexivity.
  - unfold RepositoryService_removeLike in H. cbv zeta in H.
    destruct (Js.truthy _) eqn:Hv in H;
      [injection H as <- <-; discriminate|].
    destruct (User_checkIfExistsByUsername W username) eqn:Hu; cbn [negb] in H;
      [|injection H as <- <-; discriminate].
    destruct (User_checkIfExistsByUsername W userOwnerName) eqn:Ho; cbn [negb] in H;
      [|injection H as <- <-; discriminate].
    destruct (Repository_checkIfExistsInDb W repoName) eqn:Hdb; cbn [negb] in H;
      [|injection H as <- <-; discriminate].
    unfold sbind, dot in H.
    destruct (User_getByUsername W userOwnerName) as [owner|] eqn:Hg;
      [|discriminate].
    unfold sret in H.
    destruct (checkIfUserHasRepo (w_store W) repoName (Some (us_id owner))) eqn:Hown;
      cbn [negb] in H; [|injection H as <- <-; discriminate].
    destruct (Repository_checkIfLike W username repoName (us_id owner)) eqn:Hl;
      cbn [negb] in H; [|injection H as <- <-; discriminate].
    unfold RepositoryService_like. cbv zeta.
    rewrite (proj2 Hsame Hv), Hdb, Hu, Ho. cbn [negb].
    unfold sbind, dot. rewrite Hg. unfold sret. rewrite Hown, Hl. reflexivity.
Qed.

Lemma like_and_removeLike_exclude_witness :
  RepositoryService_removeLike (DemoWorld.world false false DemoWorld.never)
    "demo" "ana" "bob" []
  = Returned (failure "Usuario no ha dado me gusta!" FORBIDDEN) [] /\
  RepositoryService_like (DemoWorld.world true false DemoWorld.never)
    "bob" "demo" "ana" []
  = Returned (failure "Usuario ya dió like al repositorio!" BAD_REQUEST) [].
Proof.
  split.
  - apply (proj1 (like_and_removeLike_exclude
                    (DemoWorld.world false false DemoWorld.never) "bob" "demo" "ana")
                 [] (done None) [Repository_like 8 "demo" 7]);
      reflexivity.
  - apply (proj2 (like_and_removeLike_exclude
                    (DemoWorld.world true false DemoWorld.never) "bob" "demo" "ana")
                 [] (done None) [Repository_removeLike "demo" 7 8]);
      reflexivity.
Defined.

(** *** After an import *)

Lemma createRepository_Done_owns E repoData token s0 s1 :
  createRepository E repoData token s0 = Done ok_result s1 ->
  Js.truthy (v_error (validate E repoData token)) = false /\
  forall s2 d,
    rows s2 = rows s1 ++ d ->
    checkIfUserHasRepo s2 (rd_name repoData) (v_data (validate E repoData token)) = true.
Proof.
  intros H.
  destruct (createRepository_Done _ _ _ _ _ _ H eq_refl)
    as ((Hv & _) & t & _ & Wr & Hok).
  split; [exact Hv|]. intros s2 d R2.
  apply (checkIfUserHasRepo_In s2 (repository_row E repoData token s0)).
  rewrite R2. apply in_or_app; left.
  destruct Wr as (-> & _). destruct Hok as (Hrepo & _).
  apply in_or_app; right. unfold trace_rows. simpl. left.
  rewrite Hrepo. reflexivity.
Qed.

(** Every check but the token's resolves no actor. *)
Ltac token_only Hn Hd Hl :=
  repeat (constructor;
          [first [left; first [apply Hn | apply Hd | apply Hl] | right; reflexivity]|]);
  constructor.

(** The token's check is among the checks. *)
Ltac token_checked :=
  repeat first [apply Exists_cons_hd; reflexivity | apply Exists_cons_tl].

(** The actor who imported a repository is never refused as not owning it:
    in a world that holds the rows of a successful [createRepository], and
    where only the token resolves an actor, [changeName] and
    [changeDescription] called with the same token and repository name
    return no error of the FORBIDDEN class. *)
Theorem importer_is_owner E repoData token s0 s1 W :
  createRepository E repoData token s0 = Done ok_result s1 ->
  only_token_resolves E ->
  w_env W = E ->
  (exists d, rows (w_store W) = rows s1 ++ d) ->
  (forall newRepoName,
     never_forbidden (RepositoryService_changeName W newRepoName
                        (rd_name repoData) token)) /\
  (forall newDescription,
     never_forbidden (RepositoryService_changeDescription W newDescription
                        (rd_name repoData) token)).
Proof.
  intros H (Hn & Hd & Hl) HE (d & Hrows).
  destruct (createRepository_Done_owns _ _ _ _ _ H) as (Hv & Hown).
  specialize (Hown (w_store W) d Hrows).
  assert (Hactor : v_data (validate E repoData token) = v_data (validateToken E token)).
  { apply validationHandler_resolves; [token_only Hn Hd Hl|token_checked|exact Hv]. }
  rewrite Hactor in Hown. subst E.
  split; intros x log r log' msg Hrun.
  - unfold RepositoryService_changeName in Hrun. cbv zeta in Hrun.
    destruct (Js.truthy _) eqn:Hv' in Hrun;
      [injection Hrun as <- <-; discriminate|].
    rewrite (validationHandler_resolves (v_data (validateToken (w_env W) token)))
      in Hrun; [|token_only Hn Hd Hl|token_checked|exact Hv'].
    destruct (Repository_checkIfExistsInDb W _); cbn [negb] in Hrun;
      [|injection Hrun as <- <-; discriminate].
    destruct (User_checkIfExistsById W _); cbn [negb] in Hrun;
      [|injection Hrun as <- <-; discriminate].
    rewrite Hown in Hrun. cbn [negb] in Hrun.
    unfold sbind, perform, sret in Hrun.
    destruct (call_fails W _); [discriminate|].
    injection Hrun as <- <-. discriminate.
  - unfold RepositoryService_changeDescription in Hrun. cbv zeta in Hrun.
    destruct (Js.truthy _) eqn:Hv' in Hrun;
      [injection Hrun as <- <-; discriminate|].
    rewrite (validationHandler_resolves (v_data (validateToken (w_env W) token)))
      in Hrun; [|token_only Hn Hd Hl|token_checked|exact Hv'].
    destruct (Repository_checkIfExistsInDb W _); cbn [negb] in Hrun;
      [|injection Hrun as <- <-; discriminate].
    destruct (User_checkIfExistsById W _); cbn [negb] in Hrun;
      [|injection Hrun as <- <-; discriminate].
    rewrite Hown in Hrun. cbn [negb] in Hrun.
    unfold sbind, perform, sret in Hrun.
    destruct (call_fails W _); [discriminate|].
    injection Hrun as <- <-. discriminate.
Qed.

Lemma importer_is_owner_witness :
  createRepository Demo.env Demo.repoData "tok" Demo.empty
  = Done ok_result Outcome.final /\
  RepositoryService_changeName DemoWorld.after_import "renamed" "demo" "tok" []
  = Returned (done None) [Repository_changeName "renamed" "demo" (Some 7)] /\
  (forall newRepoName,
     never_forbidden (RepositoryService_changeName DemoWorld.after_import newRepoName
                        (rd_name Demo.repoData) "tok")) /\
  (forall newDescription,
     never_forbidden (RepositoryService_changeDescription DemoWorld.after_import
                        newDescription (rd_name Demo.repoData) "tok")).
Proof.
  split; [vm_compute; reflexivity|]. split; [vm_compute; reflexivity|].
  apply (importer_is_owner Demo.env Demo.repoData "tok" Demo.empty Outcome.final
           DemoWorld.after_import).
  - vm_compute; reflexivity.
  - repeat split; reflexivity.
  - reflexivity.
  - exists []. vm_compute; reflexivity.
Defined.

(** *** Searches *)

(** The searches only read. [UserService.search],
    [RepositoryService.search] and [RepositoryService.getFromUser] ask for
    no change and, the model having answered, do not throw; a success
    carries the list the model found, which is then not empty, and an error
    carries no data: an empty result is never a success. *)
Theorem searches_find_or_fail W :
  (forall username,
     finds_or_fails (User_search W username) (UserService_search W username)) /\
  (forall repoName,
     finds_or_fails (Repository_search W repoName)
                    (RepositoryService_search W repoName)) /\
  (forall username,
     finds_or_fails (Repository_getFromUser W username)
                    (RepositoryService_getFromUser W username)).
Proof.
  assert (Hne : forall A (l : list A), Nat.eqb (List.length l) 0 = false -> l <> []).
  { intros A l H ->. discriminate. }
  repeat split; intros x log.
  - unfold UserService_search. cbv zeta.
    destruct (Nat.eqb _ 0) eqn:Hlen; eexists; (split; [reflexivity|]);
      split; intros Hs; try discriminate; try reflexivity.
    split; [reflexivity | now apply Hne].
  - unfold RepositoryService_search. cbv zeta.
    destruct (Js.truthy _);
      [eexists; (split; [reflexivity|]); split; intros Hs;
       [discriminate | reflexivity]|].
    destruct (Nat.eqb _ 0) eqn:Hlen; eexists; (split; [reflexivity|]);
      split; intros Hs; try discriminate; try reflexivity.
    split; [reflexivity | now apply Hne].
  - unfold RepositoryService_getFromUser. cbv zeta.
    destruct (Js.truthy _);
      [eexists; (split; [reflexivity|]); split; intros Hs;
       [discriminate | reflexivity]|].
    destruct (User_checkIfExistsByUsername W x); cbn [negb];
      [|eexists; (split; [reflexivity|]); split; intros Hs;
        [discriminate | reflexivity]].
    destruct (Nat.eqb _ 0) eqn:Hlen; eexists; (split; [reflexivity|]);
      split; intros Hs; try discriminate; try reflexivity.
    split; [reflexivity | now apply Hne].
Qed.

(** ** [AuthController] *)

(** [signinWithToken] never sends the OK response. It sends the internal
    server error, the bad request of the answer's validation error or the
    unauthorized response; for every other answer of the service, that of an
    accepted token, it faults with the ReferenceError of [userAuthenticated]
    before anything is sent. *)
Theorem signinWithToken_never_ok token user :
  AuthController_signinWithToken token user = Sends internalServer \/
  (exists answer,
     user = Answers answer /\
     (AuthController_signinWithToken token user
      = Sends (badRequest (validationError answer) (validationField answer)) \/
      AuthController_signinWithToken token user
      = Sends (unauthorized "User Unauthorized!" (Some token)) \/
      (Js.truthy (validationError answer) = false /\
       isUnauthorized answer = false /\
       AuthController_signinWithToken token user
       = Faults (JsReferenceError "userAuthenticated")))).
Proof.
  destruct user as [answer|]; [right; exists answer; split; [reflexivity|] | now left].
  simpl. destruct (Js.truthy (validationError answer)); [now left|].
  destruct (isUnauthorized answer); [right; now left|].
  right; right. repeat split.
Qed.

(** [signup] and [signin] send the OK response only for an answer of the
    service in which every failure flag they read is falsy; [signin] then
    discloses the user and token of that answer, so no token is sent for an
    unknown user or a wrong password. *)
Theorem ok_only_without_failure_flags username password outcome message data :
  (AuthController_signup username password outcome = Sends (ok message data) ->
   exists answer,
     outcome = Answers answer /\
     Js.truthy (validationError answer) = false /\
     userExists answer = false /\
     data = WholeAnswer answer) /\
  (AuthController_signin username password outcome = Sends (ok message data) ->
   exists answer,
     outcome = Answers answer /\
     Js.truthy (validationError answer) = false /\
     userNotExists answer = false /\
     passwordNotMatch answer = false /\
     data = UserAndToken (ar_user answer) (ar_token answer)).
Proof.
  split; destruct outcome as [answer|]; simpl; try discriminate.
  - destruct (Js.truthy (validationError answer)) eqn:Hv; [discriminate|].
    destruct (userExists answer) eqn:He; [discriminate|].
    intros [= <- <-]. exists answer. repeat split; assumption.
  - destruct (Js.truthy (validationError answer)) eqn:Hv; [discriminate|].
    destruct (userNotExists answer) eqn:He; [discriminate|].
    destruct (passwordNotMatch answer) eqn:Hp; [discriminate|].
    intros [= <- <-]. exists answer. repeat split; assumption.
Qed.

Lemma ok_only_without_failure_flags_witness :
  AuthController_signin "ana" "secret" (Answers DemoWorld.accepted)
  = Sends (ok "User Authenticated!" (UserAndToken (Some "ana") (Some "jwt"))) /\
  exists answer,
    Answers DemoWorld.accepted = Answers answer /\
    Js.truthy (validationError answer) = false /\
    userNotExists answer = false /\
    passwordNotMatch answer = false /\
    UserAndToken (Some "ana") (Some "jwt")
    = UserAndToken (ar_user answer) (ar_token answer).
Proof.
  split; [reflexivity|].
  apply (proj2 (ok_only_without_failure_flags "ana" "secret"
                  (Answers DemoWorld.accepted)
                  "User Authenticated!" (UserAndToken (Some "ana") (Some "jwt")))).
  reflexivity.
Defined.

